(** * BGRemover: the interactive mask / viewport engine

    A shallow embedding of the mask and viewport core of [BGRemover.py]
    (class [BackgroundRemoverGUI]): viewport zoom and pan, the undo / redo
    history of the working mask, the add / subtract compositor, the slider to
    threshold mapping, the shadow and background-blur caches and the export
    validation.

    Conventions.
    - A Python [int] is a [Z].
    - A Python [float] is an element of a type [F] carrying the operations of
      class [PyFloat].  Two instances are given: [binary64] (the primitive
      IEEE-754 doubles of the kernel, i.e. what CPython computes) and
      [exactQ] (the same expressions over the rationals, without rounding).
      Every function of the program is written once, over an arbitrary [F].
    - An 8-bit ("L") Pillow image is a [Grid Z]: its size and its rows.
    - Buffers produced by Pillow / OpenCV filters whose pixels no property
      below looks at (Gaussian blur, inpainting, alpha compositing) are kept
      symbolically, as a record of the inputs they were computed from.
    - [self] is the record [App]; every method takes the state and returns
      the new state. *)

From Stdlib Require Import ZArith QArith Qround Qminmax Lqa Lia Bool String Ascii.
From Stdlib Require Import List.
From Stdlib Require Import Floats Uint63.
Import ListNotations.

Set Implicit Arguments.
Set Warnings "-inexact-float".
Local Open Scope Z_scope.

(** ** Python floats *)

Class PyFloat (F : Type) : Type := {
  fadd : F -> F -> F;
  fsub : F -> F -> F;
  fmul : F -> F -> F;
  fdiv : F -> F -> F;
  flt : F -> F -> bool;          (* a < b  *)
  fle : F -> F -> bool;          (* a <= b *)
  feq : F -> F -> bool;          (* a == b *)
  of_int : Z -> F;               (* int -> float conversion *)
  py_int : F -> Z;               (* int(x): truncation toward zero *)
  math_ceil : F -> Z             (* math.ceil(x) *)
}.

Declare Scope py_scope.
Delimit Scope py_scope with py.
Infix "+" := fadd : py_scope.
Infix "-" := fsub : py_scope.
Infix "*" := fmul : py_scope.
Infix "/" := fdiv : py_scope.
Infix "<?" := flt : py_scope.
Infix "<=?" := fle : py_scope.
Infix "==?" := feq (at level 70) : py_scope.

Section PyBuiltins.
Context {F : Type} `{PyFloat F}.

(** A decimal literal [n/d], such as [1.2 = 12/10]: the nearest value the
    arithmetic has. *)
Definition lit (n d : Z) : F := (of_int n / of_int d)%py.

(** [max(a, b)]: Python keeps [a] unless [b > a]. *)
Definition py_max (a b : F) : F := if (a <? b)%py then b else a.

(** [min(a, b)]: Python keeps [a] unless [b < a]. *)
Definition py_min (a b : F) : F := if (b <? a)%py then b else a.

(** [a > b] *)
Definition fgt (a b : F) : bool := (b <? a)%py.

End PyBuiltins.

(** *** IEEE-754 binary64 *)

Definition float_of_Z (z : Z) : float :=
  if z <? 0 then PrimFloat.opp (PrimFloat.of_uint63 (Uint63.of_Z (- z)))
  else PrimFloat.of_uint63 (Uint63.of_Z z).

(** [int(x)] on a double: the integer part, toward zero. *)
Definition float_trunc (x : float) : Z :=
  match Prim2SF x with
  | S754_finite s m e =>
      let v := if 0 <=? e then Z.pos m * 2 ^ e else Z.pos m / 2 ^ (- e) in
      if s then - v else v
  | _ => 0
  end.

(** [math.ceil(x)] on a double. *)
Definition float_ceil (x : float) : Z :=
  match Prim2SF x with
  | S754_finite s m e =>
      if 0 <=? e then (if s then - (Z.pos m * 2 ^ e) else Z.pos m * 2 ^ e)
      else
        let q := Z.pos m / 2 ^ (- e) in
        let r := Z.pos m mod 2 ^ (- e) in
        if s then - q else if r =? 0 then q else q + 1
  | _ => 0
  end.

#[export] Instance binary64 : PyFloat float := {
  fadd := PrimFloat.add;
  fsub := PrimFloat.sub;
  fmul := PrimFloat.mul;
  fdiv := PrimFloat.div;
  flt := PrimFloat.ltb;
  fle := PrimFloat.leb;
  feq := PrimFloat.eqb;
  of_int := float_of_Z;
  py_int := float_trunc;
  math_ceil := float_ceil
}.

(** *** Exact rational arithmetic *)

Definition Q_trunc (q : Q) : Z := Z.quot (Qnum q) (Z.pos (Qden q)).

#[export] Instance exactQ : PyFloat Q := {
  fadd := Qplus;
  fsub := Qminus;
  fmul := Qmult;
  fdiv := Qdiv;
  flt := fun a b => negb (Qle_bool b a);
  fle := Qle_bool;
  feq := Qeq_bool;
  of_int := inject_Z;
  py_int := Q_trunc;
  math_ceil := Qceiling
}.

(** ** Pillow images *)

Record Grid (A : Type) : Type := mkGrid {
  g_width : Z;
  g_height : Z;
  g_rows : list (list A)
}.

Arguments mkGrid {A} _ _ _.

(** A mode-"L" image: one byte per pixel. *)
Definition Image : Type := Grid Z.

Definition size_of {A} (g : Grid A) : Z * Z := (g_width g, g_height g).

Section Grids.
Context {A : Type}.

(** The [w] by [h] grid whose pixel at column [x], row [y] is [f x y]. *)
Definition build (w h : Z) (f : Z -> Z -> A) : Grid A :=
  mkGrid w h
    (map (fun y => map (fun x => f (Z.of_nat x) (Z.of_nat y))
                       (seq 0 (Z.to_nat w)))
         (seq 0 (Z.to_nat h))).

(** [im.getpixel((x, y))], with [d] outside of the grid. *)
Definition getpixel (d : A) (g : Grid A) (x y : Z) : A :=
  if (x <? 0) || (y <? 0) then d
  else nth (Z.to_nat x) (nth (Z.to_nat y) (g_rows g) []) d.

(** The rows agree with the declared size. *)
Definition wf_grid (g : Grid A) : Prop :=
  0 <= g_width g /\ 0 <= g_height g /\
  length (g_rows g) = Z.to_nat (g_height g) /\
  Forall (fun r => length r = Z.to_nat (g_width g)) (g_rows g).

End Grids.

(** [Image.new("L", (w, h), c)] *)
Definition Image_new (sz : Z * Z) (c : Z) : Image :=
  build (fst sz) (snd sz) (fun _ _ => c).

(** [im.point(f)] *)
Definition Image_point (f : Z -> Z) (im : Image) : Image :=
  build (g_width im) (g_height im) (fun x y => f (getpixel 0 im x y)).

(** Pillow clips the result of a channel operation to a byte. *)
Definition clip8 (v : Z) : Z := if v <? 0 then 0 else if 255 <? v then 255 else v.

(** [ImageChops.add(a, b)] with the default [scale=1.0, offset=0]. *)
Definition ImageChops_add (a b : Image) : Image :=
  build (Z.min (g_width a) (g_width b)) (Z.min (g_height a) (g_height b))
        (fun x y => clip8 (getpixel 0 a x y + getpixel 0 b x y)).

(** [ImageChops.subtract(a, b)] with the default [scale=1.0, offset=0]. *)
Definition ImageChops_subtract (a b : Image) : Image :=
  build (Z.min (g_width a) (g_width b)) (Z.min (g_height a) (g_height b))
        (fun x y => clip8 (getpixel 0 a x y - getpixel 0 b x y)).

Definition Box : Type := (Z * Z * Z * Z)%type.

Definition box_width (b : Box) : Z := let '(x0, _, x1, _) := b in x1 - x0.
Definition box_height (b : Box) : Z := let '(_, y0, _, y1) := b in y1 - y0.

(** [dst.paste(src, box)] with a 4-tuple box.  Pillow refuses a source whose
    size is not the size of the box ([None] stands for the [ValueError]
    "images do not match"); otherwise the part of the box that lies inside
    [dst] is overwritten. *)
Definition Image_paste (dst src : Image) (b : Box) : option Image :=
  let '(x0, y0, _, _) := b in
  if (box_width b =? g_width src) && (box_height b =? g_height src) then
    Some (build (g_width dst) (g_height dst)
            (fun x y =>
               if (x0 <=? x) && (x <? x0 + g_width src) &&
                  (y0 <=? y) && (y <? y0 + g_height src)
               then getpixel 0 src (x - x0) (y - y0)
               else getpixel 0 dst x y))
  else None.

(** [im.crop(box)]: a [ValueError] ([None]) when the box is inverted, else an
    image of the size of the box, zero outside of [im]. *)
Definition Image_crop (im : Image) (b : Box) : option Image :=
  let '(x0, y0, x1, y1) := b in
  if (x1 <? x0) || (y1 <? y0) then None
  else Some (build (x1 - x0) (y1 - y0)
               (fun x y =>
                  let sx := x + x0 in
                  let sy := y + y0 in
                  if (0 <=? sx) && (sx <? g_width im) &&
                     (0 <=? sy) && (sy <? g_height im)
                  then getpixel 0 im sx sy else 0)).

(** ** Facts about grids *)

Lemma size_of_build {A} (w h : Z) (f : Z -> Z -> A) :
  size_of (build w h f) = (w, h).
Proof. reflexivity. Qed.

Lemma getpixel_build {A} (d : A) (w h : Z) (f : Z -> Z -> A) (x y : Z) :
  0 <= x < w -> 0 <= y < h -> getpixel d (build w h f) x y = f x y.
Proof.
  intros Hx Hy. unfold getpixel, build; cbn [g_rows].
  replace ((x <? 0) || (y <? 0)) with false
    by (symmetry; apply orb_false_iff; split; apply Z.ltb_ge; lia).
  rewrite nth_indep with (d' := map (fun x0 => f (Z.of_nat x0) (Z.of_nat 0))
                                    (seq 0 (Z.to_nat w)))
    by (rewrite length_map, length_seq; lia).
  rewrite (map_nth (fun y0 => map (fun x0 => f (Z.of_nat x0) (Z.of_nat y0))
                                  (seq 0 (Z.to_nat w)))).
  rewrite seq_nth by lia.
  rewrite nth_indep with (d' := f (Z.of_nat 0) (Z.of_nat (0 + Z.to_nat y)))
    by (rewrite length_map, length_seq; lia).
  rewrite (map_nth (fun x0 => f (Z.of_nat x0) (Z.of_nat (0 + Z.to_nat y)))).
  rewrite seq_nth by lia.
  cbn [Nat.add]. now rewrite !Z2Nat.id by lia.
Qed.

Lemma build_ext {A} (w h : Z) (f g : Z -> Z -> A) :
  (forall x y, 0 <= x < w -> 0 <= y < h -> f x y = g x y) ->
  build w h f = build w h g.
Proof.
  intros E. unfold build. f_equal.
  apply map_ext_in. intros y Hy. apply in_seq in Hy.
  apply map_ext_in. intros x Hx. apply in_seq in Hx.
  apply E; lia.
Qed.

Lemma wf_build {A} (w h : Z) (f : Z -> Z -> A) :
  0 <= w -> 0 <= h -> wf_grid (build w h f).
Proof.
  intros Hw Hh. unfold wf_grid, build; cbn.
  repeat split; try assumption.
  - now rewrite length_map, length_seq.
  - apply Forall_forall. intros r Hr. apply in_map_iff in Hr.
    destruct Hr as [y [<- _]]. now rewrite length_map, length_seq.
Qed.

(** A well-formed grid is the grid built from its own pixels. *)
Lemma build_getpixel {A} (d : A) (g : Grid A) :
  wf_grid g -> build (g_width g) (g_height g) (getpixel d g) = g.
Proof.
  destruct g as [w h rows]. unfold wf_grid; cbn.
  intros (Hw & Hh & Hlen & Hrows). unfold build. f_equal.
  apply nth_ext with (d := []) (d' := []).
  - now rewrite length_map, length_seq.
  - intros n Hn. rewrite length_map, length_seq in Hn.
    rewrite nth_indep with (d' := map (fun x => getpixel d (mkGrid w h rows)
                                            (Z.of_nat x) (Z.of_nat 0))
                                      (seq 0 (Z.to_nat w)))
      by (rewrite length_map, length_seq; lia).
    rewrite (map_nth (fun y => map (fun x => getpixel d (mkGrid w h rows)
                                         (Z.of_nat x) (Z.of_nat y))
                                   (seq 0 (Z.to_nat w)))).
    rewrite seq_nth by lia. cbn [Nat.add].
    assert (Hr : length (nth n rows []) = Z.to_nat w).
    { rewrite Forall_forall in Hrows. apply Hrows. apply nth_In. lia. }
    apply nth_ext with (d := d) (d' := d).
    + now rewrite length_map, length_seq.
    + intros k Hk. rewrite length_map, length_seq in Hk.
      rewrite nth_indep with (d' := getpixel d (mkGrid w h rows)
                                      (Z.of_nat 0) (Z.of_nat n))
        by (rewrite length_map, length_seq; lia).
      rewrite (map_nth (fun x => getpixel d (mkGrid w h rows)
                                   (Z.of_nat x) (Z.of_nat n))).
      rewrite seq_nth by lia. cbn [Nat.add].
      unfold getpixel; cbn [g_rows].
      replace ((Z.of_nat k <? 0) || (Z.of_nat n <? 0)) with false
        by (symmetry; apply orb_false_iff; split; apply Z.ltb_ge; lia).
      now rewrite !Nat2Z.id.
Qed.

(** ** Derived buffers, kept symbolically

    The pixels of these buffers come out of Pillow and OpenCV filters.  Each
    one is recorded as the expression that produced it, so that which mask a
    cached layer was computed from stays visible. *)

(** [cached_blurred_shadow]: the alpha [ba_alpha], downsampled by one half,
    Gaussian-blurred at [ba_radius * 0.5] and upsampled again. *)
Record BlurredAlpha : Type := mkBlurredAlpha {
  ba_alpha : Image;
  ba_radius : Z
}.

(** [cached_blur_image]: the photograph inpainted under [sb_mask] and blurred
    at [sb_radius]. *)
Record SmartBlur (F : Type) : Type := mkSmartBlur {
  sb_mask : Image;
  sb_radius : F
}.

(** The shadow layer: blurred alpha scaled by the opacity, pasted at an
    offset. *)
Record Shadow (F : Type) : Type := mkShadow {
  sh_alpha : BlurredAlpha;
  sh_opacity : F;
  sh_offset : Z * Z
}.

(** RGBA pictures. *)
Inductive Rgba (F : Type) : Type :=
| Blank (sz : Z * Z)
    (* Image.new("RGBA", size) *)
| CutOut (mask : Image) (soften : option Z)
    (* Image.composite(original_image, empty, mask or its Gaussian blur) *)
| MaskView (mask : Image)
    (* working_mask.convert("RGBA") *)
| OverShadow (sh : Shadow F) (top : Rgba F)
    (* Image.alpha_composite(shadow_with_offset, top) *)
| OverBlur (bg : SmartBlur F) (top : Rgba F)
    (* Image.alpha_composite(cached_blur_image.convert("RGBA"), top) *)
| OverColor (c : string) (top : Rgba F)
    (* Image.alpha_composite(Image.new("RGBA", size, c), top) *)
| ToRGB (img : Rgba F).
    (* img.convert("RGB") *)

Arguments Blank {F} _.
Arguments CutOut {F} _ _.
Arguments MaskView {F} _.

(** A paint stroke [(x1, y1, x2, y2, size)]. *)
Definition Line (F : Type) : Type := (F * F * F * F * Z)%type.

(** A Tk mouse event. *)
Record Event : Type := mkEvent {
  ev_x : Z;
  ev_y : Z;
  ev_num : Z;
  ev_delta : Z
}.

(** What Pillow draws: which pixels [ImageDraw.line] and [ImageDraw.ellipse]
    cover, and the pixels [Image.resize] computes. *)
Class Pillow (F : Type) : Type := {
  draw_line : F * F * F * F -> Z -> Z -> Z -> bool;
  draw_ellipse : F * F * F * F -> Z -> Z -> bool;
  resize_pixel : Image -> Z * Z -> Z -> Z -> Z
}.

(** [im.resize(size)] *)
Definition Image_resize {F} `{Pillow F} (im : Image) (sz : Z * Z) : Image :=
  build (fst sz) (snd sz) (resize_pixel im sz).

(** ** The application state ([self]) *)

Record App (F : Type) : Type := mkApp {
  original_image : Z * Z;  (* size of the source photograph *)
  working_mask : Image;
  working_image : Rgba F;
  undo_history_mask : list Image;
  redo_history_mask : list Image;
  cached_blurred_shadow : option BlurredAlpha;  (* absent attribute and None read alike *)
  _last_shadow_radius : option Z;
  cached_blur_image : option (SmartBlur F);
  current_blur_radius : F;
  canvas_w : Z;
  canvas_h : Z;
  zoom_factor : F;
  lowest_zoom_factor : F;
  view_x : F;
  view_y : F;
  pan_step : F;
  min_zoom : bool;
  orig_image_crop : Z * Z;  (* size of the visible crop of the photograph *)
  panning : bool;
  move_enabled : bool;
  pan_start_x : Z;
  pan_start_y : Z;
  model_output_mask : option Image;  (* the preview mask *)
  raw_model_mask : option Image;
  raw_sam_logits : option (Grid F);
  sam_active : bool;
  paint_mode : bool;
  lines : list (Line F);
  unified_var : F;  (* the threshold slider *)
  bg_mode : string;
  bg_custom_color : string;
  export_format : string;
  enable_shadow_var : bool;
  shadow_opacity_slider : F;
  shadow_radius_slider : F;
  shadow_x_slider : F;
  shadow_y_slider : F;
  soften_mask_var : bool;
  blur_radius_var : Z;
  show_mask_var : bool;
  status_label : string;
  output_displayed : Rgba F;
  saved_files : list (string * Rgba F)  (* files written so far *)
}.

(** Field updates: [with_field v s] is [s] after [self.field = v]. *)

Definition with_working_mask {F} (v : Image) (s : App F) : App F :=
  mkApp (original_image s) v (working_image s) (undo_history_mask s)
  (redo_history_mask s) (cached_blurred_shadow s) (_last_shadow_radius s)
  (cached_blur_image s) (current_blur_radius s) (canvas_w s) (canvas_h s)
  (zoom_factor s) (lowest_zoom_factor s) (view_x s) (view_y s) (pan_step s)
  (min_zoom s) (orig_image_crop s) (panning s) (move_enabled s)
  (pan_start_x s) (pan_start_y s) (model_output_mask s) (raw_model_mask s)
  (raw_sam_logits s) (sam_active s) (paint_mode s) (lines s) (unified_var s)
  (bg_mode s) (bg_custom_color s) (export_format s) (enable_shadow_var s)
  (shadow_opacity_slider s) (shadow_radius_slider s) (shadow_x_slider s)
  (shadow_y_slider s) (soften_mask_var s) (blur_radius_var s)
  (show_mask_var s) (status_label s) (output_displayed s) (saved_files s).

Definition with_working_image {F} (v : Rgba F) (s : App F) : App F :=
  mkApp (original_image s) (working_mask s) v (undo_history_mask s)
  (redo_history_mask s) (cached_blurred_shadow s) (_last_shadow_radius s)
  (cached_blur_image s) (current_blur_radius s) (canvas_w s) (canvas_h s)
  (zoom_factor s) (lowest_zoom_factor s) (view_x s) (view_y s) (pan_step s)
  (min_zoom s) (orig_image_crop s) (panning s) (move_enabled s)
  (pan_start_x s) (pan_start_y s) (model_output_mask s) (raw_model_mask s)
  (raw_sam_logits s) (sam_active s) (paint_mode s) (lines s) (unified_var s)
  (bg_mode s) (bg_custom_color s) (export_format s) (enable_shadow_var s)
  (shadow_opacity_slider s) (shadow_radius_slider s) (shadow_x_slider s)
  (shadow_y_slider s) (soften_mask_var s) (blur_radius_var s)
  (show_mask_var s) (status_label s) (output_displayed s) (saved_files s).

Definition with_undo_history_mask {F} (v : list Image) (s : App F) : App F :=
  mkApp (original_image s) (working_mask s) (working_image s) v
  (redo_history_mask s) (cached_blurred_shadow s) (_last_shadow_radius s)
  (cached_blur_image s) (current_blur_radius s) (canvas_w s) (canvas_h s)
  (zoom_factor s) (lowest_zoom_factor s) (view_x s) (view_y s) (pan_step s)
  (min_zoom s) (orig_image_crop s) (panning s) (move_enabled s)
  (pan_start_x s) (pan_start_y s) (model_output_mask s) (raw_model_mask s)
  (raw_sam_logits s) (sam_active s) (paint_mode s) (lines s) (unified_var s)
  (bg_mode s) (bg_custom_color s) (export_format s) (enable_shadow_var s)
  (shadow_opacity_slider s) (shadow_radius_slider s) (shadow_x_slider s)
  (shadow_y_slider s) (soften_mask_var s) (blur_radius_var s)
  (show_mask_var s) (status_label s) (output_displayed s) (saved_files s).

Definition with_redo_history_mask {F} (v : list Image) (s : App F) : App F :=
  mkApp (original_image s) (working_mask s) (working_image s)
  (undo_history_mask s) v (cached_blurred_shadow s) (_last_shadow_radius s)
  (cached_blur_image s) (current_blur_radius s) (canvas_w s) (canvas_h s)
  (zoom_factor s) (lowest_zoom_factor s) (view_x s) (view_y s) (pan_step s)
  (min_zoom s) (orig_image_crop s) (panning s) (move_enabled s)
  (pan_start_x s) (pan_start_y s) (model_output_mask s) (raw_model_mask s)
  (raw_sam_logits s) (sam_active s) (paint_mode s) (lines s) (unified_var s)
  (bg_mode s) (bg_custom_color s) (export_format s) (enable_shadow_var s)
  (shadow_opacity_slider s) (shadow_radius_slider s) (shadow_x_slider s)
  (shadow_y_slider s) (soften_mask_var s) (blur_radius_var s)
  (show_mask_var s) (status_label s) (output_displayed s) (saved_files s).

Definition with_cached_blurred_shadow {F} (v : option BlurredAlpha) (s : App F) : App F :=
  mkApp (original_image s) (working_mask s) (working_image s)
  (undo_history_mask s) (redo_history_mask s) v (_last_shadow_radius s)
  (cached_blur_image s) (current_blur_radius s) (canvas_w s) (canvas_h s)
  (zoom_factor s) (lowest_zoom_factor s) (view_x s) (view_y s) (pan_step s)
  (min_zoom s) (orig_image_crop s) (panning s) (move_enabled s)
  (pan_start_x s) (pan_start_y s) (model_output_mask s) (raw_model_mask s)
  (raw_sam_logits s) (sam_active s) (paint_mode s) (lines s) (unified_var s)
  (bg_mode s) (bg_custom_color s) (export_format s) (enable_shadow_var s)
  (shadow_opacity_slider s) (shadow_radius_slider s) (shadow_x_slider s)
  (shadow_y_slider s) (soften_mask_var s) (blur_radius_var s)
  (show_mask_var s) (status_label s) (output_displayed s) (saved_files s).

Definition with_last_shadow_radius {F} (v : option Z) (s : App F) : App F :=
  mkApp (original_image s) (working_mask s) (working_image s)
  (undo_history_mask s) (redo_history_mask s) (cached_blurred_shadow s) v
  (cached_blur_image s) (current_blur_radius s) (canvas_w s) (canvas_h s)
  (zoom_factor s) (lowest_zoom_factor s) (view_x s) (view_y s) (pan_step s)
  (min_zoom s) (orig_image_crop s) (panning s) (move_enabled s)
  (pan_start_x s) (pan_start_y s) (model_output_mask s) (raw_model_mask s)
  (raw_sam_logits s) (sam_active s) (paint_mode s) (lines s) (unified_var s)
  (bg_mode s) (bg_custom_color s) (export_format s) (enable_shadow_var s)
  (shadow_opacity_slider s) (shadow_radius_slider s) (shadow_x_slider s)
  (shadow_y_slider s) (soften_mask_var s) (blur_radius_var s)
  (show_mask_var s) (status_label s) (output_displayed s) (saved_files s).

Definition with_cached_blur_image {F} (v : option (SmartBlur F)) (s : App F) : App F :=
  mkApp (original_image s) (working_mask s) (working_image s)
  (undo_history_mask s) (redo_history_mask s) (cached_blurred_shadow s)
  (_last_shadow_radius s) v (current_blur_radius s) (canvas_w s) (canvas_h s)
  (zoom_factor s) (lowest_zoom_factor s) (view_x s) (view_y s) (pan_step s)
  (min_zoom s) (orig_image_crop s) (panning s) (move_enabled s)
  (pan_start_x s) (pan_start_y s) (model_output_mask s) (raw_model_mask s)
  (raw_sam_logits s) (sam_active s) (paint_mode s) (lines s) (unified_var s)
  (bg_mode s) (bg_custom_color s) (export_format s) (enable_shadow_var s)
  (shadow_opacity_slider s) (shadow_radius_slider s) (shadow_x_slider s)
  (shadow_y_slider s) (soften_mask_var s) (blur_radius_var s)
  (show_mask_var s) (status_label s) (output_displayed s) (saved_files s).

Definition with_canvas_w {F} (v : Z) (s : App F) : App F :=
  mkApp (original_image s) (working_mask s) (working_image s)
  (undo_history_mask s) (redo_history_mask s) (cached_blurred_shadow s)
  (_last_shadow_radius s) (cached_blur_image s) (current_blur_radius s) v
  (canvas_h s) (zoom_factor s) (lowest_zoom_factor s) (view_x s) (view_y s)
  (pan_step s) (min_zoom s) (orig_image_crop s) (panning s) (move_enabled s)
  (pan_start_x s) (pan_start_y s) (model_output_mask s) (raw_model_mask s)
  (raw_sam_logits s) (sam_active s) (paint_mode s) (lines s) (unified_var s)
  (bg_mode s) (bg_custom_color s) (export_format s) (enable_shadow_var s)
  (shadow_opacity_slider s) (shadow_radius_slider s) (shadow_x_slider s)
  (shadow_y_slider s) (soften_mask_var s) (blur_radius_var s)
  (show_mask_var s) (status_label s) (output_displayed s) (saved_files s).

Definition with_canvas_h {F} (v : Z) (s : App F) : App F :=
  mkApp (original_image s) (working_mask s) (working_image s)
  (undo_history_mask s) (redo_history_mask s) (cached_blurred_shadow s)
  (_last_shadow_radius s) (cached_blur_image s) (current_blur_radius s)
  (canvas_w s) v (zoom_factor s) (lowest_zoom_factor s) (view_x s) (view_y s)
  (pan_step s) (min_zoom s) (orig_image_crop s) (panning s) (move_enabled s)
  (pan_start_x s) (pan_start_y s) (model_output_mask s) (raw_model_mask s)
  (raw_sam_logits s) (sam_active s) (paint_mode s) (lines s) (unified_var s)
  (bg_mode s) (bg_custom_color s) (export_format s) (enable_shadow_var s)
  (shadow_opacity_slider s) (shadow_radius_slider s) (shadow_x_slider s)
  (shadow_y_slider s) (soften_mask_var s) (blur_radius_var s)
  (show_mask_var s) (status_label s) (output_displayed s) (saved_files s).

Definition with_zoom_factor {F} (v : F) (s : App F) : App F :=
  mkApp (original_image s) (working_mask s) (working_image s)
  (undo_history_mask s) (redo_history_mask s) (cached_blurred_shadow s)
  (_last_shadow_radius s) (cached_blur_image s) (current_blur_radius s)
  (canvas_w s) (canvas_h s) v (lowest_zoom_factor s) (view_x s) (view_y s)
  (pan_step s) (min_zoom s) (orig_image_crop s) (panning s) (move_enabled s)
  (pan_start_x s) (pan_start_y s) (model_output_mask s) (raw_model_mask s)
  (raw_sam_logits s) (sam_active s) (paint_mode s) (lines s) (unified_var s)
  (bg_mode s) (bg_custom_color s) (export_format s) (enable_shadow_var s)
  (shadow_opacity_slider s) (shadow_radius_slider s) (shadow_x_slider s)
  (shadow_y_slider s) (soften_mask_var s) (blur_radius_var s)
  (show_mask_var s) (status_label s) (output_displayed s) (saved_files s).

Definition with_lowest_zoom_factor {F} (v : F) (s : App F) : App F :=
  mkApp (original_image s) (working_mask s) (working_image s)
  (undo_history_mask s) (redo_history_mask s) (cached_blurred_shadow s)
  (_last_shadow_radius s) (cached_blur_image s) (current_blur_radius s)
  (canvas_w s) (canvas_h s) (zoom_factor s) v (view_x s) (view_y s)
  (pan_step s) (min_zoom s) (orig_image_crop s) (panning s) (move_enabled s)
  (pan_start_x s) (pan_start_y s) (model_output_mask s) (raw_model_mask s)
  (raw_sam_logits s) (sam_active s) (paint_mode s) (lines s) (unified_var s)
  (bg_mode s) (bg_custom_color s) (export_format s) (enable_shadow_var s)
  (shadow_opacity_slider s) (shadow_radius_slider s) (shadow_x_slider s)
  (shadow_y_slider s) (soften_mask_var s) (blur_radius_var s)
  (show_mask_var s) (status_label s) (output_displayed s) (saved_files s).

Definition with_view_x {F} (v : F) (s : App F) : App F :=
  mkApp (original_image s) (working_mask s) (working_image s)
  (undo_history_mask s) (redo_history_mask s) (cached_blurred_shadow s)
  (_last_shadow_radius s) (cached_blur_image s) (current_blur_radius s)
  (canvas_w s) (canvas_h s) (zoom_factor s) (lowest_zoom_factor s) v
  (view_y s) (pan_step s) (min_zoom s) (orig_image_crop s) (panning s)
  (move_enabled s) (pan_start_x s) (pan_start_y s) (model_output_mask s)
  (raw_model_mask s) (raw_sam_logits s) (sam_active s) (paint_mode s)
  (lines s) (unified_var s) (bg_mode s) (bg_custom_color s) (export_format s)
  (enable_shadow_var s) (shadow_opacity_slider s) (shadow_radius_slider s)
  (shadow_x_slider s) (shadow_y_slider s) (soften_mask_var s)
  (blur_radius_var s) (show_mask_var s) (status_label s) (output_displayed s)
  (saved_files s).

Definition with_view_y {F} (v : F) (s : App F) : App F :=
  mkApp (original_image s) (working_mask s) (working_image s)
  (undo_history_mask s) (redo_history_mask s) (cached_blurred_shadow s)
  (_last_shadow_radius s) (cached_blur_image s) (current_blur_radius s)
  (canvas_w s) (canvas_h s) (zoom_factor s) (lowest_zoom_factor s) (view_x s)
  v (pan_step s) (min_zoom s) (orig_image_crop s) (panning s) (move_enabled s)
  (pan_start_x s) (pan_start_y s) (model_output_mask s) (raw_model_mask s)
  (raw_sam_logits s) (sam_active s) (paint_mode s) (lines s) (unified_var s)
  (bg_mode s) (bg_custom_color s) (export_format s) (enable_shadow_var s)
  (shadow_opacity_slider s) (shadow_radius_slider s) (shadow_x_slider s)
  (shadow_y_slider s) (soften_mask_var s) (blur_radius_var s)
  (show_mask_var s) (status_label s) (output_displayed s) (saved_files s).

Definition with_pan_step {F} (v : F) (s : App F) : App F :=
  mkApp (original_image s) (working_mask s) (working_image s)
  (undo_history_mask s) (redo_history_mask s) (cached_blurred_shadow s)
  (_last_shadow_radius s) (cached_blur_image s) (current_blur_radius s)
  (canvas_w s) (canvas_h s) (zoom_factor s) (lowest_zoom_factor s) (view_x s)
  (view_y s) v (min_zoom s) (orig_image_crop s) (panning s) (move_enabled s)
  (pan_start_x s) (pan_start_y s) (model_output_mask s) (raw_model_mask s)
  (raw_sam_logits s) (sam_active s) (paint_mode s) (lines s) (unified_var s)
  (bg_mode s) (bg_custom_color s) (export_format s) (enable_shadow_var s)
  (shadow_opacity_slider s) (shadow_radius_slider s) (shadow_x_slider s)
  (shadow_y_slider s) (soften_mask_var s) (blur_radius_var s)
  (show_mask_var s) (status_label s) (output_displayed s) (saved_files s).

Definition with_min_zoom {F} (v : bool) (s : App F) : App F :=
  mkApp (original_image s) (working_mask s) (working_image s)
  (undo_history_mask s) (redo_history_mask s) (cached_blurred_shadow s)
  (_last_shadow_radius s) (cached_blur_image s) (current_blur_radius s)
  (canvas_w s) (canvas_h s) (zoom_factor s) (lowest_zoom_factor s) (view_x s)
  (view_y s) (pan_step s) v (orig_image_crop s) (panning s) (move_enabled s)
  (pan_start_x s) (pan_start_y s) (model_output_mask s) (raw_model_mask s)
  (raw_sam_logits s) (sam_active s) (paint_mode s) (lines s) (unified_var s)
  (bg_mode s) (bg_custom_color s) (export_format s) (enable_shadow_var s)
  (shadow_opacity_slider s) (shadow_radius_slider s) (shadow_x_slider s)
  (shadow_y_slider s) (soften_mask_var s) (blur_radius_var s)
  (show_mask_var s) (status_label s) (output_displayed s) (saved_files s).

Definition with_orig_image_crop {F} (v : Z * Z) (s : App F) : App F :=
  mkApp (original_image s) (working_mask s) (working_image s)
  (undo_history_mask s) (redo_history_mask s) (cached_blurred_shadow s)
  (_last_shadow_radius s) (cached_blur_image s) (current_blur_radius s)
  (canvas_w s) (canvas_h s) (zoom_factor s) (lowest_zoom_factor s) (view_x s)
  (view_y s) (pan_step s) (min_zoom s) v (panning s) (move_enabled s)
  (pan_start_x s) (pan_start_y s) (model_output_mask s) (raw_model_mask s)
  (raw_sam_logits s) (sam_active s) (paint_mode s) (lines s) (unified_var s)
  (bg_mode s) (bg_custom_color s) (export_format s) (enable_shadow_var s)
  (shadow_opacity_slider s) (shadow_radius_slider s) (shadow_x_slider s)
  (shadow_y_slider s) (soften_mask_var s) (blur_radius_var s)
  (show_mask_var s) (status_label s) (output_displayed s) (saved_files s).

Definition with_panning {F} (v : bool) (s : App F) : App F :=
  mkApp (original_image s) (working_mask s) (working_image s)
  (undo_history_mask s) (redo_history_mask s) (cached_blurred_shadow s)
  (_last_shadow_radius s) (cached_blur_image s) (current_blur_radius s)
  (canvas_w s) (canvas_h s) (zoom_factor s) (lowest_zoom_factor s) (view_x s)
  (view_y s) (pan_step s) (min_zoom s) (orig_image_crop s) v (move_enabled s)
  (pan_start_x s) (pan_start_y s) (model_output_mask s) (raw_model_mask s)
  (raw_sam_logits s) (sam_active s) (paint_mode s) (lines s) (unified_var s)
  (bg_mode s) (bg_custom_color s) (export_format s) (enable_shadow_var s)
  (shadow_opacity_slider s) (shadow_radius_slider s) (shadow_x_slider s)
  (shadow_y_slider s) (soften_mask_var s) (blur_radius_var s)
  (show_mask_var s) (status_label s) (output_displayed s) (saved_files s).

Definition with_pan_start_x {F} (v : Z) (s : App F) : App F :=
  mkApp (original_image s) (working_mask s) (working_image s)
  (undo_history_mask s) (redo_history_mask s) (cached_blurred_shadow s)
  (_last_shadow_radius s) (cached_blur_image s) (current_blur_radius s)
  (canvas_w s) (canvas_h s) (zoom_factor s) (lowest_zoom_factor s) (view_x s)
  (view_y s) (pan_step s) (min_zoom s) (orig_image_crop s) (panning s)
  (move_enabled s) v (pan_start_y s) (model_output_mask s) (raw_model_mask s)
  (raw_sam_logits s) (sam_active s) (paint_mode s) (lines s) (unified_var s)
  (bg_mode s) (bg_custom_color s) (export_format s) (enable_shadow_var s)
  (shadow_opacity_slider s) (shadow_radius_slider s) (shadow_x_slider s)
  (shadow_y_slider s) (soften_mask_var s) (blur_radius_var s)
  (show_mask_var s) (status_label s) (output_displayed s) (saved_files s).

Definition with_pan_start_y {F} (v : Z) (s : App F) : App F :=
  mkApp (original_image s) (working_mask s) (working_image s)
  (undo_history_mask s) (redo_history_mask s) (cached_blurred_shadow s)
  (_last_shadow_radius s) (cached_blur_image s) (current_blur_radius s)
  (canvas_w s) (canvas_h s) (zoom_factor s) (lowest_zoom_factor s) (view_x s)
  (view_y s) (pan_step s) (min_zoom s) (orig_image_crop s) (panning s)
  (move_enabled s) (pan_start_x s) v (model_output_mask s) (raw_model_mask s)
  (raw_sam_logits s) (sam_active s) (paint_mode s) (lines s) (unified_var s)
  (bg_mode s) (bg_custom_color s) (export_format s) (enable_shadow_var s)
  (shadow_opacity_slider s) (shadow_radius_slider s) (shadow_x_slider s)
  (shadow_y_slider s) (soften_mask_var s) (blur_radius_var s)
  (show_mask_var s) (status_label s) (output_displayed s) (saved_files s).

Definition with_model_output_mask {F} (v : option Image) (s : App F) : App F :=
  mkApp (original_image s) (working_mask s) (working_image s)
  (undo_history_mask s) (redo_history_mask s) (cached_blurred_shadow s)
  (_last_shadow_radius s) (cached_blur_image s) (current_blur_radius s)
  (canvas_w s) (canvas_h s) (zoom_factor s) (lowest_zoom_factor s) (view_x s)
  (view_y s) (pan_step s) (min_zoom s) (orig_image_crop s) (panning s)
  (move_enabled s) (pan_start_x s) (pan_start_y s) v (raw_model_mask s)
  (raw_sam_logits s) (sam_active s) (paint_mode s) (lines s) (unified_var s)
  (bg_mode s) (bg_custom_color s) (export_format s) (enable_shadow_var s)
  (shadow_opacity_slider s) (shadow_radius_slider s) (shadow_x_slider s)
  (shadow_y_slider s) (soften_mask_var s) (blur_radius_var s)
  (show_mask_var s) (status_label s) (output_displayed s) (saved_files s).

Definition with_raw_model_mask {F} (v : option Image) (s : App F) : App F :=
  mkApp (original_image s) (working_mask s) (working_image s)
  (undo_history_mask s) (redo_history_mask s) (cached_blurred_shadow s)
  (_last_shadow_radius s) (cached_blur_image s) (current_blur_radius s)
  (canvas_w s) (canvas_h s) (zoom_factor s) (lowest_zoom_factor s) (view_x s)
  (view_y s) (pan_step s) (min_zoom s) (orig_image_crop s) (panning s)
  (move_enabled s) (pan_start_x s) (pan_start_y s) (model_output_mask s) v
  (raw_sam_logits s) (sam_active s) (paint_mode s) (lines s) (unified_var s)
  (bg_mode s) (bg_custom_color s) (export_format s) (enable_shadow_var s)
  (shadow_opacity_slider s) (shadow_radius_slider s) (shadow_x_slider s)
  (shadow_y_slider s) (soften_mask_var s) (blur_radius_var s)
  (show_mask_var s) (status_label s) (output_displayed s) (saved_files s).

Definition with_raw_sam_logits {F} (v : option (Grid F)) (s : App F) : App F :=
  mkApp (original_image s) (working_mask s) (working_image s)
  (undo_history_mask s) (redo_history_mask s) (cached_blurred_shadow s)
  (_last_shadow_radius s) (cached_blur_image s) (current_blur_radius s)
  (canvas_w s) (canvas_h s) (zoom_factor s) (lowest_zoom_factor s) (view_x s)
  (view_y s) (pan_step s) (min_zoom s) (orig_image_crop s) (panning s)
  (move_enabled s) (pan_start_x s) (pan_start_y s) (model_output_mask s)
  (raw_model_mask s) v (sam_active s) (paint_mode s) (lines s) (unified_var s)
  (bg_mode s) (bg_custom_color s) (export_format s) (enable_shadow_var s)
  (shadow_opacity_slider s) (shadow_radius_slider s) (shadow_x_slider s)
  (shadow_y_slider s) (soften_mask_var s) (blur_radius_var s)
  (show_mask_var s) (status_label s) (output_displayed s) (saved_files s).

Definition with_sam_active {F} (v : bool) (s : App F) : App F :=
  mkApp (original_image s) (working_mask s) (working_image s)
  (undo_history_mask s) (redo_history_mask s) (cached_blurred_shadow s)
  (_last_shadow_radius s) (cached_blur_image s) (current_blur_radius s)
  (canvas_w s) (canvas_h s) (zoom_factor s) (lowest_zoom_factor s) (view_x s)
  (view_y s) (pan_step s) (min_zoom s) (orig_image_crop s) (panning s)
  (move_enabled s) (pan_start_x s) (pan_start_y s) (model_output_mask s)
  (raw_model_mask s) (raw_sam_logits s) v (paint_mode s) (lines s)
  (unified_var s) (bg_mode s) (bg_custom_color s) (export_format s)
  (enable_shadow_var s) (shadow_opacity_slider s) (shadow_radius_slider s)
  (shadow_x_slider s) (shadow_y_slider s) (soften_mask_var s)
  (blur_radius_var s) (show_mask_var s) (status_label s) (output_displayed s)
  (saved_files s).

Definition with_lines {F} (v : list (Line F)) (s : App F) : App F :=
  mkApp (original_image s) (working_mask s) (working_image s)
  (undo_history_mask s) (redo_history_mask s) (cached_blurred_shadow s)
  (_last_shadow_radius s) (cached_blur_image s) (current_blur_radius s)
  (canvas_w s) (canvas_h s) (zoom_factor s) (lowest_zoom_factor s) (view_x s)
  (view_y s) (pan_step s) (min_zoom s) (orig_image_crop s) (panning s)
  (move_enabled s) (pan_start_x s) (pan_start_y s) (model_output_mask s)
  (raw_model_mask s) (raw_sam_logits s) (sam_active s) (paint_mode s) v
  (unified_var s) (bg_mode s) (bg_custom_color s) (export_format s)
  (enable_shadow_var s) (shadow_opacity_slider s) (shadow_radius_slider s)
  (shadow_x_slider s) (shadow_y_slider s) (soften_mask_var s)
  (blur_radius_var s) (show_mask_var s) (status_label s) (output_displayed s)
  (saved_files s).

Definition with_unified_var {F} (v : F) (s : App F) : App F :=
  mkApp (original_image s) (working_mask s) (working_image s)
  (undo_history_mask s) (redo_history_mask s) (cached_blurred_shadow s)
  (_last_shadow_radius s) (cached_blur_image s) (current_blur_radius s)
  (canvas_w s) (canvas_h s) (zoom_factor s) (lowest_zoom_factor s) (view_x s)
  (view_y s) (pan_step s) (min_zoom s) (orig_image_crop s) (panning s)
  (move_enabled s) (pan_start_x s) (pan_start_y s) (model_output_mask s)
  (raw_model_mask s) (raw_sam_logits s) (sam_active s) (paint_mode s)
  (lines s) v (bg_mode s) (bg_custom_color s) (export_format s)
  (enable_shadow_var s) (shadow_opacity_slider s) (shadow_radius_slider s)
  (shadow_x_slider s) (shadow_y_slider s) (soften_mask_var s)
  (blur_radius_var s) (show_mask_var s) (status_label s) (output_displayed s)
  (saved_files s).

Definition with_bg_mode {F} (v : string) (s : App F) : App F :=
  mkApp (original_image s) (working_mask s) (working_image s)
  (undo_history_mask s) (redo_history_mask s) (cached_blurred_shadow s)
  (_last_shadow_radius s) (cached_blur_image s) (current_blur_radius s)
  (canvas_w s) (canvas_h s) (zoom_factor s) (lowest_zoom_factor s) (view_x s)
  (view_y s) (pan_step s) (min_zoom s) (orig_image_crop s) (panning s)
  (move_enabled s) (pan_start_x s) (pan_start_y s) (model_output_mask s)
  (raw_model_mask s) (raw_sam_logits s) (sam_active s) (paint_mode s)
  (lines s) (unified_var s) v (bg_custom_color s) (export_format s)
  (enable_shadow_var s) (shadow_opacity_slider s) (shadow_radius_slider s)
  (shadow_x_slider s) (shadow_y_slider s) (soften_mask_var s)
  (blur_radius_var s) (show_mask_var s) (status_label s) (output_displayed s)
  (saved_files s).

Definition with_export_format {F} (v : string) (s : App F) : App F :=
  mkApp (original_image s) (working_mask s) (working_image s)
  (undo_history_mask s) (redo_history_mask s) (cached_blurred_shadow s)
  (_last_shadow_radius s) (cached_blur_image s) (current_blur_radius s)
  (canvas_w s) (canvas_h s) (zoom_factor s) (lowest_zoom_factor s) (view_x s)
  (view_y s) (pan_step s) (min_zoom s) (orig_image_crop s) (panning s)
  (move_enabled s) (pan_start_x s) (pan_start_y s) (model_output_mask s)
  (raw_model_mask s) (raw_sam_logits s) (sam_active s) (paint_mode s)
  (lines s) (unified_var s) (bg_mode s) (bg_custom_color s) v
  (enable_shadow_var s) (shadow_opacity_slider s) (shadow_radius_slider s)
  (shadow_x_slider s) (shadow_y_slider s) (soften_mask_var s)
  (blur_radius_var s) (show_mask_var s) (status_label s) (output_displayed s)
  (saved_files s).

Definition with_enable_shadow_var {F} (v : bool) (s : App F) : App F :=
  mkApp (original_image s) (working_mask s) (working_image s)
  (undo_history_mask s) (redo_history_mask s) (cached_blurred_shadow s)
  (_last_shadow_radius s) (cached_blur_image s) (current_blur_radius s)
  (canvas_w s) (canvas_h s) (zoom_factor s) (lowest_zoom_factor s) (view_x s)
  (view_y s) (pan_step s) (min_zoom s) (orig_image_crop s) (panning s)
  (move_enabled s) (pan_start_x s) (pan_start_y s) (model_output_mask s)
  (raw_model_mask s) (raw_sam_logits s) (sam_active s) (paint_mode s)
  (lines s) (unified_var s) (bg_mode s) (bg_custom_color s) (export_format s)
  v (shadow_opacity_slider s) (shadow_radius_slider s) (shadow_x_slider s)
  (shadow_y_slider s) (soften_mask_var s) (blur_radius_var s)
  (show_mask_var s) (status_label s) (output_displayed s) (saved_files s).

Definition with_soften_mask_var {F} (v : bool) (s : App F) : App F :=
  mkApp (original_image s) (working_mask s) (working_image s)
  (undo_history_mask s) (redo_history_mask s) (cached_blurred_shadow s)
  (_last_shadow_radius s) (cached_blur_image s) (current_blur_radius s)
  (canvas_w s) (canvas_h s) (zoom_factor s) (lowest_zoom_factor s) (view_x s)
  (view_y s) (pan_step s) (min_zoom s) (orig_image_crop s) (panning s)
  (move_enabled s) (pan_start_x s) (pan_start_y s) (model_output_mask s)
  (raw_model_mask s) (raw_sam_logits s) (sam_active s) (paint_mode s)
  (lines s) (unified_var s) (bg_mode s) (bg_custom_color s) (export_format s)
  (enable_shadow_var s) (shadow_opacity_slider s) (shadow_radius_slider s)
  (shadow_x_slider s) (shadow_y_slider s) v (blur_radius_var s)
  (show_mask_var s) (status_label s) (output_displayed s) (saved_files s).

Definition with_status_label {F} (v : string) (s : App F) : App F :=
  mkApp (original_image s) (working_mask s) (working_image s)
  (undo_history_mask s) (redo_history_mask s) (cached_blurred_shadow s)
  (_last_shadow_radius s) (cached_blur_image s) (current_blur_radius s)
  (canvas_w s) (canvas_h s) (zoom_factor s) (lowest_zoom_factor s) (view_x s)
  (view_y s) (pan_step s) (min_zoom s) (orig_image_crop s) (panning s)
  (move_enabled s) (pan_start_x s) (pan_start_y s) (model_output_mask s)
  (raw_model_mask s) (raw_sam_logits s) (sam_active s) (paint_mode s)
  (lines s) (unified_var s) (bg_mode s) (bg_custom_color s) (export_format s)
  (enable_shadow_var s) (shadow_opacity_slider s) (shadow_radius_slider s)
  (shadow_x_slider s) (shadow_y_slider s) (soften_mask_var s)
  (blur_radius_var s) (show_mask_var s) v (output_displayed s)
  (saved_files s).

Definition with_output_displayed {F} (v : Rgba F) (s : App F) : App F :=
  mkApp (original_image s) (working_mask s) (working_image s)
  (undo_history_mask s) (redo_history_mask s) (cached_blurred_shadow s)
  (_last_shadow_radius s) (cached_blur_image s) (current_blur_radius s)
  (canvas_w s) (canvas_h s) (zoom_factor s) (lowest_zoom_factor s) (view_x s)
  (view_y s) (pan_step s) (min_zoom s) (orig_image_crop s) (panning s)
  (move_enabled s) (pan_start_x s) (pan_start_y s) (model_output_mask s)
  (raw_model_mask s) (raw_sam_logits s) (sam_active s) (paint_mode s)
  (lines s) (unified_var s) (bg_mode s) (bg_custom_color s) (export_format s)
  (enable_shadow_var s) (shadow_opacity_slider s) (shadow_radius_slider s)
  (shadow_x_slider s) (shadow_y_slider s) (soften_mask_var s)
  (blur_radius_var s) (show_mask_var s) (status_label s) v (saved_files s).

Definition with_saved_files {F} (v : list (string * Rgba F)) (s : App F) : App F :=
  mkApp (original_image s) (working_mask s) (working_image s)
  (undo_history_mask s) (redo_history_mask s) (cached_blurred_shadow s)
  (_last_shadow_radius s) (cached_blur_image s) (current_blur_radius s)
  (canvas_w s) (canvas_h s) (zoom_factor s) (lowest_zoom_factor s) (view_x s)
  (view_y s) (pan_step s) (min_zoom s) (orig_image_crop s) (panning s)
  (move_enabled s) (pan_start_x s) (pan_start_y s) (model_output_mask s)
  (raw_model_mask s) (raw_sam_logits s) (sam_active s) (paint_mode s)
  (lines s) (unified_var s) (bg_mode s) (bg_custom_color s) (export_format s)
  (enable_shadow_var s) (shadow_opacity_slider s) (shadow_radius_slider s)
  (shadow_x_slider s) (shadow_y_slider s) (soften_mask_var s)
  (blur_radius_var s) (show_mask_var s) (status_label s) (output_displayed s)
  v.

Definition with_original_image {F} (v : Z * Z) (s : App F) : App F :=
  mkApp v (working_mask s) (working_image s) (undo_history_mask s)
  (redo_history_mask s) (cached_blurred_shadow s) (_last_shadow_radius s)
  (cached_blur_image s) (current_blur_radius s) (canvas_w s) (canvas_h s)
  (zoom_factor s) (lowest_zoom_factor s) (view_x s) (view_y s) (pan_step s)
  (min_zoom s) (orig_image_crop s) (panning s) (move_enabled s)
  (pan_start_x s) (pan_start_y s) (model_output_mask s) (raw_model_mask s)
  (raw_sam_logits s) (sam_active s) (paint_mode s) (lines s) (unified_var s)
  (bg_mode s) (bg_custom_color s) (export_format s) (enable_shadow_var s)
  (shadow_opacity_slider s) (shadow_radius_slider s) (shadow_x_slider s)
  (shadow_y_slider s) (soften_mask_var s) (blur_radius_var s)
  (show_mask_var s) (status_label s) (output_displayed s) (saved_files s).


(** ** The program *)

(** [os.path.splitext(p)[1].lower()] for ASCII paths: the text from the last
    dot of the last path component, unless that component starts there. *)
Definition ascii_lower (c : ascii) : ascii :=
  let n := nat_of_ascii c in
  if (65 <=? n)%nat && (n <=? 90)%nat then ascii_of_nat (n + 32) else c.

Fixpoint str_lower (p : string) : string :=
  match p with
  | EmptyString => EmptyString
  | String c r => String (ascii_lower c) (str_lower r)
  end.

(** [scan p ext seen]: [ext] is the extension found so far in the current
    component, [seen] tells whether a character other than a dot precedes. *)
Fixpoint splitext_scan (p : string) (ext : string) (seen : bool) : string :=
  match p with
  | EmptyString => ext
  | String c r =>
      if Ascii.eqb c "/" then splitext_scan r EmptyString false
      else if Ascii.eqb c "." then
        (if seen then splitext_scan r p true else splitext_scan r ext false)
      else splitext_scan r ext true
  end.

Definition splitext_ext (p : string) : string := splitext_scan p EmptyString false.

Definition opt_Z_eqb (a b : option Z) : bool :=
  match a, b with
  | Some x, Some y => x =? y
  | None, None => true
  | _, _ => false
  end.

(** A stand-in rasteriser, to run the program on examples: strokes cover
    their bounding box and [resize] takes the nearest pixel.  No theorem
    depends on it. *)
Definition box_covers {F} `{PyFloat F} (b : F * F * F * F) (x y : Z) : bool :=
  let '(x0, y0, x1, y1) := b in
  (py_min x0 x1 <=? of_int x)%py && (of_int x <=? py_max x0 x1)%py &&
  (py_min y0 y1 <=? of_int y)%py && (of_int y <=? py_max y0 y1)%py.

#[export] Instance BoxPillow (F : Type) `{PyFloat F} : Pillow F := {
  draw_line := fun b _ x y => box_covers b x y;
  draw_ellipse := fun b x y => box_covers b x y;
  resize_pixel := fun im sz x y =>
    getpixel 0 im (x * g_width im / fst sz) (y * g_height im / snd sz)
}.

Section Program.
Context {F : Type} {PF : PyFloat F} {PL : Pillow F}.

Definition DEFAULT_ZOOM_FACTOR : F := lit 12 10.
Definition MAX_ZOOM_FACTOR : F := of_int 50.
Definition UNDO_STEPS : Z := 20.

(** *** SleekSlider *)

(** [SleekSlider.pixel_to_val] of a slider [width] pixels wide, with
    [pad_x = 10], [min_val = 0] and [max_val = 100]. *)
Definition pixel_to_val (width x : Z) : F :=
  let pad_x := 10 in
  let track_width := width - pad_x * 2 in
  let x := Z.max pad_x (Z.min x (width - pad_x)) in
  let percent := (of_int (x - pad_x) / of_int track_width)%py in
  (of_int 0 + percent * of_int (100 - 0))%py.

(** The value [SleekSlider.set_value] stores and hands to its command. *)
Definition slider_value (val : F) : F :=
  py_max (of_int 0) (py_min val (of_int 100)).

(** *** Background and previews *)

Definition regenerate_smart_blur (s : App F) : App F :=
  with_cached_blur_image
    (Some (mkSmartBlur (working_mask s) (current_blur_radius s))) s.

Definition apply_background_color (img : Rgba F) (s : App F) : Rgba F * App F :=
  if (bg_mode s =? "blur")%string then
    let s := match cached_blur_image s with
             | None => regenerate_smart_blur s
             | Some _ => s
             end in
    match cached_blur_image s with
    | Some bg => (OverBlur bg img, s)
    | None => (img, s)
    end
  else if (bg_mode s =? "color")%string then
    (OverColor (bg_custom_color s) img, s)
  else (img, s).

(** The size of the crop taken by [_calculate_preview_image]. *)
Definition _calculate_preview_image (image : Z * Z) (s : App F) : Z * Z :=
  let view_width := (of_int (canvas_w s) / zoom_factor s)%py in
  let view_height := (of_int (canvas_h s) / zoom_factor s)%py in
  let left := py_int (view_x s) in
  let top := py_int (view_y s) in
  let right :=
    py_int (view_x s + of_int (Z.min (math_ceil view_width) (fst image)))%py in
  let bottom :=
    py_int (view_y s + of_int (Z.min (math_ceil view_height) (snd image)))%py in
  (right - left, bottom - top).

Definition update_output_image_preview (s : App F) : App F :=
  let displayed_image :=
    if negb (show_mask_var s) then working_image s
    else MaskView (working_mask s) in
  let '(displayed_image, s) := apply_background_color displayed_image s in
  with_output_displayed displayed_image s.

Definition update_input_image_preview (s : App F) : App F :=
  let s := with_orig_image_crop
             (_calculate_preview_image (original_image s) s) s in
  update_output_image_preview s.

Definition set_bg_mode (mode : string) (s : App F) : App F :=
  let s := with_bg_mode mode s in
  let s := if (mode =? "blur")%string then
             match cached_blur_image s with
             | None => regenerate_smart_blur s
             | Some _ => s
             end
           else s in
  update_output_image_preview s.

(** *** Workspace set-up *)

Definition setup_image_display (s : App F) : App F :=
  let lowest :=
    py_min (of_int (canvas_w s) / of_int (fst (original_image s)))%py
           (of_int (canvas_h s) / of_int (snd (original_image s)))%py in
  let s := with_lowest_zoom_factor lowest s in
  let s := with_working_image (Blank (original_image s)) s in
  let s := with_working_mask (Image_new (original_image s) 0) s in
  let s := with_undo_history_mask [working_mask s] s in
  let s := with_redo_history_mask [] s in
  let s := with_zoom_factor (lowest_zoom_factor s) s in
  let s := with_view_x (of_int 0) s in
  let s := with_view_y (of_int 0) s in
  with_min_zoom true s.

Definition clear_coord_overlay (s : App F) : App F :=
  let s := with_lines [] s in
  with_model_output_mask (Some (Image_new (orig_image_crop s) 0)) s.

(** [on_resize] once Tk reports the new canvas size. *)
Definition on_resize (w h : Z) (s : App F) : App F :=
  let s := with_canvas_w w s in
  let s := with_canvas_h h s in
  let lowest :=
    py_min (of_int (canvas_w s) / of_int (fst (original_image s)))%py
           (of_int (canvas_h s) / of_int (snd (original_image s)))%py in
  let s := with_lowest_zoom_factor lowest s in
  let s := with_zoom_factor (lowest_zoom_factor s) s in
  let s := with_view_x (of_int 0) s in
  let s := with_view_y (of_int 0) s in
  let s := with_min_zoom true s in
  update_input_image_preview s.

(** *** Panning and zooming *)

Definition clamp_view_x (x : F) (s : App F) : F :=
  py_max (of_int 0)
    (py_min x (of_int (fst (original_image s))
               - of_int (canvas_w s) / zoom_factor s)%py).

Definition clamp_view_y (y : F) (s : App F) : F :=
  py_max (of_int 0)
    (py_min y (of_int (snd (original_image s))
               - of_int (canvas_h s) / zoom_factor s)%py).

Definition do_pan (dx dy : F) (s : App F) : App F :=
  let s := with_view_x (clamp_view_x (view_x s + dx)%py s) s in
  let s := with_view_y (clamp_view_y (view_y s + dy)%py s) s in
  update_input_image_preview s.

Definition pan_left_keyboard (s : App F) : App F :=
  do_pan (of_int 0 - pan_step s)%py (of_int 0) s.

Definition pan_right_keyboard (s : App F) : App F :=
  do_pan (pan_step s) (of_int 0) s.

Definition pan_up_keyboard (s : App F) : App F :=
  do_pan (of_int 0) (of_int 0 - pan_step s)%py s.

Definition pan_down_keyboard (s : App F) : App F :=
  do_pan (of_int 0) (pan_step s) s.

Definition start_pan_mouse (event : Event) (s : App F) : App F :=
  let s := with_pan_start_x (ev_x event) s in
  let s := with_pan_start_y (ev_y event) s in
  with_panning (move_enabled s) s.

Definition pan_mouse (event : Event) (s : App F) : App F :=
  if panning s then
    if fgt (zoom_factor s) (lowest_zoom_factor s + lit 1 100)%py then
      let dx := ev_x event - pan_start_x s in
      let dy := ev_y event - pan_start_y s in
      let s := with_view_x (view_x s - of_int dx / zoom_factor s)%py s in
      let s := with_view_y (view_y s - of_int dy / zoom_factor s)%py s in
      let s := with_view_x (clamp_view_x (view_x s) s) s in
      let s := with_view_y (clamp_view_y (view_y s) s) s in
      let s := with_pan_start_x (ev_x event) s in
      let s := with_pan_start_y (ev_y event) s in
      let s := clear_coord_overlay s in
      let s := with_model_output_mask None s in
      update_input_image_preview s
    else s
  else s.

(** [zoom]; the re-render that [schedule_preview_update] defers is
    [update_input_image_preview] again and is left to the timer. *)
Definition zoom (event : Event) (s : App F) : App F :=
  let s := with_pan_step (of_int 30 / zoom_factor s)%py s in
  let mouse_x := (view_x s + of_int (ev_x event) / zoom_factor s)%py in
  let mouse_y := (view_y s + of_int (ev_y event) / zoom_factor s)%py in
  let new_zoom_factor := zoom_factor s in
  let '(new_zoom_factor, s) :=
    if (ev_num event =? 4) || (0 <? ev_delta event) then
      let check_zoom := (new_zoom_factor * DEFAULT_ZOOM_FACTOR)%py in
      if (check_zoom <=? MAX_ZOOM_FACTOR)%py
      then (check_zoom, with_min_zoom false s)
      else (new_zoom_factor, s)
    else if (ev_num event =? 5) || (ev_delta event <? 0) then
      (py_max (new_zoom_factor / DEFAULT_ZOOM_FACTOR)%py (lowest_zoom_factor s),
       s)
    else (new_zoom_factor, s) in
  let s := with_zoom_factor new_zoom_factor s in
  let s := with_view_x
             (clamp_view_x (mouse_x - of_int (ev_x event) / zoom_factor s)%py s)
             s in
  let s := with_view_y
             (clamp_view_y (mouse_y - of_int (ev_y event) / zoom_factor s)%py s)
             s in
  let s := if negb (min_zoom s)
           then clear_coord_overlay (update_input_image_preview s)
           else s in
  if (lowest_zoom_factor s ==? zoom_factor s)%py then with_min_zoom true s else s.

(** *** Mask history *)

Definition add_undo_step (s : App F) : App F :=
  let h := undo_history_mask s ++ [working_mask s] in
  let h := if UNDO_STEPS <? Z.of_nat (length h) then tl h else h in
  let s := with_undo_history_mask h s in
  with_redo_history_mask [] s.

Definition cutout_working_image (s : App F) : App F :=
  let soften :=
    if soften_mask_var s && (0 <? blur_radius_var s)
    then Some (blur_radius_var s) else None in
  with_working_image (CutOut (working_mask s) soften) s.

Definition add_drop_shadow (s : App F) : App F :=
  if negb (enable_shadow_var s) then
    update_output_image_preview (cutout_working_image s)
  else
    let s := cutout_working_image s in
    let shadow_opacity := shadow_opacity_slider s in
    let shadow_radius := py_int (shadow_radius_slider s) in
    let shadow_x := py_int (shadow_x_slider s) in
    let shadow_y := py_int (shadow_y_slider s) in
    let alpha := working_mask s in
    let cached := cached_blurred_shadow s in
    let last_radius := _last_shadow_radius s in
    let '(cached, s) :=
      if negb (opt_Z_eqb last_radius (Some shadow_radius))
      then (None, with_last_shadow_radius (Some shadow_radius) s)
      else (cached, s) in
    let '(cached, s) :=
      match cached with
      | None =>
          let c := mkBlurredAlpha alpha shadow_radius in
          (c, with_cached_blurred_shadow (Some c) s)
      | Some c => (c, s)
      end in
    let shadow := mkShadow cached shadow_opacity (shadow_x, shadow_y) in
    let s := with_working_image (OverShadow shadow (working_image s)) s in
    update_output_image_preview s.

Definition clear_working_image (s : App F) : App F :=
  let s := with_working_image (Blank (original_image s)) s in
  let s := with_working_mask (Image_new (original_image s) 0) s in
  let s := add_undo_step s in
  let s := with_cached_blurred_shadow None s in
  let s := with_cached_blur_image None s in
  update_output_image_preview s.

Definition undo (s : App F) : App F :=
  if 1 <? Z.of_nat (length (undo_history_mask s)) then
    let current_state := last (undo_history_mask s) (working_mask s) in
    let s := with_undo_history_mask (removelast (undo_history_mask s)) s in
    let s := with_redo_history_mask (redo_history_mask s ++ [current_state]) s in
    let s := with_working_mask (last (undo_history_mask s) (working_mask s)) s in
    let s := if (bg_mode s =? "blur")%string
             then regenerate_smart_blur s else s in
    let s := add_drop_shadow s in
    with_status_label "Undo performed" s
  else s.

Definition redo (s : App F) : App F :=
  match redo_history_mask s with
  | _ :: _ =>
      let next_state := last (redo_history_mask s) (working_mask s) in
      let s := with_redo_history_mask (removelast (redo_history_mask s)) s in
      let s := with_undo_history_mask (undo_history_mask s ++ [next_state]) s in
      let s := with_working_mask next_state s in
      let s := if (bg_mode s =? "blur")%string
               then regenerate_smart_blur s else s in
      let s := add_drop_shadow s in
      with_status_label "Redo performed" s
  | [] => with_status_label "Nothing to Redo" s
  end.

Definition copy_entire_image (s : App F) : App F :=
  let s := with_working_mask (Image_new (original_image s) 255) s in
  let s := add_undo_step s in
  add_drop_shadow s.

(** *** Preview masks *)

Definition generate_paint_mode_mask (s : App F) : Image :=
  build (fst (orig_image_crop s)) (snd (orig_image_crop s))
    (fun x y =>
       if existsb
            (fun l : Line F =>
               let '(x1, y1, x2, y2, size) := l in
               let scaled_size := (of_int size / zoom_factor s)%py in
               let r := (scaled_size / of_int 2)%py in
               draw_line (x1, y1, x2, y2) (py_int scaled_size) x y
               || draw_ellipse ((x1 - r)%py, (y1 - r)%py, (x1 + r)%py, (y1 + r)%py) x y
               || draw_ellipse ((x2 - r)%py, (y2 - r)%py, (x2 + r)%py, (y2 + r)%py) x y)
            (lines s)
       then 255 else 0).

Definition update_mask_threshold (threshold : Z) (s : App F) : App F :=
  match raw_model_mask s with
  | None => s
  | Some raw =>
      with_model_output_mask
        (Some (Image_point (fun p => if threshold <? p then 255 else 0) raw)) s
  end.

(** The box of the visible crop in the coordinates of the photograph; the
    source computes it twice, as [crop_box] and as [paste_box]. *)
Definition crop_box (s : App F) : Box :=
  (py_int (view_x s), py_int (view_y s),
   py_int (view_x s + of_int (fst (orig_image_crop s)))%py,
   py_int (view_y s + of_int (snd (orig_image_crop s)))%py).

Definition paste_box (s : App F) : Box := crop_box s.

Definition update_sam_threshold (threshold : F) (s : App F) : App F :=
  match raw_sam_logits s with
  | None => s
  | Some masks =>
      let full_mask : Image :=
        build (g_width masks) (g_height masks)
          (fun x y =>
             if fgt (getpixel (of_int 0) masks x y) threshold then 255 else 0) in
      let m := match Image_crop full_mask (crop_box s) with
               | Some m => m
               | None => Image_resize full_mask (orig_image_crop s)
               end in
      with_model_output_mask (Some m) s
  end.

Definition on_unified_slider_change (val : F) (s : App F) : App F :=
  let t := (of_int 1 - val / of_int 100)%py in
  if sam_active s then
    let min_sam := of_int (-3) in
    let max_sam := of_int 2 in
    let sam_val := (min_sam + t * (max_sam - min_sam))%py in
    update_sam_threshold sam_val s
  else
    let min_thresh := 10 in
    let max_thresh := 250 in
    let whole_val :=
      py_int (of_int min_thresh + t * of_int (max_thresh - min_thresh))%py in
    update_mask_threshold whole_val s.

(** The command of the threshold slider. *)
Definition slider_callback (val : F) (s : App F) : App F :=
  let s := with_unified_var val s in
  on_unified_slider_change val s.

(** A click on the threshold slider, [width] pixels wide, at abscissa [x]. *)
Definition slider_click (width x : Z) (s : App F) : App F :=
  slider_callback (slider_value (pixel_to_val width x)) s.

(** [run_whole_image_model] with its worker thread run to completion; [net]
    gives the byte the network answers for each pixel of the crop it is
    handed. *)
Definition run_whole_image_model (net : Z -> Z -> Z) (s : App F) : App F :=
  if paint_mode s then s
  else
    let s := with_sam_active false s in
    let s := clear_coord_overlay s in
    let s := with_raw_sam_logits None s in
    let s := with_unified_var (of_int 50) s in
    let result_mask :=
      build (fst (orig_image_crop s)) (snd (orig_image_crop s)) net in
    let s := with_raw_model_mask (Some result_mask) s in
    let s := on_unified_slider_change (unified_var s) s in
    with_status_label "Inference Complete" s.

(** [activate_sam_mode], up to the start of its worker thread. *)
Definition activate_sam_mode (s : App F) : App F :=
  let s := with_raw_model_mask None s in
  let s := with_model_output_mask None s in
  let s := with_sam_active true s in
  let s := slider_callback (slider_value (of_int 50)) s in
  clear_coord_overlay s.

(** [generate_sam_mask] / [box_event], given the logits [sam_calculate_mask]
    returns (already warped back to the size of the photograph). *)
Definition generate_sam_mask (logits : Grid F) (s : App F) : App F :=
  if negb (sam_active s) then s
  else
    let s := with_raw_sam_logits (Some logits) s in
    let s := with_raw_model_mask None s in
    on_unified_slider_change (unified_var s) s.

(** *** The compositor *)

Definition _apply_mask_modification
    (operation : Image -> Image -> Image) (s : App F) : App F :=
  let mask := if paint_mode s then Some (generate_paint_mode_mask s)
              else model_output_mask s in
  match mask with
  | None =>
      with_status_label
        "Warning: No mask generated to add/subtract. Run a model first." s
  | Some mask =>
      let temp_fullsize_mask := Image_new (size_of (working_mask s)) 0 in
      match Image_paste temp_fullsize_mask mask (paste_box s) with
      | Some temp_fullsize_mask =>
          let s := with_working_mask
                     (operation (working_mask s) temp_fullsize_mask) s in
          let s := add_undo_step s in
          let s := with_cached_blurred_shadow None s in
          let s := if (bg_mode s =? "blur")%string
                   then regenerate_smart_blur s else s in
          let s := add_drop_shadow s in
          with_status_label "Mask applied." s
      | None =>
          with_status_label "Error applying mask: images do not match" s
      end
  end.

Definition add_to_working_image (s : App F) : App F :=
  _apply_mask_modification ImageChops_add s.

Definition subtract_from_working_image (s : App F) : App F :=
  _apply_mask_modification ImageChops_subtract s.

Definition clear_visible_area (s : App F) : App F :=
  let mask_old := model_output_mask s in
  let s := with_model_output_mask (Some (Image_new (orig_image_crop s) 255)) s in
  let s := subtract_from_working_image s in
  with_model_output_mask mask_old s.

(** *** Shadow toggle and new images *)

(** The "Drop Shadow" button: [internal_toggle] flips the variable, then runs
    [toggle_shadow_options]. *)
Definition toggle_shadow_options (s : App F) : App F :=
  let s := with_enable_shadow_var (negb (enable_shadow_var s)) s in
  if show_mask_var s then
    let s := with_enable_shadow_var false s in
    with_status_label "Error: Cannot use effects while viewing Alpha Channel." s
  else add_drop_shadow s.

(** [load_image_path] followed by [initialise_new_image]. *)
Definition initialise_new_image (image : Z * Z) (s : App F) : App F :=
  let s := with_original_image image s in
  let s := with_cached_blur_image None s in
  let s := setup_image_display s in
  let s := update_input_image_preview s in
  let s := clear_coord_overlay s in
  let s := with_working_image (Blank (original_image s)) s in
  let s := with_working_mask (Image_new (original_image s) 0) s in
  let s := with_undo_history_mask [working_mask s] s in
  let s := with_redo_history_mask [] s in
  let s := with_sam_active false s in
  let s := with_raw_model_mask None s in
  with_raw_sam_logits None s.

(** [__init__] for a photograph of size [image]: the defaults of the
    constructor and of [build_gui], a 200 by 200 canvas until Tk reports the
    real one through [on_resize]. *)
Definition BackgroundRemoverGUI (image : Z * Z) : App F :=
  let s :=
    mkApp image (Image_new image 0) (Blank image) [] []
      None None None (of_int 20)
      200 200 (of_int 1) (of_int 1) (of_int 0) (of_int 0) (of_int 30) true
      image false true 0 0
      None None None false false [] (of_int 50)
      "transparent" "#0000FF" "png"
      false (lit 1 2) (of_int 10) (of_int 50) (of_int 50) false 0 false
      "Status: Ready" (Blank image) [] in
  update_input_image_preview (setup_image_display s).

(** *** Export *)

(** [set_export_format]: the PNG / JPG / WEBP buttons. *)
Definition set_export_format (fmt : string) (s : App F) : App F :=
  with_export_format fmt s.

Definition validate_export_config (s : App F) : bool * App F :=
  if (export_format s =? "jpg")%string && (bg_mode s =? "transparent")%string
  then (false,
        with_status_label "Error: JPG format does not support transparency." s)
  else (true, s).

(** [quick_save_automatic]; [filename] is the free name the collision loop
    settles on.  The file is written when control reaches [save]. *)
Definition quick_save_automatic (filename : string) (s : App F) : App F :=
  let '(ok, s) := validate_export_config s in
  if negb ok then s
  else
    let s := add_drop_shadow s in
    let workimg := working_image s in
    let '(workimg, s) :=
      if negb (bg_mode s =? "transparent")%string
      then apply_background_color workimg s else (workimg, s) in
    let file_type := export_format s in
    let workimg := if (file_type =? "jpg")%string then ToRGB workimg
                   else workimg in
    let s := with_saved_files (saved_files s ++ [(filename, workimg)]) s in
    with_status_label ("Auto-saved: " ++ filename)%string s.

(** [save_as_image]; [user_filename] is what the file dialog returns, the
    empty string when it is cancelled. *)
Definition save_as_image (user_filename : string) (s : App F) : App F :=
  let '(ok, s) := validate_export_config s in
  if negb ok then s
  else if (user_filename =? "")%string then s
  else
    let s := add_drop_shadow s in
    let workimg := working_image s in
    let '(workimg, s) :=
      if negb (bg_mode s =? "transparent")%string
      then apply_background_color workimg s else (workimg, s) in
    let ext := str_lower (splitext_ext user_filename) in
    let '(workimg, s) :=
      if (ext =? ".jpg")%string || (ext =? ".jpeg")%string then
        let '(workimg, s) :=
          if (bg_mode s =? "transparent")%string then
            (OverColor "white" workimg,
             with_status_label
               "Warning: Saved as JPG with White Background (No Transparency)"
               s)
          else (workimg, s) in
        (ToRGB workimg, s)
      else (workimg, s) in
    let s := with_saved_files (saved_files s ++ [(user_filename, workimg)]) s in
    with_status_label ("Saved to " ++ user_filename)%string s.

End Program.

(** * Properties *)

Ltac break_ifs :=
  repeat match goal with
         | |- context [if ?b then _ else _] => destruct b
         | |- context [match ?x with None => _ | Some _ => _ end] => destruct x
         end.

(** ** What rendering leaves alone *)

Section Frames.
Context {F : Type} {PF : PyFloat F} {PL : Pillow F}.

(** The preview mask the compositor reads: the rasterised strokes in paint
    mode, the thresholded model output otherwise. *)
Definition current_preview (s : App F) : option Image :=
  if paint_mode s then Some (generate_paint_mode_mask s)
  else model_output_mask s.

(** The fields no rendering step writes. *)
Definition kept (s : App F) :=
  (original_image s, working_mask s, undo_history_mask s, redo_history_mask s,
   (canvas_w s, canvas_h s, zoom_factor s, lowest_zoom_factor s,
    view_x s, view_y s, min_zoom s, orig_image_crop s, pan_step s),
   (model_output_mask s, raw_model_mask s, raw_sam_logits s, sam_active s,
    paint_mode s, lines s, unified_var s),
   (bg_mode s, export_format s, enable_shadow_var s, saved_files s)).

Lemma kept_update_output_image_preview (s : App F) :
  kept (update_output_image_preview s) = kept s.
Proof.
  unfold update_output_image_preview, apply_background_color,
    regenerate_smart_blur.
  break_ifs; reflexivity.
Qed.

Lemma kept_add_drop_shadow (s : App F) : kept (add_drop_shadow s) = kept s.
Proof.
  unfold add_drop_shadow, cutout_working_image, update_output_image_preview,
    apply_background_color, regenerate_smart_blur.
  break_ifs; reflexivity.
Qed.

Lemma kept_preview (s s' : App F) :
  kept s' = kept s ->
  current_preview s' = current_preview s /\ paste_box s' = paste_box s.
Proof.
  unfold kept, current_preview, paste_box, crop_box, generate_paint_mode_mask.
  intros E. injection E; intros.
  repeat match goal with
         | H : _ = _ |- _ => rewrite ?H; clear H
         end.
  split; reflexivity.
Qed.

End Frames.

Ltac use_kept L :=
  let E := fresh "E" in
  pose proof L as E; unfold kept in E; injection E; clear E; intros.

Section History.
Context {F : Type} {PF : PyFloat F} {PL : Pillow F}.

(** [add_undo_step] keeps at most [UNDO_STEPS] masks. *)
Definition trim (h : list Image) : list Image :=
  if UNDO_STEPS <? Z.of_nat (length h) then tl h else h.

Lemma trim_shape (older : list Image) (m new : Image) :
  exists older', trim ((older ++ [m]) ++ [new]) = (older' ++ [m]) ++ [new].
Proof.
  unfold trim. destruct (UNDO_STEPS <? _) eqn:E.
  - destruct older as [|a older].
    + cbn in E. discriminate.
    + exists older. reflexivity.
  - exists older. reflexivity.
Qed.

Lemma add_undo_step_history (s : App F) :
  undo_history_mask (add_undo_step s)
  = trim (undo_history_mask s ++ [working_mask s]) /\
  redo_history_mask (add_undo_step s) = [] /\
  working_mask (add_undo_step s) = working_mask s.
Proof. repeat split. Qed.

Definition no_preview_warning : string :=
  "Warning: No mask generated to add/subtract. Run a model first.".

Lemma apply_without_preview (op : Image -> Image -> Image) (s : App F) :
  current_preview s = None ->
  _apply_mask_modification op s = with_status_label no_preview_warning s.
Proof.
  unfold current_preview, _apply_mask_modification. intros ->. reflexivity.
Qed.

(** A mask operation whose preview exists and fits the paste box. *)
Lemma apply_commit (op : Image -> Image -> Image) (s : App F)
      (mask t : Image) :
  current_preview s = Some mask ->
  Image_paste (Image_new (size_of (working_mask s)) 0) mask (paste_box s)
  = Some t ->
  kept (_apply_mask_modification op s)
  = kept (add_undo_step (with_working_mask (op (working_mask s) t) s)).
Proof.
  unfold current_preview, _apply_mask_modification. intros -> ->.
  match goal with
  | |- kept (with_status_label _ (add_drop_shadow ?x)) = _ =>
      transitivity (kept (add_drop_shadow x)); [reflexivity|];
      rewrite kept_add_drop_shadow
  end.
  break_ifs; reflexivity.
Qed.

Lemma apply_mismatch (op : Image -> Image -> Image) (s : App F)
      (mask : Image) :
  current_preview s = Some mask ->
  Image_paste (Image_new (size_of (working_mask s)) 0) mask (paste_box s)
  = None ->
  _apply_mask_modification op s
  = with_status_label "Error applying mask: images do not match" s.
Proof.
  unfold current_preview, _apply_mask_modification. intros -> ->. reflexivity.
Qed.

Lemma kept_clear_working_image (s : App F) :
  kept (clear_working_image s)
  = kept (add_undo_step (with_working_mask (Image_new (original_image s) 0) s)).
Proof.
  unfold clear_working_image.
  rewrite kept_update_output_image_preview. reflexivity.
Qed.

Lemma kept_copy_entire_image (s : App F) :
  kept (copy_entire_image s)
  = kept (add_undo_step
            (with_working_mask (Image_new (original_image s) 255) s)).
Proof.
  unfold copy_entire_image. rewrite kept_add_drop_shadow. reflexivity.
Qed.

Lemma undo_history (s : App F) (older : list Image) (m top : Image) :
  undo_history_mask s = (older ++ [m]) ++ [top] ->
  working_mask (undo s) = m /\
  undo_history_mask (undo s) = older ++ [m] /\
  redo_history_mask (undo s) = redo_history_mask s ++ [top].
Proof.
  intros E. unfold undo. rewrite E.
  replace (1 <? Z.of_nat (length ((older ++ [m]) ++ [top]))) with true
    by (symmetry; apply Z.ltb_lt; rewrite !length_app; cbn; lia).
  match goal with
  | |- working_mask (with_status_label _ (add_drop_shadow ?x)) = _ /\ _ =>
      set (X := x)
  end.
  assert (K : working_mask X = m /\
              undo_history_mask X = older ++ [m] /\
              redo_history_mask X = redo_history_mask s ++ [top])
    by (subst X; break_ifs; cbn; rewrite ?removelast_last, ?last_last;
        repeat split).
  destruct K as (K1 & K2 & K3).
  use_kept (kept_add_drop_shadow X).
  cbn [working_mask undo_history_mask redo_history_mask with_status_label].
  repeat split; congruence.
Qed.

Lemma redo_history (s : App F) (rest : list Image) (next : Image) :
  redo_history_mask s = rest ++ [next] ->
  working_mask (redo s) = next /\
  undo_history_mask (redo s) = undo_history_mask s ++ [next] /\
  redo_history_mask (redo s) = rest.
Proof.
  intros E. unfold redo.
  destruct (redo_history_mask s) as [|a l] eqn:El.
  { destruct rest; discriminate. }
  rewrite E.
  match goal with
  | |- working_mask (with_status_label _ (add_drop_shadow ?x)) = _ /\ _ =>
      set (X := x)
  end.
  assert (K : working_mask X = next /\
              undo_history_mask X = undo_history_mask s ++ [next] /\
              redo_history_mask X = rest)
    by (subst X; break_ifs; cbn; rewrite ?removelast_last, ?last_last;
        repeat split).
  destruct K as (K1 & K2 & K3).
  use_kept (kept_add_drop_shadow X).
  cbn [working_mask undo_history_mask redo_history_mask with_status_label].
  repeat split; congruence.
Qed.

End History.

(** ** Undo and redo *)

Inductive Mutation : Type := MutAdd | MutSubtract | MutClear | MutCopyAll.

Section UndoRedo.
Context {F : Type} {PF : PyFloat F} {PL : Pillow F}.

(** The semantic mutations of the working mask.  Painting is [MutAdd] or
    [MutSubtract] with [paint_mode] on. *)
Definition mutate (m : Mutation) (s : App F) : App F :=
  match m with
  | MutAdd => add_to_working_image s
  | MutSubtract => subtract_from_working_image s
  | MutClear => clear_working_image s
  | MutCopyAll => copy_entire_image s
  end.

(** The preview mask embedded in a full-size mask at the viewport offset;
    [None] when there is no preview or when it does not fit the paste box. *)
Definition embedded_preview (s : App F) : option Image :=
  match current_preview s with
  | Some mask =>
      Image_paste (Image_new (size_of (working_mask s)) 0) mask (paste_box s)
  | None => None
  end.

(** Whether the mutation goes through rather than aborting with a message. *)
Definition commits (m : Mutation) (s : App F) : bool :=
  match m with
  | MutAdd | MutSubtract =>
      match embedded_preview s with Some _ => true | None => false end
  | MutClear | MutCopyAll => true
  end.

(** The newest entry of the undo stack is the live mask. *)
Definition history_consistent (s : App F) : Prop :=
  exists older, undo_history_mask s = older ++ [working_mask s].

Lemma mutate_history (m : Mutation) (s : App F) :
  history_consistent s -> commits m s = true ->
  exists older',
    undo_history_mask (mutate m s)
    = (older' ++ [working_mask s]) ++ [working_mask (mutate m s)] /\
    redo_history_mask (mutate m s) = [].
Proof.
  intros [older Hh] Hc.
  assert (G : forall s' v,
              kept s' = kept (add_undo_step (with_working_mask v s)) ->
              exists older',
                undo_history_mask s'
                = (older' ++ [working_mask s]) ++ [working_mask s'] /\
                redo_history_mask s' = []).
  { intros s' v K. unfold kept in K. injection K; intros.
    destruct (trim_shape older (working_mask s) v) as [o' Ho'].
    exists o'. split; [|assumption].
    repeat match goal with
           | H : undo_history_mask s' = _ |- _ => rewrite H; clear H
           | H : working_mask s' = _ |- _ => rewrite H; clear H
           end.
    cbn [undo_history_mask add_undo_step with_undo_history_mask
         with_redo_history_mask with_working_mask working_mask].
    rewrite Hh. exact Ho'. }
  destruct m; cbn [mutate commits] in *.
  - unfold embedded_preview in Hc.
    destruct (current_preview s) as [mask|] eqn:Hp; [|discriminate].
    destruct (Image_paste _ mask _) as [t|] eqn:Ht; [|discriminate].
    exact (G _ _ (apply_commit ImageChops_add s Hp Ht)).
  - unfold embedded_preview in Hc.
    destruct (current_preview s) as [mask|] eqn:Hp; [|discriminate].
    destruct (Image_paste _ mask _) as [t|] eqn:Ht; [|discriminate].
    exact (G _ _ (apply_commit ImageChops_subtract s Hp Ht)).
  - exact (G _ _ (kept_clear_working_image s)).
  - exact (G _ _ (kept_copy_entire_image s)).
Qed.

(** C2. From a state whose undo stack ends with the live mask (every state
    the program reaches), after any single mutation that goes through (add,
    subtract, paint, clear, copy-all), [undo] restores the working mask to
    its value before the mutation, and [redo] right after that [undo]
    restores the value after the mutation. *)
Theorem undo_redo_restore (m : Mutation) (s : App F) :
  history_consistent s -> commits m s = true ->
  working_mask (undo (mutate m s)) = working_mask s /\
  working_mask (redo (undo (mutate m s))) = working_mask (mutate m s).
Proof.
  intros Hh Hc.
  destruct (mutate_history m Hh Hc) as (older & Hu & Hr).
  apply undo_history in Hu. destruct Hu as (U1 & U2 & U3).
  split; [exact U1|].
  rewrite Hr in U3. change ([] ++ ?l) with l in U3.
  apply (redo_history (undo (mutate m s)) []) in U3.
  destruct U3 as (R1 & _). exact R1.
Qed.

(** The invariant behind C2: it holds when the program starts and every
    mask operation keeps it. *)
Lemma history_consistent_init (image : Z * Z) :
  history_consistent (BackgroundRemoverGUI image).
Proof.
  exists []. reflexivity.
Qed.

Lemma trim_last (h : list Image) (x : Image) :
  exists older, trim (h ++ [x]) = older ++ [x].
Proof.
  unfold trim. destruct (UNDO_STEPS <? _) eqn:E.
  - destruct h as [|a h].
    + cbn in E. discriminate.
    + exists h. reflexivity.
  - exists h. reflexivity.
Qed.

Lemma history_consistent_mutate (m : Mutation) (s : App F) :
  history_consistent s -> history_consistent (mutate m s).
Proof.
  intros Hh.
  assert (G : forall s' v,
              kept s' = kept (add_undo_step (with_working_mask v s)) ->
              history_consistent s').
  { intros s' v K. unfold kept in K. injection K; intros.
    destruct (trim_last (undo_history_mask s) v) as [o Ho].
    exists o.
    repeat match goal with
           | H : undo_history_mask s' = _ |- _ => rewrite H; clear H
           | H : working_mask s' = _ |- _ => rewrite H; clear H
           end.
    exact Ho. }
  assert (A : forall op, history_consistent (_apply_mask_modification op s)).
  { intros op.
    destruct (current_preview s) as [mask|] eqn:Hp.
    - destruct (Image_paste (Image_new (size_of (working_mask s)) 0) mask
                            (paste_box s)) as [t|] eqn:Ht.
      + exact (G _ _ (apply_commit op s Hp Ht)).
      + rewrite (apply_mismatch op s Hp Ht). exact Hh.
    - rewrite (apply_without_preview op s Hp). exact Hh. }
  destruct m; cbn [mutate].
  - apply A.
  - apply A.
  - exact (G _ _ (kept_clear_working_image s)).
  - exact (G _ _ (kept_copy_entire_image s)).
Qed.

Lemma history_consistent_undo (s : App F) :
  history_consistent s -> history_consistent (undo s).
Proof.
  intros [older Hh].
  destruct older as [|a older] using rev_ind.
  - unfold undo. rewrite Hh. cbn. exists []. exact Hh.
  - clear IHolder. apply undo_history in Hh.
    destruct Hh as (U1 & U2 & _). exists older. now rewrite U1, U2.
Qed.

Lemma history_consistent_redo (s : App F) :
  history_consistent s -> history_consistent (redo s).
Proof.
  intros Hh.
  destruct (redo_history_mask s) as [|a l] eqn:E using rev_ind.
  - unfold redo. rewrite E. exact Hh.
  - clear IHl. apply redo_history in E.
    destruct E as (R1 & R2 & _). exists (undo_history_mask s).
    now rewrite R1, R2.
Qed.

End UndoRedo.

(** A run of C2: a whole-image result thresholded at the default slider, then
    added, undone and redone, on a 3 by 2 photograph. *)
Definition demo_model_run : App float :=
  run_whole_image_model (fun x y => 40 * (x + 3 * y))
    (BackgroundRemoverGUI (3, 2)).

Lemma undo_redo_restore_witness :
  history_consistent demo_model_run /\
  commits MutAdd demo_model_run = true /\
  working_mask (undo (mutate MutAdd demo_model_run))
  = working_mask demo_model_run /\
  working_mask (redo (undo (mutate MutAdd demo_model_run)))
  = working_mask (mutate MutAdd demo_model_run).
Proof.
  assert (Hh : history_consistent demo_model_run)
    by (exists []; vm_compute; reflexivity).
  assert (Hc : commits MutAdd demo_model_run = true)
    by (vm_compute; reflexivity).
  split; [exact Hh|]. split; [exact Hc|].
  exact (undo_redo_restore MutAdd Hh Hc).
Defined.

(** ** Operations without a preview mask *)

Section NoPreview.
Context {F : Type} {PF : PyFloat F} {PL : Pillow F}.

(** C8. Add and subtract with no preview mask only set the status message:
    the working mask and both history stacks are unchanged, and the call
    returns normally. *)
Theorem no_preview_no_mutation (s : App F) :
  current_preview s = None ->
  add_to_working_image s = with_status_label no_preview_warning s /\
  subtract_from_working_image s = with_status_label no_preview_warning s /\
  forall s', s' = add_to_working_image s \/ s' = subtract_from_working_image s ->
    status_label s' = no_preview_warning /\
    working_mask s' = working_mask s /\
    undo_history_mask s' = undo_history_mask s /\
    redo_history_mask s' = redo_history_mask s.
Proof.
  intros Hp.
  assert (A : add_to_working_image s = with_status_label no_preview_warning s)
    by (apply apply_without_preview; exact Hp).
  assert (B : subtract_from_working_image s
              = with_status_label no_preview_warning s)
    by (apply apply_without_preview; exact Hp).
  split; [exact A|]. split; [exact B|].
  intros s' [-> | ->]; [rewrite A | rewrite B]; repeat split.
Qed.

End NoPreview.

Lemma no_preview_no_mutation_witness :
  let s : App float := BackgroundRemoverGUI (3, 2) in
  current_preview s = None /\
  (add_to_working_image s = with_status_label no_preview_warning s /\
   subtract_from_working_image s = with_status_label no_preview_warning s /\
   forall s', s' = add_to_working_image s \/ s' = subtract_from_working_image s ->
     status_label s' = no_preview_warning /\
     working_mask s' = working_mask s /\
     undo_history_mask s' = undo_history_mask s /\
     redo_history_mask s' = redo_history_mask s).
Proof.
  intros s.
  assert (Hp : current_preview s = None) by reflexivity.
  split; [exact Hp|].
  exact (no_preview_no_mutation s Hp).
Defined.

(** ** Add and subtract as an inverse pair *)

(** A mode-"L" image: well-formed rows of bytes. *)
Definition byte_image (im : Image) : Prop :=
  wf_grid im /\
  forall x y, 0 <= x < g_width im -> 0 <= y < g_height im ->
              0 <= getpixel 0 im x y <= 255.

(** Adding [t] to [m] clips nowhere. *)
Definition no_saturation (m t : Image) : Prop :=
  forall x y, 0 <= x < g_width m -> 0 <= y < g_height m ->
              getpixel 0 m x y + getpixel 0 t x y <= 255.

Lemma paste_size (dst src t : Image) (b : Box) :
  Image_paste dst src b = Some t -> size_of t = size_of dst.
Proof.
  unfold Image_paste. destruct b as [[[x0 y0] x1] y1].
  destruct (_ && _); [|discriminate]. intros [= <-]. reflexivity.
Qed.

Lemma paste_bytes (sz : Z * Z) (src t : Image) (b : Box) :
  byte_image src ->
  Image_paste (Image_new sz 0) src b = Some t ->
  forall x y, 0 <= x < g_width t -> 0 <= y < g_height t ->
              0 <= getpixel 0 t x y <= 255.
Proof.
  intros [_ Hsrc]. unfold Image_paste. destruct b as [[[x0 y0] x1] y1].
  destruct (_ && _); [|discriminate]. intros [= <-] x y Hx Hy.
  cbn [g_width g_height build Image_new] in Hx, Hy.
  rewrite getpixel_build by assumption.
  destruct (_ && _) eqn:E.
  - apply andb_prop in E. destruct E as [E E4].
    apply andb_prop in E. destruct E as [E E3].
    apply andb_prop in E. destruct E as [E1 E2].
    apply Z.leb_le in E1, E3. apply Z.ltb_lt in E2, E4.
    apply Hsrc; lia.
  - unfold Image_new. rewrite getpixel_build by assumption. lia.
Qed.

Lemma clip8_id (v : Z) : 0 <= v <= 255 -> clip8 v = v.
Proof.
  intros Hv. unfold clip8.
  destruct (Z.ltb_spec v 0); [lia|].
  destruct (Z.ltb_spec 255 v); [lia|]. reflexivity.
Qed.

Lemma chops_inverse (m t : Image) :
  byte_image m -> size_of t = size_of m ->
  (forall x y, 0 <= x < g_width t -> 0 <= y < g_height t ->
               0 <= getpixel 0 t x y <= 255) ->
  no_saturation m t ->
  ImageChops_subtract (ImageChops_add m t) t = m.
Proof.
  intros [Hwf Hm] Hsz Ht Hsat.
  unfold size_of in Hsz. injection Hsz as Hw Hh.
  unfold ImageChops_subtract, ImageChops_add.
  cbn [g_width g_height build].
  rewrite Hw, Hh, !Z.min_id.
  transitivity (build (g_width m) (g_height m) (getpixel 0 m));
    [|apply build_getpixel; exact Hwf].
  apply build_ext. intros x y Hx Hy.
  rewrite getpixel_build by assumption.
  specialize (Hm x y Hx Hy). specialize (Hsat x y Hx Hy).
  assert (Ht' := Ht x y). rewrite Hw, Hh in Ht'. specialize (Ht' Hx Hy).
  rewrite (@clip8_id (getpixel 0 m x y + getpixel 0 t x y)) by lia.
  rewrite clip8_id by lia. lia.
Qed.

Section AddSubtract.
Context {F : Type} {PF : PyFloat F} {PL : Pillow F}.

Lemma size_of_chop_add (m t : Image) :
  size_of t = size_of m -> size_of (ImageChops_add m t) = size_of m.
Proof.
  unfold size_of, ImageChops_add. cbn [g_width g_height build].
  intros [= -> ->]. now rewrite !Z.min_id.
Qed.

(** C5. When adding the preview mask clips at no pixel, add followed at once
    by subtract, in the same viewport and with the same preview, gives the
    working mask back pixel for pixel. *)
Theorem add_then_subtract_restores (s : App F) :
  byte_image (working_mask s) ->
  (forall p, current_preview s = Some p -> byte_image p) ->
  (forall t, embedded_preview s = Some t -> no_saturation (working_mask s) t) ->
  working_mask (subtract_from_working_image (add_to_working_image s))
  = working_mask s.
Proof.
  intros Hm Hp Hsat.
  unfold add_to_working_image, subtract_from_working_image.
  destruct (current_preview s) as [p|] eqn:Ep.
  2:{ rewrite (apply_without_preview ImageChops_add s Ep).
      rewrite apply_without_preview by exact Ep. reflexivity. }
  destruct (Image_paste (Image_new (size_of (working_mask s)) 0) p (paste_box s))
    as [t|] eqn:Et.
  2:{ rewrite (apply_mismatch ImageChops_add s Ep Et).
      rewrite (@apply_mismatch _ _ _ ImageChops_subtract
                 (with_status_label _ s) p Ep Et).
      reflexivity. }
  assert (Ee : embedded_preview s = Some t)
    by (unfold embedded_preview; rewrite Ep; exact Et).
  specialize (Hp p eq_refl). specialize (Hsat t Ee).
  pose proof (paste_size _ _ _ Et) as Hsz.
  change (size_of (Image_new (size_of (working_mask s)) 0))
    with (size_of (working_mask s)) in Hsz.
  pose proof (paste_bytes _ _ Hp Et) as Hbytes.
  pose proof (apply_commit ImageChops_add s Ep Et) as K.
  set (s1 := _apply_mask_modification ImageChops_add s) in *.
  set (X := add_undo_step
              (with_working_mask (ImageChops_add (working_mask s) t) s)) in *.
  destruct (kept_preview K) as [Kp Kb].
  change (current_preview X) with (current_preview s) in Kp.
  change (paste_box X) with (paste_box s) in Kb.
  assert (Kw : working_mask s1 = ImageChops_add (working_mask s) t)
    by (unfold kept in K; injection K; intros; assumption).
  assert (Ep1 : current_preview s1 = Some p) by (rewrite Kp; exact Ep).
  assert (Et1 : Image_paste (Image_new (size_of (working_mask s1)) 0) p
                            (paste_box s1) = Some t).
  { rewrite Kw, Kb, (size_of_chop_add Hsz). exact Et. }
  pose proof (apply_commit ImageChops_subtract s1 Ep1 Et1) as K2.
  unfold kept in K2. injection K2; intros.
  match goal with
  | H : working_mask (_apply_mask_modification _ s1) = _ |- _ => rewrite H
  end.
  cbn [working_mask add_undo_step with_working_mask with_undo_history_mask
       with_redo_history_mask].
  rewrite Kw. apply chops_inverse; assumption.
Qed.

End AddSubtract.

(** A run of C5: the thresholded result of [demo_model_run] is added to the
    empty mask and subtracted again. *)
Lemma add_then_subtract_restores_witness :
  byte_image (working_mask demo_model_run) /\
  (forall p, current_preview demo_model_run = Some p -> byte_image p) /\
  (forall t, embedded_preview demo_model_run = Some t ->
             no_saturation (working_mask demo_model_run) t) /\
  embedded_preview demo_model_run
  = Some (mkGrid 3 2 [[0; 0; 0]; [0; 255; 255]]) /\
  working_mask (subtract_from_working_image
                  (add_to_working_image demo_model_run))
  = working_mask demo_model_run.
Proof.
  assert (B : forall rows, Forall (Forall (fun v => 0 <= v <= 255)) rows ->
              Forall (fun r => length r = 3%nat) rows -> length rows = 2%nat ->
              byte_image (mkGrid 3 2 rows)).
  { intros rows Hb Hl Hn. split.
    - repeat split; cbn; try lia; assumption.
    - cbn [g_width g_height]. intros x y Hx Hy. unfold getpixel. cbn [g_rows].
      replace ((x <? 0) || (y <? 0)) with false
        by (symmetry; apply orb_false_iff; split; apply Z.ltb_ge; lia).
      assert (Hr : Forall (fun v => 0 <= v <= 255)
                          (nth (Z.to_nat y) rows [])).
      { rewrite Forall_forall in Hb. apply Hb. apply nth_In. lia. }
      rewrite Forall_forall in Hr. apply Hr. apply nth_In.
      rewrite Forall_forall in Hl. rewrite (Hl (nth (Z.to_nat y) rows [])).
      + lia.
      + apply nth_In. lia. }
  assert (H1 : byte_image (working_mask demo_model_run)).
  { apply B; vm_compute; repeat constructor; lia || discriminate. }
  assert (H2 : forall p, current_preview demo_model_run = Some p ->
                         byte_image p).
  { intros p E. vm_compute in E. injection E as <-.
    apply B; repeat constructor; lia || discriminate. }
  assert (H3 : forall t, embedded_preview demo_model_run = Some t ->
                         no_saturation (working_mask demo_model_run) t).
  { intros t E. vm_compute in E. injection E as <-.
    intros x y Hx Hy.
    change (g_width (working_mask demo_model_run)) with 3 in Hx.
    change (g_height (working_mask demo_model_run)) with 2 in Hy.
    assert (Hxy : (x = 0 \/ x = 1 \/ x = 2) /\ (y = 0 \/ y = 1)) by lia.
    destruct Hxy as [[-> | [-> | ->]] [-> | ->]]; vm_compute; discriminate. }
  split; [exact H1|]. split; [exact H2|]. split; [exact H3|].
  split; [vm_compute; reflexivity|].
  exact (add_then_subtract_restores demo_model_run H1 H2 H3).
Defined.

(** ** The shadow and background caches *)

Section Caches.
Context {F : Type} {PF : PyFloat F} {PL : Pillow F}.

(** The mask a composite's shadow layer was blurred from, if it has one. *)
Definition shadow_source (img : Rgba F) : option Image :=
  match img with
  | OverShadow sh _ => Some (ba_alpha (sh_alpha sh))
  | _ => None
  end.

(** The mask a displayed frame's blurred background was inpainted under. *)
Definition background_source (img : Rgba F) : option Image :=
  match img with
  | OverBlur bg _ => Some (sb_mask bg)
  | _ => None
  end.

(** With the radius slider where it was, [add_drop_shadow] composites the
    cached layer, whatever mask it was blurred from. *)
Lemma add_drop_shadow_reuses_cache (s : App F) (c : BlurredAlpha) :
  enable_shadow_var s = true ->
  cached_blurred_shadow s = Some c ->
  _last_shadow_radius s = Some (py_int (shadow_radius_slider s)) ->
  shadow_source (working_image (add_drop_shadow s)) = Some (ba_alpha c) /\
  cached_blurred_shadow (add_drop_shadow s) = Some c.
Proof.
  intros He Hc Hr. unfold add_drop_shadow. rewrite He. cbn [negb].
  cbn [cutout_working_image _last_shadow_radius cached_blurred_shadow
       with_working_image].
  rewrite Hr, Hc. cbn [opt_Z_eqb]. rewrite Z.eqb_refl. cbn [negb].
  unfold update_output_image_preview, apply_background_color,
    regenerate_smart_blur.
  break_ifs; split; try reflexivity; cbn; exact Hc.
Qed.

End Caches.

(** Three sessions on a 3 by 2 photograph, in double precision. *)

(** The "Drop Shadow" button is clicked on the fresh workspace: the shadow
    layer of the empty mask is blurred and cached. *)
Definition shadow_on : App float :=
  toggle_shadow_options (BackgroundRemoverGUI (3, 2)).

(** With the shadow on, a whole-image result is thresholded and added. *)
Definition shadow_added : App float :=
  add_to_working_image
    (run_whole_image_model (fun x y => 40 * (x + 3 * y)) shadow_on).

(** The blurred background is shown once, then the solid colour. *)
Definition blur_seen : App float :=
  set_bg_mode "color" (set_bg_mode "blur" (BackgroundRemoverGUI (3, 2))).

(** C1 fails on the code.  [copy_entire_image], [undo] and [redo] keep
    [cached_blurred_shadow], and outside of blur mode no mask change drops
    [cached_blur_image]: the next composite is built from a layer computed
    against the previous working mask. *)
Theorem composite_from_stale_cache :
  (* copy-all: the mask is all 255, the shadow is that of the empty mask *)
  (working_mask (copy_entire_image shadow_on) = Image_new (3, 2) 255 /\
   shadow_source (working_image (copy_entire_image shadow_on))
   = Some (Image_new (3, 2) 0)) /\
  (* undo: the mask is empty again, the shadow is that of the added mask *)
  (working_mask shadow_added = mkGrid 3 2 [[0; 0; 0]; [0; 255; 255]] /\
   working_mask (undo shadow_added) = Image_new (3, 2) 0 /\
   shadow_source (working_image (undo shadow_added))
   = Some (working_mask shadow_added)) /\
  (* redo: the mask is all 255 again, the shadow that of the empty mask *)
  (working_mask (redo (undo (copy_entire_image shadow_on)))
   = Image_new (3, 2) 255 /\
   shadow_source (working_image (redo (undo (copy_entire_image shadow_on))))
   = Some (Image_new (3, 2) 0)) /\
  (* background: copy-all in colour mode, then back to blur mode *)
  (working_mask (set_bg_mode "blur" (copy_entire_image blur_seen))
   = Image_new (3, 2) 255 /\
   background_source
     (output_displayed (set_bg_mode "blur" (copy_entire_image blur_seen)))
   = Some (Image_new (3, 2) 0)).
Proof. vm_compute. repeat split. Qed.

(** ** Export validation *)

Definition jpg_conflict_error : string :=
  "Error: JPG format does not support transparency.".

(** C3 fails on the code: with the JPG format selected and the transparent
    background, quick export and save-as both stop at
    [validate_export_config] and write no file. *)
Lemma jpg_transparent_writes_no_file :
  export_format (set_export_format "jpg" (BackgroundRemoverGUI (3, 2)) : App float)
  = "jpg"%string /\
  bg_mode (set_export_format "jpg" (BackgroundRemoverGUI (3, 2)) : App float)
  = "transparent"%string /\
  saved_files
    (quick_save_automatic "photo_nobg.jpg"
       (set_export_format "jpg" (BackgroundRemoverGUI (3, 2)) : App float))
  = [] /\
  saved_files
    (save_as_image "/home/user/photo_nobg.jpg"
       (set_export_format "jpg" (BackgroundRemoverGUI (3, 2)) : App float))
  = [].
Proof. vm_compute. repeat split. Qed.

Section ExportFiles.
Context {F : Type} {PF : PyFloat F} {PL : Pillow F}.

(** C3, amended.  With the transparent background: when the export format
    is JPG, both save actions only report the conflict and write nothing;
    when it is not, save-as under a name that ends in .jpg or .jpeg writes
    the result composited over solid white, converted to RGB. *)
Theorem jpg_transparent_conflict (s : App F) (name : string) :
  bg_mode s = "transparent"%string ->
  (export_format s = "jpg"%string ->
   quick_save_automatic name s = with_status_label jpg_conflict_error s /\
   save_as_image name s = with_status_label jpg_conflict_error s) /\
  (export_format s <> "jpg"%string -> name <> ""%string ->
   str_lower (splitext_ext name) = ".jpg"%string \/
   str_lower (splitext_ext name) = ".jpeg"%string ->
   saved_files (save_as_image name s)
   = saved_files s
     ++ [(name, ToRGB (OverColor "white" (working_image (add_drop_shadow s))))]).
Proof.
  intros Hbg. split.
  - intros Hfmt.
    unfold quick_save_automatic, save_as_image, validate_export_config.
    rewrite Hfmt, Hbg. split; reflexivity.
  - intros Hfmt Hname Hext.
    apply String.eqb_neq in Hfmt, Hname.
    unfold save_as_image, validate_export_config.
    rewrite Hfmt, Hname. cbn [andb negb].
    assert (Kb : bg_mode (add_drop_shadow s) = "transparent"%string)
      by (use_kept (kept_add_drop_shadow s); congruence).
    assert (Ks : saved_files (add_drop_shadow s) = saved_files s)
      by (use_kept (kept_add_drop_shadow s); congruence).
    replace ((str_lower (splitext_ext name) =? ".jpg")%string
             || (str_lower (splitext_ext name) =? ".jpeg")%string) with true
      by (symmetry; apply orb_true_iff;
          destruct Hext as [-> | ->]; [left|right]; reflexivity).
    rewrite Kb.
    change ("transparent" =? "transparent")%string with true.
    cbv beta iota zeta delta [negb]. rewrite Kb.
    change ("transparent" =? "transparent")%string with true.
    cbv beta iota zeta.
    cbn [saved_files with_saved_files with_status_label].
    rewrite Ks. reflexivity.
Qed.

End ExportFiles.

Lemma jpg_transparent_conflict_witness :
  bg_mode (BackgroundRemoverGUI (3, 2) : App float) = "transparent"%string /\
  export_format (BackgroundRemoverGUI (3, 2) : App float) <> "jpg"%string /\
  str_lower (splitext_ext "/home/user/Photo.v2.JPG") = ".jpg"%string /\
  saved_files (save_as_image "/home/user/Photo.v2.JPG"
                 (BackgroundRemoverGUI (3, 2) : App float))
  = [("/home/user/Photo.v2.JPG"%string,
      ToRGB (OverColor "white" (CutOut (Image_new (3, 2) 0) None)))].
Proof.
  assert (Hbg : bg_mode (BackgroundRemoverGUI (3, 2) : App float)
                = "transparent"%string) by reflexivity.
  assert (Hfmt : export_format (BackgroundRemoverGUI (3, 2) : App float)
                 <> "jpg"%string) by (vm_compute; discriminate).
  assert (Hext : str_lower (splitext_ext "/home/user/Photo.v2.JPG")
                 = ".jpg"%string) by reflexivity.
  split; [exact Hbg|]. split; [exact Hfmt|]. split; [exact Hext|].
  refine (proj2 (jpg_transparent_conflict (BackgroundRemoverGUI (3, 2))
                   "/home/user/Photo.v2.JPG" Hbg) Hfmt _ (or_introl Hext)).
  discriminate.
Defined.

(** ** The viewport *)

Tactic Notation "proj_simpl" :=
  cbn [original_image working_mask working_image undo_history_mask
  redo_history_mask cached_blurred_shadow _last_shadow_radius
  cached_blur_image current_blur_radius canvas_w canvas_h zoom_factor
  lowest_zoom_factor view_x view_y pan_step min_zoom orig_image_crop panning
  move_enabled pan_start_x pan_start_y model_output_mask raw_model_mask
  raw_sam_logits sam_active paint_mode lines unified_var bg_mode
  bg_custom_color export_format enable_shadow_var shadow_opacity_slider
  shadow_radius_slider shadow_x_slider shadow_y_slider soften_mask_var
  blur_radius_var show_mask_var status_label output_displayed saved_files
  with_working_mask with_working_image with_undo_history_mask
  with_redo_history_mask with_cached_blurred_shadow with_last_shadow_radius
  with_cached_blur_image with_canvas_w with_canvas_h with_zoom_factor
  with_lowest_zoom_factor with_view_x with_view_y with_pan_step
  with_min_zoom with_orig_image_crop with_panning with_pan_start_x
  with_pan_start_y with_model_output_mask with_raw_model_mask
  with_raw_sam_logits with_sam_active with_lines with_unified_var
  with_bg_mode with_export_format with_enable_shadow_var
  with_soften_mask_var with_status_label with_output_displayed
  with_saved_files with_original_image].

Tactic Notation "proj_simpl" "in" hyp(H) :=
  cbn [original_image working_mask working_image undo_history_mask
  redo_history_mask cached_blurred_shadow _last_shadow_radius
  cached_blur_image current_blur_radius canvas_w canvas_h zoom_factor
  lowest_zoom_factor view_x view_y pan_step min_zoom orig_image_crop panning
  move_enabled pan_start_x pan_start_y model_output_mask raw_model_mask
  raw_sam_logits sam_active paint_mode lines unified_var bg_mode
  bg_custom_color export_format enable_shadow_var shadow_opacity_slider
  shadow_radius_slider shadow_x_slider shadow_y_slider soften_mask_var
  blur_radius_var show_mask_var status_label output_displayed saved_files
  with_working_mask with_working_image with_undo_history_mask
  with_redo_history_mask with_cached_blurred_shadow with_last_shadow_radius
  with_cached_blur_image with_canvas_w with_canvas_h with_zoom_factor
  with_lowest_zoom_factor with_view_x with_view_y with_pan_step
  with_min_zoom with_orig_image_crop with_panning with_pan_start_x
  with_pan_start_y with_model_output_mask with_raw_model_mask
  with_raw_sam_logits with_sam_active with_lines with_unified_var
  with_bg_mode with_export_format with_enable_shadow_var
  with_soften_mask_var with_status_label with_output_displayed
  with_saved_files with_original_image] in H.

Tactic Notation "proj_simpl" "in" "*" :=
  cbn [original_image working_mask working_image undo_history_mask
  redo_history_mask cached_blurred_shadow _last_shadow_radius
  cached_blur_image current_blur_radius canvas_w canvas_h zoom_factor
  lowest_zoom_factor view_x view_y pan_step min_zoom orig_image_crop panning
  move_enabled pan_start_x pan_start_y model_output_mask raw_model_mask
  raw_sam_logits sam_active paint_mode lines unified_var bg_mode
  bg_custom_color export_format enable_shadow_var shadow_opacity_slider
  shadow_radius_slider shadow_x_slider shadow_y_slider soften_mask_var
  blur_radius_var show_mask_var status_label output_displayed saved_files
  with_working_mask with_working_image with_undo_history_mask
  with_redo_history_mask with_cached_blurred_shadow with_last_shadow_radius
  with_cached_blur_image with_canvas_w with_canvas_h with_zoom_factor
  with_lowest_zoom_factor with_view_x with_view_y with_pan_step
  with_min_zoom with_orig_image_crop with_panning with_pan_start_x
  with_pan_start_y with_model_output_mask with_raw_model_mask
  with_raw_sam_logits with_sam_active with_lines with_unified_var
  with_bg_mode with_export_format with_enable_shadow_var
  with_soften_mask_var with_status_label with_output_displayed
  with_saved_files with_original_image] in *.

(** The operations that move the viewport. *)
Inductive ViewOp : Type :=
| VZoom (event : Event)
| VPanLeft
| VPanRight
| VPanUp
| VPanDown
| VStartPan (event : Event)
| VPanMouse (event : Event).

Section Viewport.
Context {F : Type} {PF : PyFloat F} {PL : Pillow F}.

Definition view_step (s : App F) (op : ViewOp) : App F :=
  match op with
  | VZoom e => zoom e s
  | VPanLeft => pan_left_keyboard s
  | VPanRight => pan_right_keyboard s
  | VPanUp => pan_up_keyboard s
  | VPanDown => pan_down_keyboard s
  | VStartPan e => start_pan_mouse e s
  | VPanMouse e => pan_mouse e s
  end.

Definition view_run (ops : list ViewOp) (s : App F) : App F :=
  fold_left view_step ops s.

(** [max(0, min(x, bound))], the clamp every viewport write goes through. *)
Definition clamp (x bound : F) : F := py_max (of_int 0) (py_min x bound).

(** The largest admissible origin on each axis at zoom [z]. *)
Definition bound_x (s : App F) (z : F) : F :=
  (of_int (fst (original_image s)) - of_int (canvas_w s) / z)%py.

Definition bound_y (s : App F) (z : F) : F :=
  (of_int (snd (original_image s)) - of_int (canvas_h s) / z)%py.

(** The zoom factor [zoom] settles on. *)
Definition next_zoom (event : Event) (s : App F) : F :=
  if (ev_num event =? 4) || (0 <? ev_delta event) then
    if (zoom_factor s * DEFAULT_ZOOM_FACTOR <=? MAX_ZOOM_FACTOR)%py
    then (zoom_factor s * DEFAULT_ZOOM_FACTOR)%py else zoom_factor s
  else if (ev_num event =? 5) || (ev_delta event <? 0) then
    py_max (zoom_factor s / DEFAULT_ZOOM_FACTOR)%py (lowest_zoom_factor s)
  else zoom_factor s.

(** What the viewport invariants read. *)
Definition view_core (s : App F) :=
  (original_image s, canvas_w s, canvas_h s, lowest_zoom_factor s,
   zoom_factor s, view_x s, view_y s).

Lemma view_core_update_input_image_preview (s : App F) :
  view_core (update_input_image_preview s) = view_core s.
Proof.
  unfold update_input_image_preview.
  match goal with
  | |- view_core (update_output_image_preview ?x) = _ =>
      use_kept (kept_update_output_image_preview x)
  end.
  unfold view_core. cbn [original_image canvas_w canvas_h lowest_zoom_factor
    zoom_factor view_x view_y with_orig_image_crop] in *.
  congruence.
Qed.

Lemma view_core_clear_coord_overlay (s : App F) :
  view_core (clear_coord_overlay s) = view_core s.
Proof. reflexivity. Qed.

Lemma view_core_with_min_zoom (b : bool) (s : App F) :
  view_core (with_min_zoom b s) = view_core s.
Proof. reflexivity. Qed.

Lemma zoom_core (event : Event) (s : App F) :
  exists x y,
    view_core (zoom event s)
    = (original_image s, canvas_w s, canvas_h s, lowest_zoom_factor s,
       next_zoom event s,
       clamp x (bound_x s (next_zoom event s)),
       clamp y (bound_y s (next_zoom event s))).
Proof.
  exists (view_x s + of_int (ev_x event) / zoom_factor s
          - of_int (ev_x event) / next_zoom event s)%py.
  exists (view_y s + of_int (ev_y event) / zoom_factor s
          - of_int (ev_y event) / next_zoom event s)%py.
  unfold zoom, next_zoom, clamp, bound_x, bound_y, clamp_view_x, clamp_view_y.
  proj_simpl.
  destruct ((ev_num event =? 4) || (0 <? ev_delta event));
    [destruct (zoom_factor s * DEFAULT_ZOOM_FACTOR <=? MAX_ZOOM_FACTOR)%py
    |destruct ((ev_num event =? 5) || (ev_delta event <? 0))];
    proj_simpl;
    repeat match goal with
           | |- context [if ?b then _ else _] => destruct b
           end;
    rewrite ?view_core_with_min_zoom, ?view_core_clear_coord_overlay,
      ?view_core_update_input_image_preview;
    reflexivity.
Qed.

Lemma do_pan_core (dx dy : F) (s : App F) :
  view_core (do_pan dx dy s)
  = (original_image s, canvas_w s, canvas_h s, lowest_zoom_factor s,
     zoom_factor s,
     clamp (view_x s + dx)%py (bound_x s (zoom_factor s)),
     clamp (view_y s + dy)%py (bound_y s (zoom_factor s))).
Proof.
  unfold do_pan. rewrite view_core_update_input_image_preview. reflexivity.
Qed.

Lemma pan_mouse_core (event : Event) (s : App F) :
  view_core (pan_mouse event s) = view_core s \/
  exists x y,
    view_core (pan_mouse event s)
    = (original_image s, canvas_w s, canvas_h s, lowest_zoom_factor s,
       zoom_factor s,
       clamp x (bound_x s (zoom_factor s)),
       clamp y (bound_y s (zoom_factor s))).
Proof.
  unfold pan_mouse.
  destruct (panning s); [|left; reflexivity].
  destruct (fgt _ _); [|left; reflexivity].
  right. do 2 eexists.
  rewrite view_core_update_input_image_preview. reflexivity.
Qed.

(** Every viewport operation either leaves the viewport alone or writes a
    zoom factor (the old one, or the one [zoom] computes for some event)
    and an origin clamped for that factor. *)
Lemma view_step_core (op : ViewOp) (s : App F) :
  view_core (view_step s op) = view_core s \/
  exists z x y,
    (z = zoom_factor s \/ exists event, z = next_zoom event s) /\
    view_core (view_step s op)
    = (original_image s, canvas_w s, canvas_h s, lowest_zoom_factor s,
       z, clamp x (bound_x s z), clamp y (bound_y s z)).
Proof.
  destruct op as [e| | | | |e|e]; cbn [view_step].
  - right. destruct (zoom_core e s) as (x & y & E).
    exists (next_zoom e s), x, y. split; [right; exists e; reflexivity|exact E].
  - right. do 3 eexists. split; [left; reflexivity|apply do_pan_core].
  - right. do 3 eexists. split; [left; reflexivity|apply do_pan_core].
  - right. do 3 eexists. split; [left; reflexivity|apply do_pan_core].
  - right. do 3 eexists. split; [left; reflexivity|apply do_pan_core].
  - left. reflexivity.
  - destruct (pan_mouse_core e s) as [E | (x & y & E)]; [left; exact E|].
    right. exists (zoom_factor s), x, y. split; [left; reflexivity|exact E].
Qed.

End Viewport.

(** *** Exact arithmetic *)

Local Open Scope Q_scope.

Lemma Q_flt_true (a b : Q) : (a <? b)%py = true <-> a < b.
Proof.
  cbn. rewrite negb_true_iff. split.
  - intros E. apply Qnot_le_lt. intros L. apply Qle_bool_iff in L. congruence.
  - intros L. destruct (Qle_bool b a) eqn:E; [|reflexivity].
    apply Qle_bool_iff in E. lra.
Qed.

Lemma Q_flt_false (a b : Q) : (a <? b)%py = false <-> b <= a.
Proof.
  cbn. rewrite negb_false_iff. apply Qle_bool_iff.
Qed.

Lemma Q_fle_true (a b : Q) : (a <=? b)%py = true <-> a <= b.
Proof. cbn. apply Qle_bool_iff. Qed.

Lemma Q_fle_false (a b : Q) : (a <=? b)%py = false <-> b < a.
Proof.
  cbn. split.
  - intros E. apply Qnot_le_lt. intros L. apply Qle_bool_iff in L. congruence.
  - intros L. destruct (Qle_bool a b) eqn:E; [|reflexivity].
    apply Qle_bool_iff in E. lra.
Qed.

Lemma Q_py_max_cases (a b : Q) :
  (a < b /\ py_max a b = b) \/ (b <= a /\ py_max a b = a).
Proof.
  unfold py_max. destruct (a <? b)%py eqn:E.
  - left. split; [apply Q_flt_true; exact E|reflexivity].
  - right. split; [apply Q_flt_false; exact E|reflexivity].
Qed.

Lemma Q_py_min_cases (a b : Q) :
  (b < a /\ py_min a b = b) \/ (a <= b /\ py_min a b = a).
Proof.
  unfold py_min. destruct (b <? a)%py eqn:E.
  - left. split; [apply Q_flt_true; exact E|reflexivity].
  - right. split; [apply Q_flt_false; exact E|reflexivity].
Qed.

(** An origin is in range on one axis: between 0 and [len - canvas / z] when
    the visible span [canvas / z] fits in the photograph, and 0 when the
    span covers it. *)
Definition axis_in_range (v : Q) (len canvas : Z) (z : Q) : Prop :=
  0 <= v /\
  (inject_Z canvas / z <= inject_Z len -> v <= inject_Z len - inject_Z canvas / z) /\
  (inject_Z len <= inject_Z canvas / z -> v == 0).

Lemma clamp_in_range (x : Q) (len canvas : Z) (z : Q) :
  axis_in_range (clamp x (of_int len - of_int canvas / z)%py) len canvas z.
Proof.
  unfold axis_in_range, clamp. cbn [of_int fsub fdiv exactQ].
  set (b := inject_Z len - inject_Z canvas / z).
  set (c := inject_Z canvas / z) in *.
  change (inject_Z 0) with 0.
  destruct (Q_py_min_cases x b) as [[H1 ->] | [H1 ->]];
    [destruct (Q_py_max_cases 0 b) as [[H2 ->] | [H2 ->]]
    |destruct (Q_py_max_cases 0 x) as [[H2 ->] | [H2 ->]]];
    subst b; repeat split; intros; lra.
Qed.

(** What the viewport invariant says of [view_core]. *)
Definition core_ok (c : Z * Z * Z * Z * Q * Q * Q * Q) : Prop :=
  let '(image, cw, ch, lowest, z, vx, vy) := c in
  0 < lowest /\
  (lowest <= z /\ z <= Qmax lowest 50) /\
  axis_in_range vx (fst image) cw z /\
  axis_in_range vy (snd image) ch z.

Lemma default_zoom_factor_exact : @DEFAULT_ZOOM_FACTOR Q _ == 12 # 10.
Proof. reflexivity. Qed.

Section ExactViewport.
Context {PL : Pillow Q}.

Definition view_ok (s : App Q) : Prop := core_ok (view_core s).

Lemma next_zoom_within (event : Event) (s : App Q) :
  0 < lowest_zoom_factor s ->
  lowest_zoom_factor s <= zoom_factor s ->
  zoom_factor s <= Qmax (lowest_zoom_factor s) 50 ->
  lowest_zoom_factor s <= next_zoom event s /\
  next_zoom event s <= Qmax (lowest_zoom_factor s) 50.
Proof.
  intros Hl Hz Hm. unfold next_zoom.
  set (l := lowest_zoom_factor s) in *. set (z := zoom_factor s) in *.
  pose proof default_zoom_factor_exact as Hd.
  set (d := DEFAULT_ZOOM_FACTOR) in *.
  change (@MAX_ZOOM_FACTOR Q _) with (inject_Z 50).
  change (inject_Z 50) with 50.
  cbn [fmul fdiv exactQ].
  assert (M : l <= Qmax l 50 /\ 50 <= Qmax l 50)
    by (destruct (Q.max_spec l 50) as [[M1 M2] | [M1 M2]]; split; lra).
  destruct M as [M1 M2].
  destruct ((ev_num event =? 4)%Z || (0 <? ev_delta event)%Z).
  - match goal with
    | |- context [if ?c then _ else _] => destruct c eqn:E
    end.
    + apply Q_fle_true in E. rewrite Hd in E |- *. split; lra.
    + split; lra.
  - destruct ((ev_num event =? 5)%Z || (ev_delta event <? 0)%Z);
      [|split; lra].
    destruct (Q_py_max_cases (z / d) l) as [[H1 ->] | [H1 ->]];
      [split; lra|].
    rewrite Hd in H1 |- *. unfold Qdiv in *.
    change (/ (12 # 10)) with (10 # 12) in *. split; lra.
Qed.

Lemma view_ok_step (op : ViewOp) (s : App Q) :
  view_ok s -> view_ok (view_step s op).
Proof.
  unfold view_ok. intros Hs.
  destruct (view_step_core op s) as [-> | (z & x & y & Hz & ->)];
    [exact Hs|].
  unfold view_core, core_ok in Hs |- *.
  destruct Hs as (Hl & (Hz1 & Hz2) & _).
  split; [exact Hl|]. split.
  - destruct Hz as [-> | [e ->]]; [split; assumption|].
    apply next_zoom_within; assumption.
  - split; apply clamp_in_range.
Qed.

Lemma view_ok_run (ops : list ViewOp) (s : App Q) :
  view_ok s -> view_ok (view_run ops s).
Proof.
  unfold view_run. revert s.
  induction ops as [|op ops IH]; intros s Hs; cbn [fold_left].
  - exact Hs.
  - apply IH. apply view_ok_step. exact Hs.
Qed.

Lemma Q_div_pos (a b : Z) : (0 < a)%Z -> (0 < b)%Z -> 0 < inject_Z a / inject_Z b.
Proof.
  intros Ha Hb. apply Qlt_shift_div_l.
  - change 0 with (inject_Z 0). rewrite <- Zlt_Qlt. exact Hb.
  - rewrite Qmult_0_l. change 0 with (inject_Z 0). rewrite <- Zlt_Qlt.
    exact Ha.
Qed.

Lemma view_ok_on_resize (w h : Z) (s : App Q) :
  (0 < fst (original_image s))%Z -> (0 < snd (original_image s))%Z ->
  (0 < w)%Z -> (0 < h)%Z ->
  view_ok (on_resize w h s).
Proof.
  intros HW HH Hw Hh. unfold view_ok, on_resize.
  rewrite view_core_update_input_image_preview.
  unfold view_core, core_ok. proj_simpl.
  cbn [of_int fdiv exactQ].
  pose proof (Q_div_pos Hw HW) as P1. pose proof (Q_div_pos Hh HH) as P2.
  set (a := inject_Z w / inject_Z (fst (original_image s))) in *.
  set (b := inject_Z h / inject_Z (snd (original_image s))) in *.
  assert (Hl : 0 < py_min a b)
    by (destruct (Q_py_min_cases a b) as [[_ ->] | [_ ->]]; assumption).
  set (l := py_min a b) in *.
  split; [exact Hl|]. split.
  - split; [lra|]. destruct (Q.max_spec l 50) as [[M1 M2] | [M1 M2]]; lra.
  - unfold axis_in_range. change (inject_Z 0) with 0.
    repeat split; intros; lra.
Qed.


End ExactViewport.

Local Close Scope Q_scope.

(** A wheel-up and a wheel-down event at the canvas point (100, 100). *)
Definition wheel_up : Event := mkEvent 100 100 4 0.
Definition wheel_down : Event := mkEvent 100 100 5 0.


(** A run of C4 in exact arithmetic: an 800 by 600 photograph on a 960 by
    540 canvas, zoomed, dragged, panned and zoomed out again. *)
Definition demo_view_run : App Q :=
  view_run [VZoom wheel_up; VStartPan wheel_up; VPanMouse wheel_down;
            VPanRight; VZoom wheel_down]
    (on_resize 960 540 (BackgroundRemoverGUI (800, 600))).


(** ** One zoom-in step, then one zoom-out step *)

Definition is_zoom_in (event : Event) : bool :=
  (ev_num event =? 4) || (0 <? ev_delta event).

Definition is_zoom_out (event : Event) : bool :=
  negb (is_zoom_in event) && ((ev_num event =? 5) || (ev_delta event <? 0)).

(** An 800 by 600 photograph fitted to a 960 by 540 canvas. *)
Definition fitted {F : Type} `{PyFloat F} : App F :=
  on_resize 960 540 (BackgroundRemoverGUI (800, 600)).


Section ExactZoom.
Context {PL : Pillow Q}.
Local Open Scope Q_scope.

Lemma zoom_factor_zoom (event : Event) (s : App Q) :
  zoom_factor (zoom event s) = next_zoom event s /\
  lowest_zoom_factor (zoom event s) = lowest_zoom_factor s.
Proof.
  destruct (zoom_core event s) as (x & y & E).
  unfold view_core in E. injection E; intros. split; assumption.
Qed.


End ExactZoom.


Local Close Scope Q_scope.

(** ** The slider and the thresholds *)

Section Thresholds.
Context {F : Type} {PF : PyFloat F} {PL : Pillow F}.

(** The integer threshold of whole-image mode. *)
Definition whole_threshold (val : F) : Z :=
  py_int (of_int 10 + (of_int 1 - val / of_int 100) * of_int (250 - 10))%py.

(** The threshold of prompted mode. *)
Definition sam_threshold (val : F) : F :=
  (of_int (-3) + (of_int 1 - val / of_int 100) * (of_int 2 - of_int (-3)))%py.

Lemma slider_change_whole (val : F) (s : App F) :
  sam_active s = false ->
  on_unified_slider_change val s
  = update_mask_threshold (whole_threshold val) s.
Proof. unfold on_unified_slider_change. intros ->. reflexivity. Qed.

Lemma slider_change_sam (val : F) (s : App F) :
  sam_active s = true ->
  on_unified_slider_change val s = update_sam_threshold (sam_threshold val) s.
Proof. unfold on_unified_slider_change. intros ->. reflexivity. Qed.

(** The preview of whole-image mode, pixel by pixel. *)
Lemma whole_preview_pixel (val : F) (s : App F) (raw : Image) (x y : Z) :
  sam_active s = false -> raw_model_mask s = Some raw ->
  0 <= x < g_width raw -> 0 <= y < g_height raw ->
  exists m,
    model_output_mask (on_unified_slider_change val s) = Some m /\
    size_of m = size_of raw /\
    getpixel 0 m x y
    = if whole_threshold val <? getpixel 0 raw x y then 255 else 0.
Proof.
  intros Hs Hr Hx Hy. rewrite (slider_change_whole val s Hs).
  unfold update_mask_threshold. rewrite Hr.
  eexists. split; [reflexivity|]. split; [reflexivity|].
  unfold Image_point. now rewrite getpixel_build.
Qed.

End Thresholds.

(** *** Exact arithmetic *)

Local Open Scope Q_scope.

(** The formulas of the specification. *)
Definition whole_formula (val : Q) : Q := 10 + (1 - val / 100) * 240.
Definition sam_formula (val : Q) : Q := -3 + (1 - val / 100) * 5.

Lemma whole_formula_linear (val : Q) : whole_formula val == 250 - val * (24 # 10).
Proof. unfold whole_formula. field. Qed.

Lemma sam_formula_linear (val : Q) : sam_formula val == 2 - val * (5 # 100).
Proof. unfold sam_formula. field. Qed.

Lemma Q_trunc_floor (q : Q) : 0 <= q -> Q_trunc q = Qfloor q.
Proof.
  destruct q as [n d]. unfold Qle, Q_trunc, Qfloor. cbn.
  intros H. apply Z.quot_div_nonneg; lia.
Qed.

Lemma whole_threshold_exact (val : Q) :
  0 <= val <= 100 -> whole_threshold val = Qfloor (whole_formula val).
Proof.
  intros Hv.
  change (whole_threshold val) with (Q_trunc (whole_formula val)).
  apply Q_trunc_floor. rewrite whole_formula_linear. lra.
Qed.

(** An integer is above the floor of [q] exactly when it is above [q]. *)
Lemma floor_lt_int (q : Q) (p : Z) : (Qfloor q < p)%Z <-> q < inject_Z p.
Proof.
  split.
  - intros H. eapply Qlt_le_trans; [apply Qlt_floor|].
    rewrite <- Zle_Qle. lia.
  - intros H. rewrite Zlt_Qlt. eapply Qle_lt_trans; [apply Qfloor_le|exact H].
Qed.

Section ExactThresholds.
Context {PL : Pillow Q}.


End ExactThresholds.

Local Close Scope Q_scope.

(** A run of C6: a 3 by 2 raw map, the slider at 25 and at 75. *)
Definition raw_demo : App Q :=
  run_whole_image_model (fun x y => 40 * (x + 3 * y))
    (BackgroundRemoverGUI (3, 2)).


(** *** The preview against the formulas *)

Lemma whole_included_exact `{PL : Pillow Q} (val : Q) (p : Z) :
  (0 <= val <= 100)%Q ->
  (whole_threshold val <? p) = true <-> (whole_formula val < inject_Z p)%Q.
Proof.
  intros Hv. rewrite whole_threshold_exact by exact Hv.
  rewrite Z.ltb_lt. apply floor_lt_int.
Qed.

Lemma sam_threshold_exact (val : Q) : sam_threshold val = sam_formula val.
Proof. reflexivity. Qed.

Section Formulas.
Context {F : Type} {PF : PyFloat F} {PL : Pillow F}.

Lemma sam_preview_pixel (val : F) (s : App F) (masks : Grid F) (x y : Z) :
  sam_active s = true -> raw_sam_logits s = Some masks ->
  (let '(x0, y0, x1, y1) := crop_box s in
   0 <= x0 + x < g_width masks /\ 0 <= y0 + y < g_height masks /\
   0 <= x < x1 - x0 /\ 0 <= y < y1 - y0) ->
  exists m, model_output_mask (on_unified_slider_change val s) = Some m /\
    size_of m = (box_width (crop_box s), box_height (crop_box s)) /\
    getpixel 0 m x y
    = let '(x0, y0, _, _) := crop_box s in
      if fgt (getpixel (of_int 0) masks (x0 + x) (y0 + y)) (sam_threshold val)
      then 255 else 0.
Proof.
  intros Hs Hl. destruct (crop_box s) as [[[x0 y0] x1] y1] eqn:B.
  intros (Hx & Hy & Hx' & Hy').
  rewrite (slider_change_sam val s Hs).
  unfold update_sam_threshold. rewrite Hl, B.
  unfold Image_crop.
  replace ((x1 <? x0) || (y1 <? y0)) with false
    by (symmetry; apply orb_false_iff; split; apply Z.ltb_ge; lia).
  eexists. split; [proj_simpl; reflexivity|]. split; [reflexivity|].
  rewrite getpixel_build by lia.
  cbn [g_width g_height build].
  replace ((0 <=? x + x0) && (x + x0 <? g_width masks) &&
           (0 <=? y + y0) && (y + y0 <? g_height masks)) with true.
  2:{ symmetry. rewrite !andb_true_iff, !Z.leb_le, !Z.ltb_lt. lia. }
  rewrite getpixel_build by lia.
  rewrite (Z.add_comm x x0), (Z.add_comm y y0). reflexivity.
Qed.

(** The pixels of the preview that show a pixel of the raw output of the
    model in use. *)
Definition in_preview (s : App F) (x y : Z) : Prop :=
  if sam_active s then
    match raw_sam_logits s with
    | Some masks =>
        let '(x0, y0, x1, y1) := crop_box s in
        0 <= x0 + x < g_width masks /\ 0 <= y0 + y < g_height masks /\
        0 <= x < x1 - x0 /\ 0 <= y < y1 - y0
    | None => False
    end
  else
    match raw_model_mask s with
    | Some raw => 0 <= x < g_width raw /\ 0 <= y < g_height raw
    | None => False
    end.

(** What the formulas say of the pixel the preview shows at [(x, y)]. *)
Definition above_threshold (val : F) (s : App F) (x y : Z) : Prop :=
  if sam_active s then
    match raw_sam_logits s with
    | Some masks =>
        let '(x0, y0, _, _) := crop_box s in
        fgt (getpixel (of_int 0) masks (x0 + x) (y0 + y)) (sam_threshold val)
        = true
    | None => False
    end
  else
    match raw_model_mask s with
    | Some raw => whole_threshold val < getpixel 0 raw x y
    | None => False
    end.

(** C7, as the code has it.  In whole-image mode the preview includes
    exactly the pixels of the raw map above the integer
    [int(10 + (1 - s/100) * 240)]; in SAM mode it is the viewport crop of the
    logits, and includes exactly the pixels whose logit is above
    [-3 + (1 - s/100) * 5].  Both expressions are evaluated in the arithmetic
    of the program. *)
Theorem slider_thresholds (val : F) (s : App F) (x y : Z) :
  in_preview s x y ->
  exists m, model_output_mask (on_unified_slider_change val s) = Some m /\
    (getpixel 0 m x y = 255 <-> above_threshold val s x y).
Proof.
  unfold in_preview, above_threshold.
  destruct (sam_active s) eqn:Hs.
  - destruct (raw_sam_logits s) as [masks|] eqn:Hl; [|intros []].
    intros H.
    destruct (@sam_preview_pixel val s masks x y Hs Hl H) as (m & E & _ & P).
    exists m. split; [exact E|]. rewrite P.
    destruct (crop_box s) as [[[x0 y0] x1] y1].
    destruct (fgt _ _); split; intros; try reflexivity; discriminate.
  - destruct (raw_model_mask s) as [raw|] eqn:Hr; [|intros []].
    intros [Hx Hy].
    destruct (whole_preview_pixel val s Hs Hr Hx Hy) as (m & E & _ & P).
    exists m. split; [exact E|]. rewrite P.
    destruct (Z.ltb_spec (whole_threshold val) (getpixel 0 raw x y));
      split; intros; try reflexivity; try lia; discriminate.
Qed.

End Formulas.

(** A 2 by 2 photograph whose raw map is 58 everywhere, and a click at
    abscissa 154 of the 200 pixel wide slider, which sets it to 80. *)
Definition map_58 {F : Type} `{PyFloat F} : App F :=
  run_whole_image_model (fun _ _ => 58) (BackgroundRemoverGUI (2, 2)).

(** C7 fails on the code.  At slider value 80 the formula gives the threshold
    58, which the value 58 is not above; in double precision
    [10 + (1 - 80/100) * 240] is 57.99999999999999, the code truncates it to
    57 and includes the pixel. *)
Lemma slider_80_includes_58 :
  unified_var (slider_click 200 154 (map_58 : App float)) = 80%float /\
  raw_model_mask (slider_click 200 154 (map_58 : App float))
  = Some (mkGrid 2 2 [[58; 58]; [58; 58]]) /\
  model_output_mask (slider_click 200 154 (map_58 : App float))
  = Some (mkGrid 2 2 [[255; 255]; [255; 255]]) /\
  (whole_formula 80 == 58)%Q /\
  ~ (whole_formula 80 < inject_Z 58)%Q /\
  whole_threshold 80%float = 57.
Proof.
  repeat split; try (vm_compute; reflexivity).
  vm_compute. discriminate.
Qed.

(** [slider_thresholds] on that run, and on a SAM run zoomed in once. *)
Definition sam_demo : App float :=
  generate_sam_mask
    (build 12 8 (fun x y => of_int (x - y)))
    (activate_sam_mode
       (zoom (mkEvent 60 40 4 0)
          (on_resize 120 80 (BackgroundRemoverGUI (12, 8))))).

Lemma slider_thresholds_witness :
  (in_preview (map_58 : App float) 1 1 /\
   exists m,
     model_output_mask (on_unified_slider_change 80%float map_58) = Some m /\
     (getpixel 0 m 1 1 = 255 <-> above_threshold 80%float map_58 1 1)) /\
  (in_preview sam_demo 3 2 /\
   exists m,
     model_output_mask (on_unified_slider_change 80%float sam_demo) = Some m /\
     (getpixel 0 m 3 2 = 255 <-> above_threshold 80%float sam_demo 3 2)).
Proof.
  assert (H1 : in_preview (map_58 : App float) 1 1)
    by (vm_compute; split; split; discriminate || reflexivity).
  assert (H2 : in_preview sam_demo 3 2)
    by (vm_compute; repeat split; discriminate || reflexivity).
  split; (split; [assumption|]).
  - exact (slider_thresholds 80%float map_58 1 1 H1).
  - exact (slider_thresholds 80%float sam_demo 3 2 H2).
Defined.

(** ** The size of the preview masks *)

Section PreviewSizes.
Context {F : Type} {PF : PyFloat F} {PL : Pillow F}.

(** The size of the preview, when there is one. *)
Definition preview_size (s : App F) : option (Z * Z) :=
  option_map (@size_of Z) (model_output_mask s).

Lemma paint_mask_size (s : App F) :
  size_of (generate_paint_mode_mask s) = orig_image_crop s.
Proof.
  unfold generate_paint_mode_mask. rewrite size_of_build.
  symmetry. apply surjective_pairing.
Qed.

(** Straight after the model has run, the preview has the size of the crop
    the model was handed. *)
Lemma whole_image_preview_size (net : Z -> Z -> Z) (s : App F) :
  paint_mode s = false ->
  preview_size (run_whole_image_model net s) = Some (orig_image_crop s).
Proof.
  intros Hp. unfold run_whole_image_model, preview_size. rewrite Hp.
  unfold on_unified_slider_change, update_mask_threshold, clear_coord_overlay.
  proj_simpl. destruct (orig_image_crop s). reflexivity.
Qed.

End PreviewSizes.

(** A 12 by 8 photograph on a 120 by 80 canvas (fitted at zoom 10): the
    whole-image model runs on the full view, the user zooms in once at the
    centre of the canvas, then moves the threshold slider to 80. *)
Definition zoomed_after_model : App float :=
  slider_click 200 154
    (zoom (mkEvent 60 40 4 0)
       (run_whole_image_model (fun x y => 20 * (x + y))
          (on_resize 120 80 (BackgroundRemoverGUI (12, 8))))).

(** C10 fails on the code: [zoom] recomputes the crop (10 by 7 at zoom 12)
    but keeps [raw_model_mask], and [update_mask_threshold] rebuilds the
    preview from it at the size of the old crop (12 by 8).  The paste of
    [add_to_working_image] is then refused and the mask is left as it was. *)
Lemma stale_preview_after_zoom :
  orig_image_crop zoomed_after_model = (10, 7) /\
  paste_box zoomed_after_model = (1, 0, 11, 7) /\
  preview_size zoomed_after_model = Some (12, 8) /\
  status_label (add_to_working_image zoomed_after_model)
  = "Error applying mask: images do not match"%string /\
  working_mask (add_to_working_image zoomed_after_model)
  = working_mask zoomed_after_model.
Proof. vm_compute. repeat split. Qed.
(** * Further properties of the code *)

(** ** The history over whole sessions *)

(** What the user does to the mask: an edit, an undo, a redo, or loading
    another photograph. *)
Inductive MaskOp : Type :=
| OpMutate (m : Mutation)
| OpUndo
| OpRedo
| OpLoad (image : Z * Z).

Section Sessions.
Context {F : Type} {PF : PyFloat F} {PL : Pillow F}.

Definition mask_step (s : App F) (op : MaskOp) : App F :=
  match op with
  | OpMutate m => mutate m s
  | OpUndo => undo s
  | OpRedo => redo s
  | OpLoad image => initialise_new_image image s
  end.

Definition mask_run (ops : list MaskOp) (s : App F) : App F :=
  fold_left mask_step ops s.

(** The two stacks together never hold more than [UNDO_STEPS] masks, and the
    undo stack is never empty. *)
Definition history_bounded (s : App F) : Prop :=
  (1 <= length (undo_history_mask s))%nat /\
  Z.of_nat (length (undo_history_mask s) + length (redo_history_mask s))
  <= UNDO_STEPS.

Lemma trim_length (h : list Image) (x : Image) :
  Z.of_nat (length h) <= UNDO_STEPS ->
  (1 <= length (trim (h ++ [x])))%nat /\
  Z.of_nat (length (trim (h ++ [x]))) <= UNDO_STEPS.
Proof.
  unfold trim, UNDO_STEPS. intros Hh.
  destruct (Z.ltb_spec 20 (Z.of_nat (length (h ++ [x])))) as [E|E];
    rewrite length_app in E; cbn [length] in E.
  - destruct h as [|a h]; cbn [length] in *; [lia|].
    cbn [tl app]. rewrite length_app. cbn [length]. lia.
  - rewrite length_app. cbn [length]. lia.
Qed.

Lemma split_last2 (h : list Image) :
  (2 <= length h)%nat -> exists older m top, h = (older ++ [m]) ++ [top].
Proof.
  intros Hl.
  destruct h as [|a h] using rev_ind; [cbn in Hl; lia|]. clear IHh.
  destruct h as [|b h] using rev_ind.
  - cbn in Hl. lia.
  - exists h, b, a. reflexivity.
Qed.

Lemma undo_bottom (s : App F) :
  (length (undo_history_mask s) <= 1)%nat -> undo s = s.
Proof.
  intros Hl. unfold undo.
  destruct (Z.ltb_spec 1 (Z.of_nat (length (undo_history_mask s)))); [lia|].
  reflexivity.
Qed.

Lemma history_bounded_after_commit (s s' : App F) (v : Image) :
  history_bounded s ->
  kept s' = kept (add_undo_step (with_working_mask v s)) ->
  history_bounded s'.
Proof.
  intros [H1 H2] K. unfold kept in K. injection K; intros.
  unfold history_bounded.
  repeat match goal with
         | H : undo_history_mask s' = _ |- _ => rewrite H; clear H
         | H : redo_history_mask s' = _ |- _ => rewrite H; clear H
         end.
  cbn [undo_history_mask redo_history_mask add_undo_step
       with_undo_history_mask with_redo_history_mask with_working_mask
       working_mask length].
  fold (trim (undo_history_mask s ++ [v])).
  rewrite Nat.add_0_r.
  apply trim_length. lia.
Qed.

Lemma history_bounded_mutate (m : Mutation) (s : App F) :
  history_bounded s -> history_bounded (mutate m s).
Proof.
  intros Hb.
  assert (A : forall op, history_bounded (_apply_mask_modification op s)).
  { intros op.
    destruct (current_preview s) as [mask|] eqn:Hp.
    - destruct (Image_paste (Image_new (size_of (working_mask s)) 0) mask
                            (paste_box s)) as [t|] eqn:Ht.
      + exact (history_bounded_after_commit Hb (apply_commit op s Hp Ht)).
      + rewrite (apply_mismatch op s Hp Ht). exact Hb.
    - rewrite (apply_without_preview op s Hp). exact Hb. }
  destruct m; cbn [mutate].
  - apply A.
  - apply A.
  - exact (history_bounded_after_commit Hb (kept_clear_working_image s)).
  - exact (history_bounded_after_commit Hb (kept_copy_entire_image s)).
Qed.

Lemma history_bounded_undo (s : App F) :
  history_bounded s -> history_bounded (undo s).
Proof.
  intros [H1 H2].
  destruct (Nat.le_gt_cases (length (undo_history_mask s)) 1) as [Hl|Hl].
  - rewrite undo_bottom by exact Hl. split; assumption.
  - destruct (@split_last2 (undo_history_mask s)) as (older & m & top & E);
      [lia|].
    destruct (undo_history s older m top E) as (_ & U2 & U3).
    unfold history_bounded. rewrite U2, U3.
    rewrite E in H2. rewrite !length_app in *. cbn [length] in *. lia.
Qed.

Lemma history_bounded_redo (s : App F) :
  history_bounded s -> history_bounded (redo s).
Proof.
  intros [H1 H2].
  destruct (redo_history_mask s) as [|a l] eqn:E using rev_ind.
  - unfold redo. rewrite E. split; cbn [undo_history_mask redo_history_mask
      with_status_label]; rewrite ?E; assumption.
  - clear IHl. destruct (redo_history s l a E) as (_ & R2 & R3).
    unfold history_bounded. rewrite R2, R3.
    rewrite !length_app in *. cbn [length] in *. lia.
Qed.

Ltac top_fields :=
  lazy beta iota zeta delta
    [working_mask undo_history_mask redo_history_mask
     with_working_mask with_undo_history_mask with_redo_history_mask
     with_sam_active with_raw_model_mask with_raw_sam_logits
     with_status_label].

Lemma history_load (image : Z * Z) (s : App F) :
  history_bounded (initialise_new_image image s) /\
  history_consistent (initialise_new_image image s).
Proof.
  assert (U : undo_history_mask (initialise_new_image image s)
              = [working_mask (initialise_new_image image s)])
    by (unfold initialise_new_image; top_fields; reflexivity).
  assert (R : redo_history_mask (initialise_new_image image s) = [])
    by (unfold initialise_new_image; top_fields; reflexivity).
  split.
  - unfold history_bounded. rewrite U, R. cbn [length]. unfold UNDO_STEPS.
    lia.
  - exists []. exact U.
Qed.

Lemma history_step (op : MaskOp) (s : App F) :
  history_bounded s /\ history_consistent s ->
  history_bounded (mask_step s op) /\ history_consistent (mask_step s op).
Proof.
  intros [Hb Hc]. destruct op; cbn [mask_step].
  - split; [apply history_bounded_mutate | apply history_consistent_mutate];
      assumption.
  - split; [apply history_bounded_undo | apply history_consistent_undo];
      assumption.
  - split; [apply history_bounded_redo | apply history_consistent_redo];
      assumption.
  - apply history_load.
Qed.

(** X1. Whatever the user does from start-up - edits, undo, redo, loading
    other photographs - the undo stack is never empty, its newest entry is
    the live mask, and the undo and redo stacks together hold at most
    [UNDO_STEPS] = 20 masks. *)
Theorem history_stays_bounded (image : Z * Z) (ops : list MaskOp) :
  history_bounded (mask_run ops (BackgroundRemoverGUI image)) /\
  history_consistent (mask_run ops (BackgroundRemoverGUI image)).
Proof.
  unfold mask_run.
  assert (I : history_bounded (BackgroundRemoverGUI image) /\
              history_consistent (BackgroundRemoverGUI image)).
  { split; [|apply history_consistent_init].
    assert (U : undo_history_mask (BackgroundRemoverGUI image)
                = [Image_new image 0]) by reflexivity.
    assert (R : redo_history_mask (BackgroundRemoverGUI image) = [])
      by reflexivity.
    unfold history_bounded. rewrite U, R. cbn [length]. unfold UNDO_STEPS.
    lia. }
  revert I. generalize (BackgroundRemoverGUI image).
  induction ops as [|op ops IH]; intros s I; cbn [fold_left].
  - exact I.
  - apply IH. apply history_step. exact I.
Qed.

Lemma mutate_clears_redo (m : Mutation) (s : App F) :
  commits m s = true -> redo_history_mask (mutate m s) = [].
Proof.
  intros Hc.
  assert (G : forall s' v,
              kept s' = kept (add_undo_step (with_working_mask v s)) ->
              redo_history_mask s' = []).
  { intros s' v K. unfold kept in K. injection K; intros. assumption. }
  destruct m; cbn [mutate commits] in *.
  - unfold embedded_preview in Hc.
    destruct (current_preview s) as [mask|] eqn:Hp; [|discriminate].
    destruct (Image_paste _ mask _) as [t|] eqn:Ht; [|discriminate].
    exact (G _ _ (apply_commit ImageChops_add s Hp Ht)).
  - unfold embedded_preview in Hc.
    destruct (current_preview s) as [mask|] eqn:Hp; [|discriminate].
    destruct (Image_paste _ mask _) as [t|] eqn:Ht; [|discriminate].
    exact (G _ _ (apply_commit ImageChops_subtract s Hp Ht)).
  - exact (G _ _ (kept_clear_working_image s)).
  - exact (G _ _ (kept_copy_entire_image s)).
Qed.

(** X2. An edit that goes through throws the redo stack away: a redo right
    after it only reports "Nothing to Redo". *)
Theorem edit_forgets_redo (m : Mutation) (s : App F) :
  commits m s = true ->
  redo (mutate m s) = with_status_label "Nothing to Redo" (mutate m s).
Proof.
  intros Hc. unfold redo. rewrite (mutate_clears_redo m s Hc). reflexivity.
Qed.

(** X3. Redo followed by undo is a round trip: when there is something to
    redo, the working mask and both stacks come back as they were. *)
Theorem redo_undo_restore (s : App F) :
  history_consistent s -> redo_history_mask s <> [] ->
  working_mask (undo (redo s)) = working_mask s /\
  undo_history_mask (undo (redo s)) = undo_history_mask s /\
  redo_history_mask (undo (redo s)) = redo_history_mask s.
Proof.
  intros [older Hh] Hr.
  destruct (redo_history_mask s) as [|a l] eqn:E using rev_ind;
    [contradiction|]. clear IHl.
  destruct (redo_history s l a E) as (R1 & R2 & R3).
  rewrite Hh in R2.
  destruct (undo_history (redo s) older (working_mask s) a R2)
    as (U1 & U2 & U3).
  rewrite U1, U2, U3, R3, Hh. repeat split. 
Qed.

(** X4. [n] undos in a row bring back the mask committed [n] steps ago and
    stop at the oldest mask still kept. *)
Theorem undo_n_steps (n : nat) (s : App F) :
  history_consistent s ->
  working_mask (Nat.iter n undo s)
  = nth (length (undo_history_mask s) - 1 - n) (undo_history_mask s)
        (working_mask s).
Proof.
  revert s. induction n as [|n IH]; intros s Hc.
  - cbn [Nat.iter]. destruct Hc as [older Hh]. rewrite Hh at 2.
    rewrite Hh at 1.
    rewrite length_app. cbn [length].
    replace (length older + 1 - 1 - 0)%nat with (length older) by lia.
    rewrite app_nth2 by lia. rewrite Nat.sub_diag. reflexivity.
  - rewrite Nat.iter_succ_r.
    destruct (Nat.le_gt_cases (length (undo_history_mask s)) 1) as [Hl|Hl].
    + rewrite undo_bottom by exact Hl. rewrite IH by exact Hc.
      f_equal. lia.
    + destruct (@split_last2 (undo_history_mask s)) as (older & m & top & E);
        [lia|].
      destruct (undo_history s older m top E) as (U1 & U2 & _).
      rewrite IH by (apply history_consistent_undo; exact Hc).
      rewrite U2, E. rewrite !length_app. cbn [length].
      replace (length older + 1 + 1 - 1 - S n)%nat
        with (length older + 1 - 1 - n)%nat by lia.
      rewrite (app_nth1 (older ++ [m]) [top])
        by (rewrite length_app; cbn [length]; lia).
      apply nth_indep. rewrite length_app. cbn [length]. lia.
Qed.

End Sessions.

(** Runs of X2, X3 and X4 on a 3 by 2 photograph. *)
Definition copied_then_cleared : App float :=
  mutate MutClear (mutate MutCopyAll (BackgroundRemoverGUI (3, 2))).

Lemma copied_then_cleared_consistent : history_consistent copied_then_cleared.
Proof.
  unfold copied_then_cleared.
  apply history_consistent_mutate, history_consistent_mutate,
    history_consistent_init.
Qed.

Lemma edit_forgets_redo_witness :
  commits MutAdd demo_model_run = true /\
  redo (mutate MutAdd demo_model_run)
  = with_status_label "Nothing to Redo" (mutate MutAdd demo_model_run).
Proof.
  assert (Hc : commits MutAdd demo_model_run = true)
    by (vm_compute; reflexivity).
  split; [exact Hc|].
  exact (edit_forgets_redo MutAdd demo_model_run Hc).
Defined.

Lemma redo_undo_restore_witness :
  history_consistent (undo copied_then_cleared) /\
  redo_history_mask (undo copied_then_cleared) <> [] /\
  working_mask (undo (redo (undo copied_then_cleared)))
  = working_mask (undo copied_then_cleared) /\
  undo_history_mask (undo (redo (undo copied_then_cleared)))
  = undo_history_mask (undo copied_then_cleared) /\
  redo_history_mask (undo (redo (undo copied_then_cleared)))
  = redo_history_mask (undo copied_then_cleared).
Proof.
  assert (Hh : history_consistent (undo copied_then_cleared)).
  { apply history_consistent_undo. exact copied_then_cleared_consistent. }
  assert (Hr : redo_history_mask (undo copied_then_cleared) <> [])
    by (vm_compute; discriminate).
  split; [exact Hh|]. split; [exact Hr|].
  exact (redo_undo_restore Hh Hr).
Defined.

Lemma undo_n_steps_witness :
  history_consistent copied_then_cleared /\
  working_mask (Nat.iter 2 undo copied_then_cleared)
  = nth (length (undo_history_mask copied_then_cleared) - 1 - 2)
        (undo_history_mask copied_then_cleared)
        (working_mask copied_then_cleared).
Proof.
  assert (Hh : history_consistent copied_then_cleared).
  { exact copied_then_cleared_consistent. }
  split; [exact Hh|].
  exact (undo_n_steps 2 Hh).
Defined.

(** ** What add and subtract do to the mask *)

(** A checker for [byte_image]. *)
Definition byte_imageb (im : Image) : bool :=
  (0 <=? g_width im) && (0 <=? g_height im) &&
  (length (g_rows im) =? Z.to_nat (g_height im))%nat &&
  forallb (fun r => (length r =? Z.to_nat (g_width im))%nat) (g_rows im) &&
  forallb (forallb (fun v => (0 <=? v) && (v <=? 255))) (g_rows im).

(** A preview as the program makes them: every pixel is 0 or 255. *)
Definition binary_image (im : Image) : Prop :=
  forall x y, 0 <= x < g_width im -> 0 <= y < g_height im ->
              getpixel 0 im x y = 0 \/ getpixel 0 im x y = 255.

(** A checker for [binary_image] on well-formed grids. *)
Definition binary_imageb (im : Image) : bool :=
  byte_imageb im &&
  forallb (forallb (fun v => (v =? 0) || (v =? 255))) (g_rows im).

Definition in_box (b : Box) (x y : Z) : Prop :=
  let '(x0, y0, x1, y1) := b in x0 <= x < x1 /\ y0 <= y < y1.

Lemma byte_imageb_ok (im : Image) : byte_imageb im = true -> byte_image im.
Proof.
  unfold byte_imageb. intros H.
  apply andb_prop in H. destruct H as [H H5].
  apply andb_prop in H. destruct H as [H H4].
  apply andb_prop in H. destruct H as [H H3].
  apply andb_prop in H. destruct H as [H1 H2].
  apply Z.leb_le in H1, H2. apply Nat.eqb_eq in H3.
  rewrite forallb_forall in H4, H5.
  assert (Hrows : forall r, In r (g_rows im) ->
                            length r = Z.to_nat (g_width im))
    by (intros r Hr; apply Nat.eqb_eq, H4, Hr).
  split.
  - repeat split; try assumption. apply Forall_forall. exact Hrows.
  - intros x y Hx Hy. unfold getpixel.
    replace ((x <? 0) || (y <? 0)) with false
      by (symmetry; apply orb_false_iff; split; apply Z.ltb_ge; lia).
    assert (Hin : In (nth (Z.to_nat y) (g_rows im) []) (g_rows im))
      by (apply nth_In; lia).
    specialize (H5 _ Hin). rewrite forallb_forall in H5.
    assert (Hv : In (nth (Z.to_nat x) (nth (Z.to_nat y) (g_rows im) []) 0)
                    (nth (Z.to_nat y) (g_rows im) []))
      by (apply nth_In; rewrite (Hrows _ Hin); lia).
    specialize (H5 _ Hv). apply andb_prop in H5. destruct H5 as [A B].
    apply Z.leb_le in A, B. lia.
Qed.

Lemma binary_imageb_ok (im : Image) :
  binary_imageb im = true -> binary_image im.
Proof.
  unfold binary_imageb, byte_imageb. intros H.
  apply andb_prop in H. destruct H as [H H6].
  apply andb_prop in H. destruct H as [H _].
  apply andb_prop in H. destruct H as [H H4].
  apply andb_prop in H. destruct H as [H H3].
  apply andb_prop in H. destruct H as [H1 H2].
  apply Z.leb_le in H1, H2. apply Nat.eqb_eq in H3.
  rewrite forallb_forall in H4, H6.
  assert (Hrows : forall r, In r (g_rows im) ->
                            length r = Z.to_nat (g_width im))
    by (intros r Hr; apply Nat.eqb_eq, H4, Hr).
  intros x y Hx Hy. unfold getpixel.
  replace ((x <? 0) || (y <? 0)) with false
    by (symmetry; apply orb_false_iff; split; apply Z.ltb_ge; lia).
  assert (Hin : In (nth (Z.to_nat y) (g_rows im) []) (g_rows im))
    by (apply nth_In; lia).
  specialize (H6 _ Hin). rewrite forallb_forall in H6.
  assert (Hv : In (nth (Z.to_nat x) (nth (Z.to_nat y) (g_rows im) []) 0)
                  (nth (Z.to_nat y) (g_rows im) []))
    by (apply nth_In; rewrite (Hrows _ Hin); lia).
  specialize (H6 _ Hv). apply orb_prop in H6.
  destruct H6 as [A | A]; apply Z.eqb_eq in A; [left | right]; exact A.
Qed.

Lemma byte_image_build (w h : Z) (f : Z -> Z -> Z) :
  0 <= w -> 0 <= h ->
  (forall x y, 0 <= x < w -> 0 <= y < h -> 0 <= f x y <= 255) ->
  byte_image (build w h f).
Proof.
  intros Hw Hh Hf. split; [apply wf_build; assumption|].
  cbn [g_width g_height build]. intros x y Hx Hy.
  rewrite getpixel_build by assumption. apply Hf; assumption.
Qed.

Lemma clip8_byte (v : Z) : 0 <= clip8 v <= 255.
Proof.
  unfold clip8. destruct (Z.ltb_spec v 0); [lia|].
  destruct (Z.ltb_spec 255 v); lia.
Qed.

(** The pixels of a pasted preview. *)
Lemma paste_pixel (sz : Z * Z) (src t : Image) (b : Box) (x y : Z) :
  Image_paste (Image_new sz 0) src b = Some t ->
  0 <= x < fst sz -> 0 <= y < snd sz ->
  (in_box b x y ->
   getpixel 0 t x y
   = let '(x0, y0, _, _) := b in getpixel 0 src (x - x0) (y - y0)) /\
  (~ in_box b x y -> getpixel 0 t x y = 0).
Proof.
  unfold Image_paste, in_box. destruct b as [[[x0 y0] x1] y1].
  destruct (_ && _) eqn:S; [|discriminate]. intros [= <-] Hx Hy.
  apply andb_prop in S. destruct S as [S1 S2].
  apply Z.eqb_eq in S1, S2. cbn [box_width box_height] in S1, S2.
  cbn [g_width g_height build Image_new].
  rewrite getpixel_build by assumption.
  destruct ((x0 <=? x) && (x <? x0 + g_width src) &&
            (y0 <=? y) && (y <? y0 + g_height src)) eqn:E.
  - split; [reflexivity|]. intros N. exfalso. apply N.
    apply andb_prop in E. destruct E as [E E4].
    apply andb_prop in E. destruct E as [E E3].
    apply andb_prop in E. destruct E as [E1 E2].
    apply Z.leb_le in E1, E3. apply Z.ltb_lt in E2, E4. lia.
  - split.
    + intros [[A B] [C D]]. exfalso.
      assert (E' : (x0 <=? x) && (x <? x0 + g_width src) &&
                   (y0 <=? y) && (y <? y0 + g_height src) = true).
      { rewrite !andb_true_iff, !Z.leb_le, !Z.ltb_lt. lia. }
      congruence.
    + intros _. unfold Image_new. apply getpixel_build; assumption.
Qed.

(** [ImageChops.add] and [ImageChops.subtract] at once: [a + sign * b],
    clipped. *)
Definition chops_signed (sign : Z) (a b : Image) : Image :=
  build (Z.min (g_width a) (g_width b)) (Z.min (g_height a) (g_height b))
        (fun x y => clip8 (getpixel 0 a x y + sign * getpixel 0 b x y)).

Section Compositor.
Context {F : Type} {PF : PyFloat F} {PL : Pillow F}.

(** The working mask after an add or subtract that goes through. *)
Lemma apply_working_mask (op : Image -> Image -> Image) (s : App F)
      (mask t : Image) :
  current_preview s = Some mask ->
  Image_paste (Image_new (size_of (working_mask s)) 0) mask (paste_box s)
  = Some t ->
  working_mask (_apply_mask_modification op s) = op (working_mask s) t /\
  current_preview (_apply_mask_modification op s) = Some mask /\
  paste_box (_apply_mask_modification op s) = paste_box s.
Proof.
  intros Hp Ht. pose proof (apply_commit op s Hp Ht) as K.
  destruct (kept_preview K) as [Kp Kb].
  split; [|split].
  - unfold kept in K. injection K; intros. assumption.
  - rewrite Kp. exact Hp.
  - rewrite Kb. reflexivity.
Qed.

(** X5. Add and subtract never touch the mask outside of the viewport: a
    pixel of the photograph that lies outside the paste box keeps its
    value. *)
Theorem edit_stays_in_viewport (s : App F) (x y : Z) :
  byte_image (working_mask s) ->
  0 <= x < g_width (working_mask s) -> 0 <= y < g_height (working_mask s) ->
  ~ in_box (paste_box s) x y ->
  getpixel 0 (working_mask (add_to_working_image s)) x y
  = getpixel 0 (working_mask s) x y /\
  getpixel 0 (working_mask (subtract_from_working_image s)) x y
  = getpixel 0 (working_mask s) x y.
Proof.
  intros [_ Hm] Hx Hy Hout.
  unfold add_to_working_image, subtract_from_working_image.
  destruct (current_preview s) as [p|] eqn:Ep.
  2:{ rewrite !apply_without_preview by exact Ep. split; reflexivity. }
  destruct (Image_paste (Image_new (size_of (working_mask s)) 0) p (paste_box s))
    as [t|] eqn:Et.
  2:{ rewrite !(apply_mismatch _ s Ep Et). split; reflexivity. }
  destruct (apply_working_mask ImageChops_add s Ep Et) as (-> & _).
  destruct (apply_working_mask ImageChops_subtract s Ep Et) as (-> & _).
  pose proof (paste_size _ _ _ Et) as Hsz.
  change (size_of (Image_new (size_of (working_mask s)) 0))
    with (size_of (working_mask s)) in Hsz.
  unfold size_of in Hsz. injection Hsz as Hw Hh.
  destruct (@paste_pixel _ _ _ _ x y Et Hx Hy) as [_ Z0].
  specialize (Z0 Hout). specialize (Hm x y Hx Hy).
  unfold ImageChops_add, ImageChops_subtract.
  rewrite Hw, Hh, !Z.min_id.
  rewrite !getpixel_build by assumption.
  rewrite Z0, Z.add_0_r, Z.sub_0_r.
  split; apply clip8_id; exact Hm.
Qed.

Lemma pasted_binary (s : App F) (p t : Image) (x y : Z) :
  binary_image p ->
  Image_paste (Image_new (size_of (working_mask s)) 0) p (paste_box s)
  = Some t ->
  0 <= x < g_width (working_mask s) -> 0 <= y < g_height (working_mask s) ->
  getpixel 0 t x y = 0 \/ getpixel 0 t x y = 255.
Proof.
  intros Hp Et Hx Hy.
  pose proof Et as Et'. unfold Image_paste in Et'.
  destruct (paste_box s) as [[[x0 y0] x1] y1] eqn:B.
  destruct (_ && _) eqn:S; [|discriminate]. injection Et' as <-.
  cbn [g_width g_height build Image_new size_of fst snd].
  rewrite getpixel_build by assumption.
  destruct ((x0 <=? x) && (x <? x0 + g_width p) &&
            (y0 <=? y) && (y <? y0 + g_height p)) eqn:E.
  - apply andb_prop in E. destruct E as [E E4].
    apply andb_prop in E. destruct E as [E E3].
    apply andb_prop in E. destruct E as [E1 E2].
    apply Z.leb_le in E1, E3. apply Z.ltb_lt in E2, E4.
    apply Hp; lia.
  - left. unfold Image_new. apply getpixel_build; assumption.
Qed.

(** X6. With a preview of 0s and 255s, add and subtract are idempotent:
    applying the same preview a second time leaves the mask as the first
    application made it. *)
Theorem edit_twice_is_once (s : App F) :
  byte_image (working_mask s) ->
  (forall p, current_preview s = Some p -> binary_image p) ->
  working_mask (add_to_working_image (add_to_working_image s))
  = working_mask (add_to_working_image s) /\
  working_mask (subtract_from_working_image (subtract_from_working_image s))
  = working_mask (subtract_from_working_image s).
Proof.
  intros [Hwf Hm] Hbin.
  unfold add_to_working_image, subtract_from_working_image.
  destruct (current_preview s) as [p|] eqn:Ep.
  2:{ assert (N : forall op,
                working_mask (_apply_mask_modification op
                                (_apply_mask_modification op s))
                = working_mask (_apply_mask_modification op s)).
      { intros op. rewrite (apply_without_preview op s Ep).
        rewrite apply_without_preview by exact Ep. reflexivity. }
      split; apply N. }
  destruct (Image_paste (Image_new (size_of (working_mask s)) 0) p (paste_box s))
    as [t|] eqn:Et.
  2:{ assert (N : forall op,
                working_mask (_apply_mask_modification op
                                (_apply_mask_modification op s))
                = working_mask (_apply_mask_modification op s)).
      { intros op. rewrite (apply_mismatch op s Ep Et).
        rewrite (@apply_mismatch _ _ _ op (with_status_label _ s) p Ep Et).
        reflexivity. }
      split; apply N. }
  specialize (Hbin p eq_refl).
  pose proof (paste_size _ _ _ Et) as Hsz.
  change (size_of (Image_new (size_of (working_mask s)) 0))
    with (size_of (working_mask s)) in Hsz.
  pose proof Hsz as Hsz'. unfold size_of in Hsz'. injection Hsz' as Hw Hh.
  assert (G : forall sign op,
            sign = 1 \/ sign = -1 ->
            (forall a b, op a b = chops_signed sign a b) ->
            working_mask (_apply_mask_modification op
                            (_apply_mask_modification op s))
            = working_mask (_apply_mask_modification op s)).
  { intros sign op Hsign Hop.
    destruct (apply_working_mask op s Ep Et) as (W1 & P1 & B1).
    set (s1 := _apply_mask_modification op s) in *.
    assert (Sz1 : size_of (working_mask s1) = size_of (working_mask s)).
    { rewrite W1, Hop. unfold size_of, chops_signed.
      cbn [g_width g_height build].
      rewrite Hw, Hh, !Z.min_id. reflexivity. }
    assert (Et1 : Image_paste (Image_new (size_of (working_mask s1)) 0) p
                              (paste_box s1) = Some t)
      by (rewrite Sz1, B1; exact Et).
    destruct (apply_working_mask op s1 P1 Et1) as (W2 & _).
    rewrite W2, W1. rewrite !Hop. unfold chops_signed.
    cbn [g_width g_height build]. rewrite Hw, Hh, !Z.min_id.
    apply build_ext. intros x y Hx Hy.
    rewrite getpixel_build by assumption.
    specialize (Hm x y Hx Hy).
    destruct (@pasted_binary s p t x y Hbin Et Hx Hy) as [-> | ->];
      destruct Hsign as [-> | ->]; unfold clip8;
      repeat match goal with
             | |- context [?a <? ?b] => destruct (Z.ltb_spec a b)
             end; lia. }
  split.
  - apply (G 1); [left; reflexivity|]. intros a b.
    unfold ImageChops_add, chops_signed. apply build_ext.
    intros x y _ _. apply (f_equal clip8). lia.
  - apply (G (-1)); [right; reflexivity|]. intros a b.
    unfold ImageChops_subtract, chops_signed. apply build_ext.
    intros x y _ _. apply (f_equal clip8). lia.
Qed.

End Compositor.

(** A 12 by 8 photograph on a 120 by 80 canvas, zoomed in once at the centre
    (the view is then the box from (1, 0) to (11, 7)), with everything
    selected and the whole-image model run on the view. *)
Definition zoomed_model_run : App float :=
  run_whole_image_model (fun x y => 20 * (x + y))
    (zoom (mkEvent 60 40 4 0)
       (copy_entire_image (on_resize 120 80 (BackgroundRemoverGUI (12, 8))))).

Lemma zoomed_model_run_box : paste_box zoomed_model_run = (1, 0, 11, 7).
Proof. vm_compute. reflexivity. Qed.

Lemma zoomed_model_run_bytes : byte_image (working_mask zoomed_model_run).
Proof. apply byte_imageb_ok. vm_compute. reflexivity. Qed.

Lemma edit_stays_in_viewport_witness :
  byte_image (working_mask zoomed_model_run) /\
  ~ in_box (paste_box zoomed_model_run) 0 3 /\
  getpixel 0 (working_mask (add_to_working_image zoomed_model_run)) 0 3
  = getpixel 0 (working_mask zoomed_model_run) 0 3 /\
  getpixel 0 (working_mask (subtract_from_working_image zoomed_model_run)) 0 3
  = getpixel 0 (working_mask zoomed_model_run) 0 3.
Proof.
  assert (Hx : 0 <= 0 < g_width (working_mask zoomed_model_run))
    by (vm_compute; split; [discriminate | reflexivity]).
  assert (Hy : 0 <= 3 < g_height (working_mask zoomed_model_run))
    by (vm_compute; split; [discriminate | reflexivity]).
  assert (Ho : ~ in_box (paste_box zoomed_model_run) 0 3)
    by (rewrite zoomed_model_run_box; unfold in_box; lia).
  split; [exact zoomed_model_run_bytes|]. split; [exact Ho|].
  exact (edit_stays_in_viewport zoomed_model_run_bytes Hx Hy Ho).
Defined.

Lemma edit_twice_is_once_witness :
  byte_image (working_mask zoomed_model_run) /\
  (forall p, current_preview zoomed_model_run = Some p -> binary_image p) /\
  working_mask (add_to_working_image (add_to_working_image zoomed_model_run))
  = working_mask (add_to_working_image zoomed_model_run) /\
  working_mask (subtract_from_working_image
                  (subtract_from_working_image zoomed_model_run))
  = working_mask (subtract_from_working_image zoomed_model_run).
Proof.
  assert (Hb : forall p, current_preview zoomed_model_run = Some p ->
                         binary_image p).
  { intros p E. vm_compute in E. injection E as <-.
    apply binary_imageb_ok. vm_compute. reflexivity. }
  split; [exact zoomed_model_run_bytes|]. split; [exact Hb|].
  exact (@edit_twice_is_once _ _ _ zoomed_model_run zoomed_model_run_bytes Hb).
Defined.

(** ** The masks at hand *)

(** Reading one field through a pile of field updates. *)
Tactic Notation "read_field" reference(p) :=
  cbn [p
  with_working_mask with_working_image with_undo_history_mask
  with_redo_history_mask with_cached_blurred_shadow with_last_shadow_radius
  with_cached_blur_image with_canvas_w with_canvas_h with_zoom_factor
  with_lowest_zoom_factor with_view_x with_view_y with_pan_step
  with_min_zoom with_orig_image_crop with_panning with_pan_start_x
  with_pan_start_y with_model_output_mask with_raw_model_mask
  with_raw_sam_logits with_sam_active with_lines with_unified_var
  with_bg_mode with_export_format with_enable_shadow_var
  with_soften_mask_var with_status_label with_output_displayed
  with_saved_files with_original_image].

(** A mask that fits the photograph of size [image]: bytes, and of that
    size. *)
Definition mask_ok (image : Z * Z) (m : Image) : Prop :=
  byte_image m /\ size_of m = image.

(** A photograph has a width and a height (possibly zero). *)
Definition loads_image (op : MaskOp) : Prop :=
  match op with
  | OpLoad image => 0 <= fst image /\ 0 <= snd image
  | _ => True
  end.

Lemma mask_ok_new (image : Z * Z) (c : Z) :
  0 <= fst image -> 0 <= snd image -> 0 <= c <= 255 ->
  mask_ok image (Image_new image c).
Proof.
  intros Hw Hh Hc. split.
  - apply byte_image_build; try assumption. intros; exact Hc.
  - unfold Image_new. rewrite size_of_build. symmetry.
    apply surjective_pairing.
Qed.

Lemma mask_ok_nonneg (image : Z * Z) (m : Image) :
  mask_ok image m -> 0 <= fst image /\ 0 <= snd image.
Proof.
  intros [[(Hw & Hh & _) _] <-]. split; assumption.
Qed.

Lemma mask_ok_chops (sign : Z) (image : Z * Z) (m t : Image) :
  mask_ok image m -> size_of t = size_of m ->
  mask_ok image (chops_signed sign m t).
Proof.
  intros Hm Hsz. pose proof Hm as [[(Hw & Hh & _) _] Hs].
  unfold size_of in Hsz. injection Hsz as Ew Eh.
  unfold chops_signed. rewrite Ew, Eh, !Z.min_id. split.
  - apply byte_image_build; try assumption. intros. apply clip8_byte.
  - rewrite size_of_build. exact Hs.
Qed.

Lemma chops_signed_add (a b : Image) :
  ImageChops_add a b = chops_signed 1 a b.
Proof.
  unfold ImageChops_add, chops_signed. apply build_ext.
  intros x y _ _. apply (f_equal clip8). lia.
Qed.

Lemma chops_signed_subtract (a b : Image) :
  ImageChops_subtract a b = chops_signed (-1) a b.
Proof.
  unfold ImageChops_subtract, chops_signed. apply build_ext.
  intros x y _ _. apply (f_equal clip8). lia.
Qed.

Section MasksAtHand.
Context {F : Type} {PF : PyFloat F} {PL : Pillow F}.

(** The live mask and every mask on the two stacks fit the photograph. *)
Definition masks_ok (s : App F) : Prop :=
  mask_ok (original_image s) (working_mask s) /\
  Forall (mask_ok (original_image s)) (undo_history_mask s) /\
  Forall (mask_ok (original_image s)) (redo_history_mask s).

Lemma Forall_trim (P : Image -> Prop) (h : list Image) :
  Forall P h -> Forall P (trim h).
Proof.
  unfold trim. intros H. destruct (_ <? _); [|exact H].
  destruct h; [exact H|]. cbn [tl]. inversion H; assumption.
Qed.

Lemma masks_ok_after_commit (s s' : App F) (v : Image) :
  masks_ok s -> mask_ok (original_image s) v ->
  kept s' = kept (add_undo_step (with_working_mask v s)) ->
  masks_ok s'.
Proof.
  intros (Hm & Hu & Hr) Hv K. unfold kept in K. injection K; intros.
  unfold masks_ok.
  repeat match goal with
         | H : undo_history_mask s' = _ |- _ => rewrite H; clear H
         | H : redo_history_mask s' = _ |- _ => rewrite H; clear H
         | H : working_mask s' = _ |- _ => rewrite H; clear H
         | H : original_image s' = _ |- _ => rewrite H; clear H
         end.
  change (original_image (add_undo_step (with_working_mask v s)))
    with (original_image s).
  change (working_mask (add_undo_step (with_working_mask v s))) with v.
  change (redo_history_mask (add_undo_step (with_working_mask v s)))
    with (@nil Image).
  change (undo_history_mask (add_undo_step (with_working_mask v s)))
    with (trim (undo_history_mask s ++ [v])).
  split; [exact Hv|]. split; [|constructor].
  apply Forall_trim. apply Forall_app. split; [exact Hu|].
  constructor; [exact Hv|constructor].
Qed.

Lemma masks_ok_mutate (m : Mutation) (s : App F) :
  masks_ok s -> masks_ok (mutate m s).
Proof.
  intros Hok. pose proof Hok as (Hm & _).
  destruct (mask_ok_nonneg Hm) as [Hw Hh].
  assert (A : forall sign op, (forall a b, op a b = chops_signed sign a b) ->
                              masks_ok (_apply_mask_modification op s)).
  { intros sign op Hop.
    destruct (current_preview s) as [mask|] eqn:Hp.
    - destruct (Image_paste (Image_new (size_of (working_mask s)) 0) mask
                            (paste_box s)) as [t|] eqn:Ht.
      + apply (masks_ok_after_commit Hok (v := op (working_mask s) t));
          [|exact (apply_commit op s Hp Ht)].
        rewrite Hop. apply mask_ok_chops; [exact Hm|].
        exact (paste_size _ _ _ Ht).
      + rewrite (apply_mismatch op s Hp Ht). exact Hok.
    - rewrite (apply_without_preview op s Hp). exact Hok. }
  destruct m; cbn [mutate].
  - exact (A 1 _ chops_signed_add).
  - exact (A (-1) _ chops_signed_subtract).
  - apply (masks_ok_after_commit Hok (v := Image_new (original_image s) 0));
      [|exact (kept_clear_working_image s)].
    apply mask_ok_new; lia.
  - apply (masks_ok_after_commit Hok (v := Image_new (original_image s) 255));
      [|exact (kept_copy_entire_image s)].
    apply mask_ok_new; lia.
Qed.

Lemma original_image_add_drop_shadow (s : App F) :
  original_image (add_drop_shadow s) = original_image s.
Proof. use_kept (kept_add_drop_shadow s). assumption. Qed.

Lemma original_image_undo (s : App F) :
  original_image (undo s) = original_image s.
Proof.
  unfold undo. destruct (_ <? _); [|reflexivity].
  change (original_image (with_status_label ?l ?x)) with (original_image x).
  rewrite original_image_add_drop_shadow.
  destruct (_ =? _)%string; reflexivity.
Qed.

Lemma original_image_redo (s : App F) :
  original_image (redo s) = original_image s.
Proof.
  unfold redo. destruct (redo_history_mask s); [reflexivity|].
  change (original_image (with_status_label ?l ?x)) with (original_image x).
  rewrite original_image_add_drop_shadow.
  destruct (_ =? _)%string; reflexivity.
Qed.

Lemma masks_ok_undo (s : App F) : masks_ok s -> masks_ok (undo s).
Proof.
  intros (Hm & Hu & Hr).
  destruct (Nat.le_gt_cases (length (undo_history_mask s)) 1) as [Hl|Hl].
  - rewrite undo_bottom by exact Hl.
    split; [exact Hm | split; [exact Hu | exact Hr]].
  - destruct (@split_last2 (undo_history_mask s)) as (older & m & top & E);
      [lia|].
    destruct (undo_history s older m top E) as (U1 & U2 & U3).
    unfold masks_ok. rewrite U1, U2, U3, original_image_undo.
    rewrite E in Hu. apply Forall_app in Hu. destruct Hu as [Hu Ht].
    pose proof Hu as Hu'. apply Forall_app in Hu'. destruct Hu' as [_ Hm'].
    inversion Hm'; subst. split; [assumption|]. split; [exact Hu|].
    apply Forall_app. split; assumption.
Qed.

Lemma masks_ok_redo (s : App F) : masks_ok s -> masks_ok (redo s).
Proof.
  intros (Hm & Hu & Hr).
  destruct (redo_history_mask s) as [|a l] eqn:E using rev_ind.
  - unfold redo. rewrite E. unfold masks_ok.
    change (original_image (with_status_label ?l ?x)) with (original_image x).
    change (working_mask (with_status_label ?l ?x)) with (working_mask x).
    change (undo_history_mask (with_status_label ?l ?x))
      with (undo_history_mask x).
    change (redo_history_mask (with_status_label ?l ?x))
      with (redo_history_mask x).
    rewrite E. split; [exact Hm | split; [exact Hu | exact Hr]].
  - clear IHl. destruct (redo_history s l a E) as (R1 & R2 & R3).
    unfold masks_ok. rewrite R1, R2, R3, original_image_redo.
    apply Forall_app in Hr. destruct Hr as [Hl Ha].
    inversion Ha; subst. split; [assumption|]. split; [|exact Hl].
    apply Forall_app. split; [exact Hu|]. constructor; [assumption|constructor].
Qed.

Lemma original_image_update_output_image_preview (s : App F) :
  original_image (update_output_image_preview s) = original_image s.
Proof. use_kept (kept_update_output_image_preview s). assumption. Qed.

Lemma initialise_new_image_steps (image : Z * Z) (s : App F) :
  initialise_new_image image s
  = let s5 :=
      clear_coord_overlay
        (update_input_image_preview
           (setup_image_display
              (with_cached_blur_image None (with_original_image image s)))) in
    let s6 := with_working_image (Blank (original_image s5)) s5 in
    let s7 := with_working_mask (Image_new (original_image s6) 0) s6 in
    with_raw_sam_logits None
      (with_raw_model_mask None
         (with_sam_active false
            (with_redo_history_mask []
               (with_undo_history_mask [working_mask s7] s7)))).
Proof. reflexivity. Qed.

Lemma original_image_setup_image_display (s : App F) :
  original_image (setup_image_display s) = original_image s.
Proof. reflexivity. Qed.

Lemma original_image_update_input_image_preview (s : App F) :
  original_image (update_input_image_preview s) = original_image s.
Proof.
  unfold update_input_image_preview.
  rewrite original_image_update_output_image_preview. reflexivity.
Qed.

Lemma original_image_clear_coord_overlay (s : App F) :
  original_image (clear_coord_overlay s) = original_image s.
Proof. reflexivity. Qed.

Lemma load_fields (s5 : App F) :
  let s6 := with_working_image (Blank (original_image s5)) s5 in
  let s7 := with_working_mask (Image_new (original_image s6) 0) s6 in
  let s' :=
    with_raw_sam_logits None
      (with_raw_model_mask None
         (with_sam_active false
            (with_redo_history_mask []
               (with_undo_history_mask [working_mask s7] s7)))) in
  original_image s' = original_image s5 /\
  working_mask s' = Image_new (original_image s5) 0 /\
  undo_history_mask s' = [Image_new (original_image s5) 0] /\
  redo_history_mask s' = [].
Proof. repeat split. Qed.

Lemma load_history (image : Z * Z) (s : App F) :
  original_image (initialise_new_image image s) = image /\
  working_mask (initialise_new_image image s) = Image_new image 0 /\
  undo_history_mask (initialise_new_image image s) = [Image_new image 0] /\
  redo_history_mask (initialise_new_image image s) = [].
Proof.
  rewrite initialise_new_image_steps.
  pose proof (load_fields
                (clear_coord_overlay
                   (update_input_image_preview
                      (setup_image_display
                         (with_cached_blur_image None
                            (with_original_image image s)))))) as L.
  cbv zeta in L |- *. destruct L as (L1 & L2 & L3 & L4).
  rewrite L1, L2, L3, L4.
  rewrite original_image_clear_coord_overlay,
    original_image_update_input_image_preview,
    original_image_setup_image_display.
  repeat split.
Qed.

Lemma masks_ok_load (image : Z * Z) (s : App F) :
  0 <= fst image -> 0 <= snd image ->
  masks_ok (initialise_new_image image s).
Proof.
  intros Hw Hh.
  destruct (load_history image s) as (O & W & U & R).
  unfold masks_ok. rewrite U, R, W, O.
  assert (M : mask_ok image (Image_new image 0)) by (apply mask_ok_new; lia).
  split; [exact M|]. split; [|constructor].
  constructor; [exact M|constructor].
Qed.

Lemma masks_ok_init (image : Z * Z) :
  0 <= fst image -> 0 <= snd image ->
  masks_ok (BackgroundRemoverGUI image).
Proof.
  intros Hw Hh.
  assert (O : original_image (BackgroundRemoverGUI image) = image)
    by reflexivity.
  assert (W : working_mask (BackgroundRemoverGUI image) = Image_new image 0)
    by reflexivity.
  assert (U : undo_history_mask (BackgroundRemoverGUI image)
              = [Image_new image 0]) by reflexivity.
  assert (R : redo_history_mask (BackgroundRemoverGUI image) = [])
    by reflexivity.
  unfold masks_ok. rewrite U, R, W, O.
  assert (M : mask_ok image (Image_new image 0)) by (apply mask_ok_new; lia).
  split; [exact M|]. split; [|constructor].
  constructor; [exact M|constructor].
Qed.

(** X7. Over a whole session the live mask, and every mask on the undo and
    redo stacks, is a well-formed image of bytes of exactly the size of the
    photograph being edited. *)
Theorem masks_fit_photograph (image : Z * Z) (ops : list MaskOp) :
  0 <= fst image -> 0 <= snd image -> Forall loads_image ops ->
  masks_ok (mask_run ops (BackgroundRemoverGUI image)).
Proof.
  intros Hw Hh Hops. unfold mask_run.
  pose proof (@masks_ok_init image Hw Hh) as I.
  revert I. generalize (BackgroundRemoverGUI image).
  induction Hops as [|op ops Hop Hops IH]; intros s I; cbn [fold_left].
  - exact I.
  - apply IH. destruct op; cbn [mask_step].
    + apply masks_ok_mutate; exact I.
    + apply masks_ok_undo; exact I.
    + apply masks_ok_redo; exact I.
    + destruct Hop. apply masks_ok_load; assumption.
Qed.

End MasksAtHand.

Lemma masks_fit_photograph_witness :
  Forall loads_image
    [OpMutate MutCopyAll; OpUndo; OpLoad (4, 3); OpMutate MutClear; OpRedo] /\
  masks_ok
    (mask_run
       [OpMutate MutCopyAll; OpUndo; OpLoad (4, 3); OpMutate MutClear; OpRedo]
       (BackgroundRemoverGUI (3, 2) : App float)).
Proof.
  assert (H : Forall loads_image
                [OpMutate MutCopyAll; OpUndo; OpLoad (4, 3);
                 OpMutate MutClear; OpRedo])
    by (repeat constructor; cbn; lia).
  split; [exact H|].
  refine (@masks_fit_photograph float _ _ (3, 2) _ _ _ H); cbn; lia.
Defined.

(** ** Clearing the visible area *)

Section ClearVisible.
Context {F : Type} {PF : PyFloat F} {PL : Pillow F}.

(** X8. Outside of paint mode, and when the paste box has the size of the
    visible crop, [clear_visible_area] sets the mask to 0 on the visible part
    of the photograph, leaves the rest of the mask as it was, and puts the
    preview mask back. *)
Theorem clear_visible_area_clears (s : App F) (x y : Z) :
  paint_mode s = false ->
  byte_image (working_mask s) ->
  box_width (paste_box s) = fst (orig_image_crop s) ->
  box_height (paste_box s) = snd (orig_image_crop s) ->
  0 <= x < g_width (working_mask s) -> 0 <= y < g_height (working_mask s) ->
  model_output_mask (clear_visible_area s) = model_output_mask s /\
  (in_box (paste_box s) x y ->
   getpixel 0 (working_mask (clear_visible_area s)) x y = 0) /\
  (~ in_box (paste_box s) x y ->
   getpixel 0 (working_mask (clear_visible_area s)) x y
   = getpixel 0 (working_mask s) x y).
Proof.
  intros Hpm [_ Hm] Hbw Hbh Hx Hy.
  unfold clear_visible_area, subtract_from_working_image.
  set (white := Image_new (orig_image_crop s) 255).
  set (s1 := with_model_output_mask (Some white) s).
  assert (Ep : current_preview s1 = Some white)
    by (unfold current_preview; change (paint_mode s1) with (paint_mode s);
        rewrite Hpm; reflexivity).
  assert (Eb : paste_box s1 = paste_box s) by reflexivity.
  assert (Ew : working_mask s1 = working_mask s) by reflexivity.
  destruct (Image_paste (Image_new (size_of (working_mask s1)) 0) white
                        (paste_box s1)) as [t|] eqn:Et.
  2:{ exfalso. unfold Image_paste in Et. rewrite Eb in Et.
      destruct (paste_box s) as [[[x0 y0] x1] y1].
      replace (box_width (x0, y0, x1, y1) =? g_width white) with true in Et
        by (symmetry; apply Z.eqb_eq; exact Hbw).
      replace (box_height (x0, y0, x1, y1) =? g_height white) with true in Et
        by (symmetry; apply Z.eqb_eq; exact Hbh).
      discriminate. }
  destruct (apply_working_mask ImageChops_subtract s1 Ep Et) as (W & _).
  split; [reflexivity|].
  change (working_mask (with_model_output_mask ?v ?z)) with (working_mask z).
  rewrite W, Ew.
  pose proof (paste_size _ _ _ Et) as Hsz.
  change (size_of (Image_new (size_of (working_mask s1)) 0))
    with (size_of (working_mask s)) in Hsz.
  unfold size_of in Hsz. injection Hsz as Hw Hh.
  rewrite Ew, Eb in Et.
  destruct (@paste_pixel _ _ _ _ x y Et Hx Hy) as [Zin Zout].
  unfold ImageChops_subtract. rewrite Hw, Hh, !Z.min_id.
  rewrite !getpixel_build by assumption.
  specialize (Hm x y Hx Hy).
  split.
  - intros Hin. rewrite (Zin Hin).
    unfold in_box in Hin. unfold box_width, box_height in Hbw, Hbh.
    destruct (paste_box s) as [[[x0 y0] x1] y1].
    unfold white, Image_new. rewrite getpixel_build by lia.
    unfold clip8. destruct (Z.ltb_spec (getpixel 0 (working_mask s) x y - 255) 0);
      [reflexivity|].
    destruct (Z.ltb_spec 255 (getpixel 0 (working_mask s) x y - 255)); lia.
  - intros Hout. rewrite (Zout Hout), Z.sub_0_r. apply clip8_id. exact Hm.
Qed.

End ClearVisible.

Lemma clear_visible_area_clears_witness :
  paint_mode zoomed_model_run = false /\
  byte_image (working_mask zoomed_model_run) /\
  box_width (paste_box zoomed_model_run) = fst (orig_image_crop zoomed_model_run) /\
  box_height (paste_box zoomed_model_run) = snd (orig_image_crop zoomed_model_run) /\
  in_box (paste_box zoomed_model_run) 4 3 /\
  getpixel 0 (working_mask zoomed_model_run) 4 3 = 255 /\
  model_output_mask (clear_visible_area zoomed_model_run)
  = model_output_mask zoomed_model_run /\
  (in_box (paste_box zoomed_model_run) 4 3 ->
   getpixel 0 (working_mask (clear_visible_area zoomed_model_run)) 4 3 = 0) /\
  (~ in_box (paste_box zoomed_model_run) 4 3 ->
   getpixel 0 (working_mask (clear_visible_area zoomed_model_run)) 4 3
   = getpixel 0 (working_mask zoomed_model_run) 4 3).
Proof.
  assert (Hp : paint_mode zoomed_model_run = false)
    by (vm_compute; reflexivity).
  assert (Hw : box_width (paste_box zoomed_model_run)
               = fst (orig_image_crop zoomed_model_run))
    by (vm_compute; reflexivity).
  assert (Hh : box_height (paste_box zoomed_model_run)
               = snd (orig_image_crop zoomed_model_run))
    by (vm_compute; reflexivity).
  assert (Hx : 0 <= 4 < g_width (working_mask zoomed_model_run))
    by (vm_compute; split; [discriminate | reflexivity]).
  assert (Hy : 0 <= 3 < g_height (working_mask zoomed_model_run))
    by (vm_compute; split; [discriminate | reflexivity]).
  split; [exact Hp|]. split; [exact zoomed_model_run_bytes|].
  split; [exact Hw|]. split; [exact Hh|].
  split; [rewrite zoomed_model_run_box; unfold in_box; lia|].
  split; [vm_compute; reflexivity|].
  exact (@clear_visible_area_clears _ _ _ zoomed_model_run 4 3 Hp
           zoomed_model_run_bytes Hw Hh Hx Hy).
Defined.

(** ** The visible crop *)

Section VisibleCrop.
Context {F : Type} {PF : PyFloat F} {PL : Pillow F}.

(** [_calculate_preview_image] reads the canvas, the zoom factor and the
    origin of the view. *)
Definition crop_size (image : Z * Z) (cw ch : Z) (z vx vy : F) : Z * Z :=
  (py_int (vx + of_int (Z.min (math_ceil (of_int cw / z)%py) (fst image)))%py
   - py_int vx,
   py_int (vy + of_int (Z.min (math_ceil (of_int ch / z)%py) (snd image)))%py
   - py_int vy).

(** The state [zoom] has written when it decides whether to re-render. *)
Definition zoom_written (event : Event) (s : App F) : App F :=
  let zoomed_in :=
    ((ev_num event =? 4) || (0 <? ev_delta event)) &&
    (zoom_factor s * DEFAULT_ZOOM_FACTOR <=? MAX_ZOOM_FACTOR)%py in
  let s0 := with_pan_step (of_int 30 / zoom_factor s)%py s in
  let s1 := if zoomed_in then with_min_zoom false s0 else s0 in
  let s2 := with_zoom_factor (next_zoom event s) s1 in
  let s3 :=
    with_view_x
      (clamp_view_x (view_x s + of_int (ev_x event) / zoom_factor s
                     - of_int (ev_x event) / zoom_factor s2)%py s2) s2 in
  with_view_y
    (clamp_view_y (view_y s + of_int (ev_y event) / zoom_factor s
                   - of_int (ev_y event) / zoom_factor s3)%py s3) s3.

(** The recorded crop is the crop of the current view. *)
Definition crop_synced (s : App F) : Prop :=
  orig_image_crop s = _calculate_preview_image (original_image s) s.

Lemma calculate_preview_image_crop_size (image : Z * Z) (s : App F) :
  _calculate_preview_image image s
  = crop_size image (canvas_w s) (canvas_h s) (zoom_factor s)
              (view_x s) (view_y s).
Proof. reflexivity. Qed.

Lemma zoom_steps (event : Event) (s : App F) :
  zoom event s
  = let s3 := zoom_written event s in
    let s4 := if negb (min_zoom s3)
              then clear_coord_overlay (update_input_image_preview s3)
              else s3 in
    if (lowest_zoom_factor s4 ==? zoom_factor s4)%py
    then with_min_zoom true s4 else s4.
Proof.
  unfold zoom, zoom_written, next_zoom.
  change (zoom_factor (with_pan_step (of_int 30 / zoom_factor s)%py s))
    with (zoom_factor s).
  destruct ((ev_num event =? 4) || (0 <? ev_delta event));
    [destruct (zoom_factor s * DEFAULT_ZOOM_FACTOR <=? MAX_ZOOM_FACTOR)%py
    |destruct ((ev_num event =? 5) || (ev_delta event <? 0))];
    cbv beta iota zeta delta [andb]; reflexivity.
Qed.

Lemma zoom_written_fields (event : Event) (s : App F) :
  exists x y,
    view_core (zoom_written event s)
    = (original_image s, canvas_w s, canvas_h s, lowest_zoom_factor s,
       next_zoom event s,
       clamp x (bound_x s (next_zoom event s)),
       clamp y (bound_y s (next_zoom event s))) /\
    orig_image_crop (zoom_written event s) = orig_image_crop s /\
    min_zoom (zoom_written event s)
    = if ((ev_num event =? 4) || (0 <? ev_delta event)) &&
         (zoom_factor s * DEFAULT_ZOOM_FACTOR <=? MAX_ZOOM_FACTOR)%py
      then false else min_zoom s.
Proof.
  do 2 eexists. unfold zoom_written.
  destruct (((ev_num event =? 4) || (0 <? ev_delta event)) &&
            (zoom_factor s * DEFAULT_ZOOM_FACTOR <=? MAX_ZOOM_FACTOR)%py);
    repeat split.
Qed.

Lemma crop_synced_update_input_image_preview (s : App F) :
  crop_synced (update_input_image_preview s).
Proof.
  unfold crop_synced, update_input_image_preview.
  set (c := _calculate_preview_image (original_image s) s).
  use_kept (kept_update_output_image_preview (with_orig_image_crop c s)).
  rewrite calculate_preview_image_crop_size.
  repeat match goal with
         | H : _ (update_output_image_preview _) = _ |- _ =>
             rewrite H; clear H
         end.
  reflexivity.
Qed.

Lemma crop_synced_same_view (s s' : App F) :
  view_core s' = view_core s -> orig_image_crop s' = orig_image_crop s ->
  crop_synced s -> crop_synced s'.
Proof.
  unfold crop_synced, view_core. intros E C H.
  rewrite !calculate_preview_image_crop_size in *.
  injection E; intros. congruence.
Qed.

Lemma apply_status (op : Image -> Image -> Image) (s : App F)
      (mask t : Image) :
  current_preview s = Some mask ->
  Image_paste (Image_new (size_of (working_mask s)) 0) mask (paste_box s)
  = Some t ->
  status_label (_apply_mask_modification op s) = "Mask applied."%string.
Proof.
  unfold current_preview, _apply_mask_modification. intros -> ->. reflexivity.
Qed.

(** A preview of the size of the paste box goes through. *)
Lemma paste_fits (dst src : Image) (b : Box) :
  box_width b = g_width src -> box_height b = g_height src ->
  exists t, Image_paste dst src b = Some t.
Proof.
  intros Hw Hh. unfold Image_paste. destruct b as [[[x0 y0] x1] y1].
  rewrite Hw, Hh, !Z.eqb_refl. eexists. reflexivity.
Qed.

Lemma min_zoom_update_input_image_preview (s : App F) :
  min_zoom (update_input_image_preview s) = min_zoom s.
Proof.
  unfold update_input_image_preview.
  set (c := _calculate_preview_image (original_image s) s).
  use_kept (kept_update_output_image_preview (with_orig_image_crop c s)).
  assumption.
Qed.

Lemma on_resize_fields (w h : Z) (s : App F) :
  view_core (on_resize w h s)
  = (original_image s, w, h,
     py_min (of_int w / of_int (fst (original_image s)))%py
            (of_int h / of_int (snd (original_image s)))%py,
     py_min (of_int w / of_int (fst (original_image s)))%py
            (of_int h / of_int (snd (original_image s)))%py,
     of_int 0, of_int 0) /\
  min_zoom (on_resize w h s) = true /\
  crop_synced (on_resize w h s).
Proof.
  unfold on_resize.
  rewrite view_core_update_input_image_preview,
    min_zoom_update_input_image_preview.
  split; [reflexivity|]. split; [reflexivity|].
  apply crop_synced_update_input_image_preview.
Qed.

Lemma original_image_on_resize (w h : Z) (s : App F) :
  original_image (on_resize w h s) = original_image s.
Proof.
  destruct (on_resize_fields w h s) as (C & _).
  unfold view_core in C. injection C; intros. assumption.
Qed.

Lemma crop_synced_with_min_zoom (b : bool) (s : App F) :
  crop_synced s -> crop_synced (with_min_zoom b s).
Proof. apply crop_synced_same_view; reflexivity. Qed.

Lemma crop_synced_clear_coord_overlay (s : App F) :
  crop_synced s -> crop_synced (clear_coord_overlay s).
Proof. apply crop_synced_same_view; reflexivity. Qed.

(** What [zoom] leaves behind, from what it has written. *)
Lemma zoom_result (event : Event) (s : App F) :
  view_core (zoom event s) = view_core (zoom_written event s) /\
  (min_zoom (zoom_written event s) = false -> crop_synced (zoom event s)) /\
  (min_zoom (zoom_written event s) = true ->
   orig_image_crop (zoom event s) = orig_image_crop s) /\
  (min_zoom (zoom event s) = true ->
   (lowest_zoom_factor s ==? next_zoom event s)%py = true \/
   min_zoom (zoom_written event s) = true).
Proof.
  rewrite zoom_steps. cbv zeta.
  destruct (zoom_written_fields event s) as (x & y & C & O & M).
  set (s3 := zoom_written event s) in *. clearbody s3.
  assert (L : lowest_zoom_factor s3 = lowest_zoom_factor s /\
              zoom_factor s3 = next_zoom event s)
    by (unfold view_core in C; injection C; intros; split; assumption).
  destruct L as [L1 L2].
  destruct (min_zoom s3) eqn:Em; cbn [negb].
  - rewrite L1, L2.
    destruct (lowest_zoom_factor s ==? next_zoom event s)%py eqn:T.
    + split; [reflexivity|]. split; [discriminate|]. split; [|left; reflexivity].
      intros _. exact O.
    + split; [reflexivity|]. split; [discriminate|]. split; [|right; reflexivity].
      intros _. exact O.
  - set (s4 := clear_coord_overlay (update_input_image_preview s3)).
    assert (C4 : view_core s4 = view_core s3).
    { unfold s4. rewrite view_core_clear_coord_overlay.
      apply view_core_update_input_image_preview. }
    assert (S4 : crop_synced s4).
    { unfold s4. apply crop_synced_clear_coord_overlay,
        crop_synced_update_input_image_preview. }
    assert (M4 : min_zoom s4 = false).
    { unfold s4.
      change (min_zoom (clear_coord_overlay ?z)) with (min_zoom z).
      rewrite min_zoom_update_input_image_preview. exact Em. }
    assert (L4 : lowest_zoom_factor s4 = lowest_zoom_factor s /\
                 zoom_factor s4 = next_zoom event s).
    { unfold view_core in C4. injection C4; intros. split; congruence. }
    destruct L4 as [L41 L42]. rewrite L41, L42. clearbody s4.
    destruct (lowest_zoom_factor s ==? next_zoom event s)%py eqn:T.
    + split; [exact C4|]. split; [|split; [discriminate|left; reflexivity]].
      intros _. apply crop_synced_with_min_zoom. exact S4.
    + split; [exact C4|]. split; [|split; [discriminate|]].
      * intros _. exact S4.
      * intros E. rewrite M4 in E. discriminate.
Qed.

Lemma pan_mouse_shape (event : Event) (s : App F) :
  pan_mouse event s = s \/
  exists X, pan_mouse event s = update_input_image_preview X /\
            min_zoom X = min_zoom s.
Proof.
  unfold pan_mouse. destruct (panning s); [|left; reflexivity].
  destruct (fgt _ _); [|left; reflexivity].
  right. eexists. split; reflexivity.
Qed.

Lemma pan_sync (op : ViewOp) (s : App F) :
  (forall event, op <> VZoom event) ->
  min_zoom (view_step s op) = min_zoom s /\
  zoom_factor (view_step s op) = zoom_factor s /\
  (crop_synced s -> crop_synced (view_step s op)).
Proof.
  intros Hop.
  assert (D : forall dx dy,
            min_zoom (do_pan dx dy s) = min_zoom s /\
            zoom_factor (do_pan dx dy s) = zoom_factor s /\
            (crop_synced s -> crop_synced (do_pan dx dy s))).
  { intros dx dy. pose proof (do_pan_core dx dy s) as C.
    unfold view_core in C. injection C; intros.
    unfold do_pan in *. rewrite min_zoom_update_input_image_preview.
    split; [reflexivity|]. split; [assumption|]. intros _.
    apply crop_synced_update_input_image_preview. }
  destruct op as [e| | | | |e|e]; cbn [view_step].
  - exfalso. exact (Hop e eq_refl).
  - apply D.
  - apply D.
  - apply D.
  - apply D.
  - split; [reflexivity|]. split; [reflexivity|].
    apply crop_synced_same_view; reflexivity.
  - destruct (pan_mouse_shape e s) as [E | (X & E & Mx)].
    + rewrite E. repeat split; trivial.
    + split; [|split].
      * rewrite E, min_zoom_update_input_image_preview. exact Mx.
      * destruct (pan_mouse_core e s) as [C | (x & y & C)];
          unfold view_core in C; injection C; intros; assumption.
      * intros _. rewrite E. apply crop_synced_update_input_image_preview.
Qed.

Lemma view_step_static (op : ViewOp) (s : App F) :
  original_image (view_step s op) = original_image s /\
  canvas_w (view_step s op) = canvas_w s /\
  canvas_h (view_step s op) = canvas_h s /\
  lowest_zoom_factor (view_step s op) = lowest_zoom_factor s.
Proof.
  destruct (view_step_core op s) as [C | (z & x & y & _ & C)];
    unfold view_core in C; injection C; intros; repeat split; assumption.
Qed.

End VisibleCrop.

(** *** Exact arithmetic *)

Local Open Scope Q_scope.

Lemma Qfloor_unique (q : Q) (m : Z) :
  inject_Z m <= q -> q < inject_Z (m + 1) -> Qfloor q = m.
Proof.
  intros H1 H2.
  assert (A : (m <= Qfloor q)%Z).
  { rewrite <- (Qfloor_Z m). apply Qfloor_resp_le. exact H1. }
  assert (B : (Qfloor q < m + 1)%Z).
  { rewrite Zlt_Qlt. eapply Qle_lt_trans; [apply Qfloor_le|exact H2]. }
  lia.
Qed.

Lemma Qfloor_add_Z (q : Q) (n : Z) :
  Qfloor (q + inject_Z n) = (Qfloor q + n)%Z.
Proof.
  apply Qfloor_unique.
  - rewrite inject_Z_plus. pose proof (Qfloor_le q). lra.
  - replace (Qfloor q + n + 1)%Z with ((Qfloor q + 1) + n)%Z by lia.
    rewrite inject_Z_plus. pose proof (Qlt_floor q). lra.
Qed.

Lemma Q_trunc_add (v : Q) (c : Z) :
  0 <= v -> (0 <= c)%Z -> (Q_trunc (v + inject_Z c) - Q_trunc v)%Z = c.
Proof.
  intros Hv Hc.
  assert (Hc' : 0 <= inject_Z c)
    by (change 0 with (inject_Z 0); rewrite <- Zle_Qle; exact Hc).
  rewrite !Q_trunc_floor by lra. rewrite Qfloor_add_Z. lia.
Qed.

Lemma Qceiling_nonneg (q : Q) : 0 <= q -> (0 <= Qceiling q)%Z.
Proof.
  intros Hq. change 0%Z with (Qceiling 0). apply Qceiling_resp_le. exact Hq.
Qed.

Lemma Qceiling_pos (q : Q) : 0 < q -> (1 <= Qceiling q)%Z.
Proof.
  intros Hq. pose proof (Qle_ceiling q) as H.
  assert (L : 0 < inject_Z (Qceiling q)) by lra.
  change 0 with (inject_Z 0) in L. rewrite <- Zlt_Qlt in L. lia.
Qed.

(** The visible span on one axis, in pixels of the photograph. *)
Definition span (canvas len : Z) (z : Q) : Z :=
  Z.min (Qceiling (inject_Z canvas / z)) len.

Lemma crop_size_exact (image : Z * Z) (cw ch : Z) (z vx vy : Q) :
  0 < z -> 0 <= vx -> 0 <= vy ->
  (0 <= cw)%Z -> (0 <= ch)%Z -> (0 <= fst image)%Z -> (0 <= snd image)%Z ->
  crop_size image cw ch z vx vy = (span cw (fst image) z, span ch (snd image) z).
Proof.
  intros Hz Hx Hy Hcw Hch HW HH. unfold crop_size, span.
  cbn [py_int of_int fadd fdiv math_ceil exactQ].
  assert (P : forall c : Z, (0 <= c)%Z -> 0 <= inject_Z c / z).
  { intros c Hc. apply Qle_shift_div_l; [exact Hz|].
    rewrite Qmult_0_l. change 0 with (inject_Z 0). rewrite <- Zle_Qle.
    exact Hc. }
  pose proof (Qceiling_nonneg (P cw Hcw)). pose proof (Qceiling_nonneg (P ch Hch)).
  rewrite !Q_trunc_add by (assumption || lia). reflexivity.
Qed.

Lemma span_comp (canvas len : Z) (z z' : Q) :
  z == z' -> span canvas len z = span canvas len z'.
Proof. intros E. unfold span. rewrite E. reflexivity. Qed.

Section ExactCrop.
Context {PL : Pillow Q}.

(** The viewport invariants together with what ties the recorded crop to
    them. *)
Definition view_synced (s : App Q) : Prop :=
  view_ok s /\
  ((0 < fst (original_image s))%Z /\ (0 < snd (original_image s))%Z /\
   (0 < canvas_w s)%Z /\ (0 < canvas_h s)%Z) /\
  (lowest_zoom_factor s
   <= inject_Z (canvas_w s) / inject_Z (fst (original_image s)) /\
   lowest_zoom_factor s
   <= inject_Z (canvas_h s) / inject_Z (snd (original_image s))) /\
  (min_zoom s = true -> zoom_factor s == lowest_zoom_factor s) /\
  crop_synced s.

Lemma view_ok_facts (s : App Q) :
  view_ok s ->
  0 < zoom_factor s /\ 0 <= view_x s /\ 0 <= view_y s /\
  lowest_zoom_factor s <= zoom_factor s.
Proof.
  unfold view_ok, view_core, core_ok, axis_in_range.
  intros (Hl & (Hz & _) & (Hx & _) & (Hy & _)). repeat split; lra.
Qed.

(** The crop of a state within the invariants. *)
Lemma synced_crop (s : App Q) :
  view_synced s ->
  orig_image_crop s
  = (span (canvas_w s) (fst (original_image s)) (zoom_factor s),
     span (canvas_h s) (snd (original_image s)) (zoom_factor s)).
Proof.
  intros (Hv & (HW & HH & Hcw & Hch) & _ & _ & Hs).
  destruct (view_ok_facts Hv) as (Hz & Hx & Hy & _).
  rewrite Hs, calculate_preview_image_crop_size.
  apply crop_size_exact; assumption || lia.
Qed.

Lemma view_synced_on_resize (w h : Z) (s : App Q) :
  (0 < fst (original_image s))%Z -> (0 < snd (original_image s))%Z ->
  (0 < w)%Z -> (0 < h)%Z ->
  view_synced (on_resize w h s).
Proof.
  intros HW HH Hw Hh.
  split; [apply view_ok_on_resize; assumption|].
  destruct (on_resize_fields w h s) as (C & M & S).
  unfold view_core in C. injection C as C1 C2 C3 C4 C5 C6 C7.
  rewrite C1, C2, C3, C4, C5.
  split; [|split; [|split]].
  - repeat split; assumption.
  - cbn [of_int fdiv exactQ].
    set (a := inject_Z w / inject_Z (fst (original_image s))).
    set (b := inject_Z h / inject_Z (snd (original_image s))).
    destruct (Q_py_min_cases a b) as [[H1 ->] | [H1 ->]]; split; lra.
  - intros _. reflexivity.
  - exact S.
Qed.

Lemma next_zoom_at_fit (event : Event) (s : App Q) :
  0 < lowest_zoom_factor s -> zoom_factor s == lowest_zoom_factor s ->
  (((ev_num event =? 4) || (0 <? ev_delta event)) &&
   (zoom_factor s * DEFAULT_ZOOM_FACTOR <=? MAX_ZOOM_FACTOR)%py)%bool = false ->
  next_zoom event s == zoom_factor s.
Proof.
  intros Hl Hz Hin. unfold next_zoom.
  destruct ((ev_num event =? 4)%Z || (0 <? ev_delta event)%Z).
  - cbn [andb] in Hin. rewrite Hin. reflexivity.
  - destruct ((ev_num event =? 5)%Z || (ev_delta event <? 0)%Z);
      [|reflexivity].
    pose proof default_zoom_factor_exact as Hd.
    cbn [fdiv exactQ].
    destruct (Q_py_max_cases (zoom_factor s / DEFAULT_ZOOM_FACTOR)
                             (lowest_zoom_factor s)) as [[H1 ->] | [H1 ->]].
    + symmetry. exact Hz.
    + exfalso. rewrite Hd in H1. unfold Qdiv in H1.
      change (/ (12 # 10)) with (10 # 12) in H1. lra.
Qed.

Lemma view_synced_step (op : ViewOp) (s : App Q) :
  view_synced s -> view_synced (view_step s op).
Proof.
  intros Hs. pose proof Hs as (Hv & Hpos & Hfit & Hmin & Hsync).
  pose proof (view_ok_step op Hv) as Hv'.
  destruct (view_step_static op s) as (S1 & S2 & S3 & S4).
  split; [exact Hv'|]. rewrite S1, S2, S3, S4.
  split; [exact Hpos|]. split; [exact Hfit|].
  destruct op as [e| | | | |e|e];
    try (match goal with
         | |- context [view_step s ?o] =>
             destruct (@pan_sync _ _ o s
                         ltac:(intros ev; discriminate)) as (P1 & P2 & P3);
             rewrite P1, P2; split; [exact Hmin|exact (P3 Hsync)]
         end).
  cbn [view_step] in *.
  destruct (zoom_result e s) as (C & Zf & Zt & Zm).
  destruct (zoom_written_fields e s) as (x & y & Cw & Ow & Mw).
  assert (Zz : zoom_factor (zoom e s) = next_zoom e s).
  { rewrite Cw in C. unfold view_core in C. injection C; intros. assumption. }
  destruct (view_ok_facts Hv) as (Hz & Hx & Hy & Hlz).
  assert (Hl : 0 < lowest_zoom_factor s).
  { unfold view_ok, view_core, core_ok in Hv. tauto. }
  assert (At_fit : min_zoom (zoom_written e s) = true ->
                   next_zoom e s == zoom_factor s /\
                   zoom_factor s == lowest_zoom_factor s).
  { intros Em. rewrite Mw in Em.
    destruct (((ev_num e =? 4)%Z || (0 <? ev_delta e)%Z) && _)%bool eqn:Zi;
      [discriminate|].
    split; [|exact (Hmin Em)].
    apply next_zoom_at_fit; [exact Hl|exact (Hmin Em)|exact Zi]. }
  split.
  - intros Em. rewrite Zz.
    destruct (Zm Em) as [T | T].
    + apply Qeq_bool_iff in T. symmetry. exact T.
    + destruct (At_fit T) as [A1 A2]. rewrite A1. exact A2.
  - destruct (min_zoom (zoom_written e s)) eqn:Em.
    + destruct (At_fit eq_refl) as [A1 _].
      unfold crop_synced. rewrite (Zt eq_refl), (synced_crop Hs).
      rewrite calculate_preview_image_crop_size.
      destruct (view_ok_facts Hv') as (Hz' & Hx' & Hy' & _).
      destruct Hpos as (HW & HH & Hcw & Hch).
      rewrite crop_size_exact; try assumption; try lia;
        rewrite ?S1, ?S2, ?S3; try lia.
      rewrite Zz. rewrite (span_comp _ _ A1), (span_comp (canvas_h s) _ A1).
      reflexivity.
    + exact (Zf eq_refl).
Qed.

Lemma view_synced_run (ops : list ViewOp) (s : App Q) :
  view_synced s -> view_synced (view_run ops s).
Proof.
  unfold view_run. revert s.
  induction ops as [|op ops IH]; intros s Hs; cbn [fold_left].
  - exact Hs.
  - apply IH. apply view_synced_step. exact Hs.
Qed.

Lemma view_run_static (ops : list ViewOp) (s : App Q) :
  original_image (view_run ops s) = original_image s.
Proof.
  unfold view_run. revert s.
  induction ops as [|op ops IH]; intros s; cbn [fold_left].
  - reflexivity.
  - rewrite IH. apply view_step_static.
Qed.

(** The crop box lies inside the photograph. *)
Lemma span_inside (v : Q) (len canvas : Z) (z : Q) :
  (0 < len)%Z -> (0 < canvas)%Z -> 0 < z ->
  axis_in_range v len canvas z ->
  (0 <= Qfloor v)%Z /\ (1 <= span canvas len z)%Z /\
  (Qfloor v + span canvas len z <= len)%Z.
Proof.
  intros Hlen Hc Hz (H0 & Hfit & Hcov). unfold span.
  assert (Hq : 0 < inject_Z canvas / z).
  { apply Qlt_shift_div_l; [exact Hz|]. rewrite Qmult_0_l.
    change 0 with (inject_Z 0). rewrite <- Zlt_Qlt. exact Hc. }
  set (q := inject_Z canvas / z) in *.
  pose proof (Qceiling_pos Hq) as Hc1.
  assert (F0 : (0 <= Qfloor v)%Z)
    by (change 0%Z with (Qfloor 0); apply Qfloor_resp_le; exact H0).
  split; [exact F0|]. split; [lia|].
  destruct (Qlt_le_dec (inject_Z len) q) as [L | L].
  - assert (E : v == 0) by (apply Hcov; lra).
    rewrite E. change (Qfloor 0) with 0%Z. lia.
  - specialize (Hfit L).
    pose proof (Qfloor_le v) as A. pose proof (Qceiling_lt q) as B.
    assert (C : inject_Z (Qfloor v + (Qceiling q - 1)) < inject_Z len).
    { rewrite inject_Z_plus. lra. }
    rewrite <- Zlt_Qlt in C. lia.
Qed.


End ExactCrop.

Local Close Scope Q_scope.


(** ** Further field updates *)

Definition with_paint_mode {F} (v : bool) (s : App F) : App F :=
  mkApp (original_image s) (working_mask s) (working_image s)
  (undo_history_mask s) (redo_history_mask s) (cached_blurred_shadow s)
  (_last_shadow_radius s) (cached_blur_image s) (current_blur_radius s)
  (canvas_w s) (canvas_h s) (zoom_factor s) (lowest_zoom_factor s) (view_x s)
  (view_y s) (pan_step s) (min_zoom s) (orig_image_crop s) (panning s)
  (move_enabled s) (pan_start_x s) (pan_start_y s) (model_output_mask s)
  (raw_model_mask s) (raw_sam_logits s) (sam_active s) v (lines s)
  (unified_var s) (bg_mode s) (bg_custom_color s) (export_format s)
  (enable_shadow_var s) (shadow_opacity_slider s) (shadow_radius_slider s)
  (shadow_x_slider s) (shadow_y_slider s) (soften_mask_var s)
  (blur_radius_var s) (show_mask_var s) (status_label s) (output_displayed s)
  (saved_files s).

Definition with_show_mask_var {F} (v : bool) (s : App F) : App F :=
  mkApp (original_image s) (working_mask s) (working_image s)
  (undo_history_mask s) (redo_history_mask s) (cached_blurred_shadow s)
  (_last_shadow_radius s) (cached_blur_image s) (current_blur_radius s)
  (canvas_w s) (canvas_h s) (zoom_factor s) (lowest_zoom_factor s) (view_x s)
  (view_y s) (pan_step s) (min_zoom s) (orig_image_crop s) (panning s)
  (move_enabled s) (pan_start_x s) (pan_start_y s) (model_output_mask s)
  (raw_model_mask s) (raw_sam_logits s) (sam_active s) (paint_mode s)
  (lines s) (unified_var s) (bg_mode s) (bg_custom_color s) (export_format s)
  (enable_shadow_var s) (shadow_opacity_slider s) (shadow_radius_slider s)
  (shadow_x_slider s) (shadow_y_slider s) (soften_mask_var s)
  (blur_radius_var s) v (status_label s) (output_displayed s) (saved_files s).

Definition with_move_enabled {F} (v : bool) (s : App F) : App F :=
  mkApp (original_image s) (working_mask s) (working_image s)
  (undo_history_mask s) (redo_history_mask s) (cached_blurred_shadow s)
  (_last_shadow_radius s) (cached_blur_image s) (current_blur_radius s)
  (canvas_w s) (canvas_h s) (zoom_factor s) (lowest_zoom_factor s) (view_x s)
  (view_y s) (pan_step s) (min_zoom s) (orig_image_crop s) (panning s) v
  (pan_start_x s) (pan_start_y s) (model_output_mask s) (raw_model_mask s)
  (raw_sam_logits s) (sam_active s) (paint_mode s) (lines s) (unified_var s)
  (bg_mode s) (bg_custom_color s) (export_format s) (enable_shadow_var s)
  (shadow_opacity_slider s) (shadow_radius_slider s) (shadow_x_slider s)
  (shadow_y_slider s) (soften_mask_var s) (blur_radius_var s)
  (show_mask_var s) (status_label s) (output_displayed s) (saved_files s).

Definition with_current_blur_radius {F} (v : F) (s : App F) : App F :=
  mkApp (original_image s) (working_mask s) (working_image s)
  (undo_history_mask s) (redo_history_mask s) (cached_blurred_shadow s)
  (_last_shadow_radius s) (cached_blur_image s) v (canvas_w s) (canvas_h s)
  (zoom_factor s) (lowest_zoom_factor s) (view_x s) (view_y s) (pan_step s)
  (min_zoom s) (orig_image_crop s) (panning s) (move_enabled s)
  (pan_start_x s) (pan_start_y s) (model_output_mask s) (raw_model_mask s)
  (raw_sam_logits s) (sam_active s) (paint_mode s) (lines s) (unified_var s)
  (bg_mode s) (bg_custom_color s) (export_format s) (enable_shadow_var s)
  (shadow_opacity_slider s) (shadow_radius_slider s) (shadow_x_slider s)
  (shadow_y_slider s) (soften_mask_var s) (blur_radius_var s)
  (show_mask_var s) (status_label s) (output_displayed s) (saved_files s).

Definition with_blur_radius_var {F} (v : Z) (s : App F) : App F :=
  mkApp (original_image s) (working_mask s) (working_image s)
  (undo_history_mask s) (redo_history_mask s) (cached_blurred_shadow s)
  (_last_shadow_radius s) (cached_blur_image s) (current_blur_radius s)
  (canvas_w s) (canvas_h s) (zoom_factor s) (lowest_zoom_factor s) (view_x s)
  (view_y s) (pan_step s) (min_zoom s) (orig_image_crop s) (panning s)
  (move_enabled s) (pan_start_x s) (pan_start_y s) (model_output_mask s)
  (raw_model_mask s) (raw_sam_logits s) (sam_active s) (paint_mode s)
  (lines s) (unified_var s) (bg_mode s) (bg_custom_color s) (export_format s)
  (enable_shadow_var s) (shadow_opacity_slider s) (shadow_radius_slider s)
  (shadow_x_slider s) (shadow_y_slider s) (soften_mask_var s) v
  (show_mask_var s) (status_label s) (output_displayed s) (saved_files s).

Definition with_bg_custom_color {F} (v : string) (s : App F) : App F :=
  mkApp (original_image s) (working_mask s) (working_image s)
  (undo_history_mask s) (redo_history_mask s) (cached_blurred_shadow s)
  (_last_shadow_radius s) (cached_blur_image s) (current_blur_radius s)
  (canvas_w s) (canvas_h s) (zoom_factor s) (lowest_zoom_factor s) (view_x s)
  (view_y s) (pan_step s) (min_zoom s) (orig_image_crop s) (panning s)
  (move_enabled s) (pan_start_x s) (pan_start_y s) (model_output_mask s)
  (raw_model_mask s) (raw_sam_logits s) (sam_active s) (paint_mode s)
  (lines s) (unified_var s) (bg_mode s) v (export_format s)
  (enable_shadow_var s) (shadow_opacity_slider s) (shadow_radius_slider s)
  (shadow_x_slider s) (shadow_y_slider s) (soften_mask_var s)
  (blur_radius_var s) (show_mask_var s) (status_label s) (output_displayed s)
  (saved_files s).

Definition with_shadow_opacity_slider {F} (v : F) (s : App F) : App F :=
  mkApp (original_image s) (working_mask s) (working_image s)
  (undo_history_mask s) (redo_history_mask s) (cached_blurred_shadow s)
  (_last_shadow_radius s) (cached_blur_image s) (current_blur_radius s)
  (canvas_w s) (canvas_h s) (zoom_factor s) (lowest_zoom_factor s) (view_x s)
  (view_y s) (pan_step s) (min_zoom s) (orig_image_crop s) (panning s)
  (move_enabled s) (pan_start_x s) (pan_start_y s) (model_output_mask s)
  (raw_model_mask s) (raw_sam_logits s) (sam_active s) (paint_mode s)
  (lines s) (unified_var s) (bg_mode s) (bg_custom_color s) (export_format s)
  (enable_shadow_var s) v (shadow_radius_slider s) (shadow_x_slider s)
  (shadow_y_slider s) (soften_mask_var s) (blur_radius_var s)
  (show_mask_var s) (status_label s) (output_displayed s) (saved_files s).

Definition with_shadow_radius_slider {F} (v : F) (s : App F) : App F :=
  mkApp (original_image s) (working_mask s) (working_image s)
  (undo_history_mask s) (redo_history_mask s) (cached_blurred_shadow s)
  (_last_shadow_radius s) (cached_blur_image s) (current_blur_radius s)
  (canvas_w s) (canvas_h s) (zoom_factor s) (lowest_zoom_factor s) (view_x s)
  (view_y s) (pan_step s) (min_zoom s) (orig_image_crop s) (panning s)
  (move_enabled s) (pan_start_x s) (pan_start_y s) (model_output_mask s)
  (raw_model_mask s) (raw_sam_logits s) (sam_active s) (paint_mode s)
  (lines s) (unified_var s) (bg_mode s) (bg_custom_color s) (export_format s)
  (enable_shadow_var s) (shadow_opacity_slider s) v (shadow_x_slider s)
  (shadow_y_slider s) (soften_mask_var s) (blur_radius_var s)
  (show_mask_var s) (status_label s) (output_displayed s) (saved_files s).

Definition with_shadow_x_slider {F} (v : F) (s : App F) : App F :=
  mkApp (original_image s) (working_mask s) (working_image s)
  (undo_history_mask s) (redo_history_mask s) (cached_blurred_shadow s)
  (_last_shadow_radius s) (cached_blur_image s) (current_blur_radius s)
  (canvas_w s) (canvas_h s) (zoom_factor s) (lowest_zoom_factor s) (view_x s)
  (view_y s) (pan_step s) (min_zoom s) (orig_image_crop s) (panning s)
  (move_enabled s) (pan_start_x s) (pan_start_y s) (model_output_mask s)
  (raw_model_mask s) (raw_sam_logits s) (sam_active s) (paint_mode s)
  (lines s) (unified_var s) (bg_mode s) (bg_custom_color s) (export_format s)
  (enable_shadow_var s) (shadow_opacity_slider s) (shadow_radius_slider s) v
  (shadow_y_slider s) (soften_mask_var s) (blur_radius_var s)
  (show_mask_var s) (status_label s) (output_displayed s) (saved_files s).

Definition with_shadow_y_slider {F} (v : F) (s : App F) : App F :=
  mkApp (original_image s) (working_mask s) (working_image s)
  (undo_history_mask s) (redo_history_mask s) (cached_blurred_shadow s)
  (_last_shadow_radius s) (cached_blur_image s) (current_blur_radius s)
  (canvas_w s) (canvas_h s) (zoom_factor s) (lowest_zoom_factor s) (view_x s)
  (view_y s) (pan_step s) (min_zoom s) (orig_image_crop s) (panning s)
  (move_enabled s) (pan_start_x s) (pan_start_y s) (model_output_mask s)
  (raw_model_mask s) (raw_sam_logits s) (sam_active s) (paint_mode s)
  (lines s) (unified_var s) (bg_mode s) (bg_custom_color s) (export_format s)
  (enable_shadow_var s) (shadow_opacity_slider s) (shadow_radius_slider s)
  (shadow_x_slider s) v (soften_mask_var s) (blur_radius_var s)
  (show_mask_var s) (status_label s) (output_displayed s) (saved_files s).

(** ** Paint mode *)

Section PaintMode.
Context {F : Type} {PF : PyFloat F}.

(** The "Manual Paintbrush" button and the [p] key: the mode flips (the
    button's [internal_toggle] or the handler itself does it), and both
    branches of [paint_mode_toggle] clear the overlay. *)
Definition paint_mode_toggle (s : App F) : App F :=
  let s := with_paint_mode (negb (paint_mode s)) s in
  clear_coord_overlay s.

End PaintMode.

(** ** Previews made at the current view always paste *)

Section FreshPreviews.
Context {PL : Pillow Q}.

Local Open Scope Q_scope.

(** The viewport as every reachable state has it: the origin is not
    negative and the visible crop has a size. *)
Definition view_sane (s : App Q) : Prop :=
  0 <= view_x s /\ 0 <= view_y s /\
  (0 <= fst (orig_image_crop s))%Z /\ (0 <= snd (orig_image_crop s))%Z.

Lemma sane_crop_box (s : App Q) :
  view_sane s ->
  crop_box s
  = (Qfloor (view_x s), Qfloor (view_y s),
     Qfloor (view_x s) + fst (orig_image_crop s),
     Qfloor (view_y s) + snd (orig_image_crop s))%Z.
Proof.
  intros (Hx & Hy & Hw & Hh). unfold crop_box.
  cbn [py_int of_int fadd exactQ].
  assert (P : forall c : Z, (0 <= c)%Z -> 0 <= inject_Z c).
  { intros c Hc. change 0 with (inject_Z 0). rewrite <- Zle_Qle. exact Hc. }
  pose proof (P _ Hw). pose proof (P _ Hh).
  rewrite !Q_trunc_floor by lra. rewrite !Qfloor_add_Z. reflexivity.
Qed.

Lemma sane_box_size (s : App Q) :
  view_sane s ->
  box_width (paste_box s) = fst (orig_image_crop s) /\
  box_height (paste_box s) = snd (orig_image_crop s).
Proof.
  intros Hs. unfold paste_box. rewrite (sane_crop_box Hs).
  cbn [box_width box_height]. split; lia.
Qed.

Lemma applies_when_fitting (op : Image -> Image -> Image) (s : App Q)
      (mask : Image) :
  view_sane s -> current_preview s = Some mask ->
  size_of mask = orig_image_crop s ->
  status_label (_apply_mask_modification op s) = "Mask applied."%string /\
  exists t, embedded_preview s = Some t /\
            working_mask (_apply_mask_modification op s)
            = op (working_mask s) t.
Proof.
  intros Hs Hp Hsz. destruct (sane_box_size Hs) as [Bw Bh].
  unfold size_of in Hsz. rewrite <- Hsz in Bw, Bh. cbn [fst snd] in Bw, Bh.
  destruct (paste_fits (Image_new (size_of (working_mask s)) 0) mask
                       (paste_box s) Bw Bh) as [t Et].
  split; [exact (apply_status op s Hp Et)|].
  exists t. split.
  - unfold embedded_preview. rewrite Hp. exact Et.
  - exact (proj1 (apply_working_mask op s Hp Et)).
Qed.


Lemma run_whole_image_model_fields (net : Z -> Z -> Z) (s : App Q) :
  paint_mode s = false ->
  paint_mode (run_whole_image_model net s) = false /\
  view_x (run_whole_image_model net s) = view_x s /\
  view_y (run_whole_image_model net s) = view_y s /\
  orig_image_crop (run_whole_image_model net s) = orig_image_crop s.
Proof.
  intros Hp. unfold run_whole_image_model. rewrite Hp.
  unfold on_unified_slider_change, update_mask_threshold, clear_coord_overlay.
  proj_simpl. repeat split; assumption.
Qed.

Lemma slider_change_fields (val : Q) (s : App Q) :
  paint_mode (on_unified_slider_change val s) = paint_mode s /\
  view_x (on_unified_slider_change val s) = view_x s /\
  view_y (on_unified_slider_change val s) = view_y s /\
  orig_image_crop (on_unified_slider_change val s) = orig_image_crop s.
Proof.
  unfold on_unified_slider_change, update_mask_threshold, update_sam_threshold.
  destruct (sam_active s).
  - destruct (raw_sam_logits s); repeat split.
  - destruct (raw_model_mask s); repeat split.
Qed.


End FreshPreviews.

(** Runs of X10 and X11: an 80 by 60 photograph on a 96 by 54 canvas,
    zoomed in once; for X10 paint mode is switched on and one stroke is
    drawn. *)
Definition zoomed_once : App Q :=
  view_run [VZoom (mkEvent 48 27 4 0)]
    (on_resize 96 54 (BackgroundRemoverGUI (80, 60))).

Definition painting : App Q :=
  with_lines [(inject_Z 20, inject_Z 20, inject_Z 50, inject_Z 40, 3)]
    (paint_mode_toggle zoomed_once).



(** ** Zooming at the cursor, panning at the fitted zoom *)

Section CursorAndFit.
Context {PL : Pillow Q}.

Local Open Scope Q_scope.

(** The origin [zoom] aims at on each axis, before clamping: the one that
    keeps the photograph point under the cursor where it is. *)
Definition zoom_target_x (event : Event) (s : App Q) : Q :=
  view_x s + inject_Z (ev_x event) / zoom_factor s
  - inject_Z (ev_x event) / next_zoom event s.

Definition zoom_target_y (event : Event) (s : App Q) : Q :=
  view_y s + inject_Z (ev_y event) / zoom_factor s
  - inject_Z (ev_y event) / next_zoom event s.

Lemma clamp_inside (x b : Q) : 0 <= x -> x <= b -> clamp x b == x.
Proof.
  intros H0 Hb. unfold clamp. change (of_int 0) with 0.
  destruct (Q_py_min_cases x b) as [[H1 ->] | [H1 ->]];
    [destruct (Q_py_max_cases 0 b) as [[H2 ->] | [H2 ->]]
    |destruct (Q_py_max_cases 0 x) as [[H2 ->] | [H2 ->]]]; lra.
Qed.

Lemma zoom_view (event : Event) (s : App Q) :
  zoom_factor (zoom event s) = next_zoom event s /\
  view_x (zoom event s)
  = clamp (zoom_target_x event s) (bound_x s (next_zoom event s)) /\
  view_y (zoom event s)
  = clamp (zoom_target_y event s) (bound_y s (next_zoom event s)).
Proof.
  destruct (zoom_result event s) as (C & _).
  assert (W : view_core (zoom_written event s)
              = (original_image s, canvas_w s, canvas_h s,
                 lowest_zoom_factor s, next_zoom event s,
                 clamp (zoom_target_x event s)
                       (bound_x s (next_zoom event s)),
                 clamp (zoom_target_y event s)
                       (bound_y s (next_zoom event s)))).
  { unfold zoom_written.
    destruct (((ev_num event =? 4)%Z || (0 <? ev_delta event)%Z) && _)%bool;
      reflexivity. }
  rewrite W in C. unfold view_core in C. injection C; intros.
  repeat split; assumption.
Qed.



End CursorAndFit.



(** ** The slider widget *)

Section Slider.
Context {F : Type} {PF : PyFloat F}.

(** [SleekSlider.pixel_to_val] for a slider from [min_val] to [max_val],
    [width] pixels wide; [None] is the [ZeroDivisionError] of an empty
    track. *)
Definition SleekSlider_pixel_to_val (min_val max_val width x : Z) : option F :=
  let pad_x := 10 in
  let track_width := width - pad_x * 2 in
  let x := Z.max pad_x (Z.min x (width - pad_x)) in
  if track_width =? 0 then None
  else
    let percent := (of_int (x - pad_x) / of_int track_width)%py in
    Some (of_int min_val + percent * of_int (max_val - min_val))%py.

(** [SleekSlider.val_to_pixel] *)
Definition SleekSlider_val_to_pixel (min_val max_val width : Z) (val : F) : F :=
  let pad_x := 10 in
  let track_width := width - pad_x * 2 in
  if max_val =? min_val then of_int pad_x
  else
    let percent :=
      ((val - of_int min_val) / of_int (max_val - min_val))%py in
    (of_int pad_x + percent * of_int track_width)%py.

(** The value [SleekSlider.set_value] stores. *)
Definition SleekSlider_set_value (min_val max_val : Z) (val : F) : F :=
  py_max (of_int min_val) (py_min val (of_int max_val)).

(** The threshold slider is the slider from 0 to 100. *)
Lemma pixel_to_val_threshold (width x : Z) :
  width <> 20 ->
  SleekSlider_pixel_to_val 0 100 width x = Some (pixel_to_val width x).
Proof.
  intros Hw. unfold SleekSlider_pixel_to_val, pixel_to_val.
  destruct (Z.eqb_spec (width - 10 * 2) 0); [lia|]. reflexivity.
Qed.

Lemma slider_value_threshold (val : F) :
  SleekSlider_set_value 0 100 val = slider_value val.
Proof. reflexivity. Qed.

End Slider.

Local Open Scope Q_scope.


Local Close Scope Q_scope.


(** ** More on the thresholds *)

Section ExactSliders.
Context {PL : Pillow Q}.

Local Open Scope Q_scope.



End ExactSliders.

(** X17. When the whole-image model finishes, the slider is back at 50 and
    the preview shows the pixels of the model output above 130, whatever the
    slider showed before (double precision). *)
Theorem model_run_threshold (net : Z -> Z -> Z) (s : App float) (x y : Z) :
  paint_mode s = false ->
  0 <= x < fst (orig_image_crop s) -> 0 <= y < snd (orig_image_crop s) ->
  unified_var (run_whole_image_model net s) = 50%float /\
  exists m, model_output_mask (run_whole_image_model net s) = Some m /\
            getpixel 0 m x y = if 130 <? net x y then 255 else 0.
Proof.
  intros Hp Hx Hy. unfold run_whole_image_model. rewrite Hp.
  unfold on_unified_slider_change, update_mask_threshold, clear_coord_overlay.
  proj_simpl. split; [reflexivity|].
  eexists. split; [reflexivity|].
  unfold Image_point. cbn [g_width g_height build].
  rewrite !getpixel_build by assumption.
  replace (py_int (of_int 10 + (of_int 1 - of_int 50 / of_int 100)
                               * of_int (250 - 10))%py) with 130
    by (vm_compute; reflexivity).
  reflexivity.
Qed.



Lemma model_run_threshold_witness :
  let s : App float := on_resize 120 80 (BackgroundRemoverGUI (12, 8)) in
  paint_mode s = false /\
  (0 <= 3 < fst (orig_image_crop s) /\ 0 <= 2 < snd (orig_image_crop s)) /\
  unified_var (run_whole_image_model (fun x y => 20 * (x + y)) s) = 50%float /\
  exists m,
    model_output_mask (run_whole_image_model (fun x y => 20 * (x + y)) s)
    = Some m /\
    getpixel 0 m 3 2 = if 130 <? 20 * (3 + 2) then 255 else 0.
Proof.
  intros s.
  assert (Hp : paint_mode s = false) by (vm_compute; reflexivity).
  assert (Hx : 0 <= 3 < fst (orig_image_crop s))
    by (vm_compute; split; [discriminate | reflexivity]).
  assert (Hy : 0 <= 2 < snd (orig_image_crop s))
    by (vm_compute; split; [discriminate | reflexivity]).
  split; [exact Hp|]. split; [split; assumption|].
  exact (@model_run_threshold (fun x y => 20 * (x + y)) s 3 2 Hp Hx Hy).
Defined.

(** ** The effect buttons *)

Inductive EffectButton : Type := BtnAlpha | BtnShadow | BtnSoften.

Section Effects.
Context {F : Type} {PF : PyFloat F}.

(** The "Alpha Channel" button: [internal_toggle] flips the variable, then
    runs [on_alpha_channel_toggle]. *)
Definition on_alpha_channel_toggle (s : App F) : App F :=
  let s := with_show_mask_var (negb (show_mask_var s)) s in
  let s := update_output_image_preview s in
  if show_mask_var s then
    let s := if enable_shadow_var s then with_enable_shadow_var false s
             else s in
    if soften_mask_var s then with_soften_mask_var false s else s
  else s.

(** The "Soften Edges" button: [internal_toggle] flips the variable, then
    runs [toggle_soften_options]. *)
Definition toggle_soften_options (s : App F) : App F :=
  let s := with_soften_mask_var (negb (soften_mask_var s)) s in
  if show_mask_var s then
    let s := with_soften_mask_var false s in
    with_status_label "Error: Cannot use effects while viewing Alpha Channel." s
  else add_drop_shadow s.

Definition press (s : App F) (b : EffectButton) : App F :=
  match b with
  | BtnAlpha => on_alpha_channel_toggle s
  | BtnShadow => toggle_shadow_options s
  | BtnSoften => toggle_soften_options s
  end.

(** While the alpha channel is shown, neither effect is on. *)
Definition effects_exclusive (s : App F) : Prop :=
  show_mask_var s = true ->
  enable_shadow_var s = false /\ soften_mask_var s = false.

Definition effect_vars (s : App F) :=
  (show_mask_var s, enable_shadow_var s, soften_mask_var s).

Lemma effect_vars_update_output_image_preview (s : App F) :
  effect_vars (update_output_image_preview s) = effect_vars s.
Proof.
  unfold update_output_image_preview, apply_background_color,
    regenerate_smart_blur.
  break_ifs; reflexivity.
Qed.

Lemma effect_vars_add_drop_shadow (s : App F) :
  effect_vars (add_drop_shadow s) = effect_vars s.
Proof.
  unfold add_drop_shadow, cutout_working_image, update_output_image_preview,
    apply_background_color, regenerate_smart_blur.
  break_ifs; reflexivity.
Qed.

Lemma effects_exclusive_press (b : EffectButton) (s : App F) :
  effects_exclusive s -> effects_exclusive (press s b).
Proof.
  unfold effects_exclusive. intros Hs. destruct b; cbn [press].
  - unfold on_alpha_channel_toggle.
    set (s1 := with_show_mask_var (negb (show_mask_var s)) s).
    pose proof (effect_vars_update_output_image_preview s1) as E.
    set (s2 := update_output_image_preview s1) in *. clearbody s2.
    unfold effect_vars in E. injection E as E1 E2 E3.
    cbv zeta. destruct (show_mask_var s2) eqn:M; [|congruence].
    intros _.
    destruct (enable_shadow_var s2) eqn:A.
    + change (soften_mask_var (with_enable_shadow_var false s2))
        with (soften_mask_var s2).
      destruct (soften_mask_var s2) eqn:B; split; reflexivity || assumption.
    + destruct (soften_mask_var s2) eqn:B; split; reflexivity || assumption.
  - unfold toggle_shadow_options.
    set (s1 := with_enable_shadow_var (negb (enable_shadow_var s)) s).
    assert (M1 : show_mask_var s1 = show_mask_var s) by reflexivity.
    assert (S1 : soften_mask_var s1 = soften_mask_var s) by reflexivity.
    clearbody s1. destruct (show_mask_var s1) eqn:M.
    + intros _. split; [reflexivity|].
      change (soften_mask_var s1 = false). rewrite S1.
      apply Hs. congruence.
    + pose proof (effect_vars_add_drop_shadow s1) as E.
      unfold effect_vars in E. injection E as E1 E2 E3. congruence.
  - unfold toggle_soften_options.
    set (s1 := with_soften_mask_var (negb (soften_mask_var s)) s).
    assert (M1 : show_mask_var s1 = show_mask_var s) by reflexivity.
    assert (S1 : enable_shadow_var s1 = enable_shadow_var s) by reflexivity.
    clearbody s1. destruct (show_mask_var s1) eqn:M.
    + intros _. split; [|reflexivity].
      change (enable_shadow_var s1 = false). rewrite S1.
      apply Hs. congruence.
    + pose proof (effect_vars_add_drop_shadow s1) as E.
      unfold effect_vars in E. injection E as E1 E2 E3. congruence.
Qed.

(** X18. The alpha-channel view and the two effects exclude each other:
    from start-up, after any sequence of presses of the "Alpha Channel",
    "Drop Shadow" and "Soften Edges" buttons, whenever the alpha channel is
    shown both the shadow and the softening are off. *)
Theorem alpha_view_excludes_effects (image : Z * Z)
        (presses : list EffectButton) :
  effects_exclusive (fold_left press presses (BackgroundRemoverGUI image)).
Proof.
  assert (I : effects_exclusive (BackgroundRemoverGUI (F := F) image)).
  { unfold effects_exclusive.
    assert (M : show_mask_var (BackgroundRemoverGUI (F := F) image) = false)
      by reflexivity.
    rewrite M. discriminate. }
  revert I. generalize (BackgroundRemoverGUI (F := F) image).
  induction presses as [|b presses IH]; intros s I; cbn [fold_left].
  - exact I.
  - apply IH. apply effects_exclusive_press. exact I.
Qed.

End Effects.

(** ** Export *)

From Stdlib Require Import DecimalString DecimalNat DecimalFacts.

(** The names [quick_save_automatic] tries: [name_nobg.ext], then
    [name_nobg_1.ext], [name_nobg_2.ext], ... *)
Definition nobg_suffix (counter : nat) : string :=
  if (0 <? counter)%nat
  then "_nobg_" ++ NilZero.string_of_uint (Nat.to_uint counter)
  else "_nobg".

Definition nobg_filename (name save_ext : string) (counter : nat) : string :=
  name ++ nobg_suffix counter ++ save_ext.

(** The [while True] loop that looks for a free name; [path_exists] is
    [os.path.exists] in the output folder, [fuel] bounds the number of
    turns. *)
Fixpoint free_filename (path_exists : string -> bool) (name save_ext : string)
         (fuel counter : nat) : option string :=
  match fuel with
  | O => None
  | S fuel =>
      let filename := nobg_filename name save_ext counter in
      if negb (path_exists filename) then Some filename
      else free_filename path_exists name save_ext fuel (S counter)
  end.

(** A folder holding the files [files]. *)
Definition in_folder (files : list string) (filename : string) : bool :=
  existsb (String.eqb filename) files.

Lemma append_cancel_l (a b c : string) :
  (a ++ b)%string = (a ++ c)%string -> b = c.
Proof.
  induction a as [|ch a IH]; cbn; intros E; [exact E|].
  injection E as E. exact (IH E).
Qed.

Lemma length_append (a b : string) :
  String.length (a ++ b) = (String.length a + String.length b)%nat.
Proof. induction a as [|ch a IH]; cbn; [reflexivity|]. now rewrite IH. Qed.

Lemma append_cancel_r (a b c : string) :
  (a ++ c)%string = (b ++ c)%string -> a = b.
Proof.
  revert b. induction a as [|ch a IH]; intros b E.
  - destruct b as [|ch' b]; [reflexivity|].
    apply (f_equal String.length) in E. cbn in E.
    rewrite length_append in E. lia.
  - destruct b as [|ch' b].
    + apply (f_equal String.length) in E. cbn in E.
      rewrite length_append in E. lia.
    + cbn in E. injection E as -> E. f_equal. exact (IH b E).
Qed.

Lemma decimal_inj (a b : nat) :
  NilZero.string_of_uint (Nat.to_uint a)
  = NilZero.string_of_uint (Nat.to_uint b) -> a = b.
Proof.
  intros E.
  assert (N : forall n, Nat.to_uint n <> Decimal.Nil).
  { intros n. rewrite <- (Unsigned.of_to n) at 1.
    rewrite Unsigned.to_of. apply unorm_nonnil. }
  apply (f_equal NilZero.uint_of_string) in E.
  rewrite !NilZero.usu in E by apply N.
  injection E as E. apply (f_equal Nat.of_uint) in E.
  now rewrite !Unsigned.of_to in E.
Qed.

Lemma nobg_filename_inj (name save_ext : string) (a b : nat) :
  nobg_filename name save_ext a = nobg_filename name save_ext b -> a = b.
Proof.
  unfold nobg_filename. intros E.
  apply append_cancel_l, append_cancel_r in E. unfold nobg_suffix in E.
  destruct (Nat.ltb_spec 0 a), (Nat.ltb_spec 0 b); try lia.
  - apply (append_cancel_l "_nobg_") in E. apply decimal_inj. exact E.
  - apply (f_equal String.length) in E. rewrite length_append in E.
    cbn in E. lia.
  - apply (f_equal String.length) in E. rewrite length_append in E.
    cbn in E. lia.
Qed.

(** The loop stops at the first free name. *)
Lemma free_filename_first (path_exists : string -> bool)
      (name save_ext : string) (n fuel start : nat) :
  (forall c, (start <= c < start + n)%nat ->
             path_exists (nobg_filename name save_ext c) = true) ->
  path_exists (nobg_filename name save_ext (start + n)) = false ->
  (n < fuel)%nat ->
  free_filename path_exists name save_ext fuel start
  = Some (nobg_filename name save_ext (start + n)).
Proof.
  revert fuel start. induction n as [|n IH]; intros fuel start Hbusy Hfree Hf.
  - destruct fuel as [|fuel]; [lia|]. cbn [free_filename].
    rewrite Nat.add_0_r in *. rewrite Hfree. reflexivity.
  - destruct fuel as [|fuel]; [lia|]. cbn [free_filename].
    rewrite (Hbusy start) by lia. cbn [negb].
    replace (start + S n)%nat with (S start + n)%nat in * by lia.
    apply IH; [|exact Hfree|lia].
    intros c Hc. apply Hbusy. lia.
Qed.

(** Among the first [length files + 1] names one is not in the folder. *)
Lemma some_name_is_free (files : list string) (name save_ext : string) :
  exists n, (n <= length files)%nat /\
    in_folder files (nobg_filename name save_ext n) = false /\
    forall c, (c < n)%nat ->
              in_folder files (nobg_filename name save_ext c) = true.
Proof.
  assert (S : forall k,
            (forall c, (c < k)%nat ->
                       in_folder files (nobg_filename name save_ext c) = true)
            \/ exists n, (n < k)%nat /\
                 in_folder files (nobg_filename name save_ext n) = false /\
                 forall c, (c < n)%nat ->
                   in_folder files (nobg_filename name save_ext c) = true).
  { induction k as [|k [IH | IH]].
    - left. intros c Hc. lia.
    - destruct (in_folder files (nobg_filename name save_ext k)) eqn:E.
      + left. intros c Hc. destruct (Nat.eq_dec c k) as [-> | Hne];
          [exact E|apply IH; lia].
      + right. exists k. split; [lia|]. split; [exact E|exact IH].
    - right. destruct IH as (n & Hn & Hfree & Hbusy).
      exists n. split; [lia|]. split; assumption. }
  destruct (S (Datatypes.S (length files))) as [All | (n & Hn & Hfree & Hbusy)].
  - exfalso.
    set (names := map (nobg_filename name save_ext)
                      (seq 0 (Datatypes.S (length files)))).
    assert (ND : NoDup names).
    { unfold names. apply NoDup_map_NoDup_ForallPairs; [|apply seq_NoDup].
      intros a b _ _. apply nobg_filename_inj. }
    assert (I : incl names files).
    { intros f Hf. unfold names in Hf. apply in_map_iff in Hf.
      destruct Hf as (c & <- & Hc). apply in_seq in Hc.
      specialize (All c ltac:(lia)). unfold in_folder in All.
      apply existsb_exists in All. destruct All as (g & Hg & Eg).
      apply String.eqb_eq in Eg. subst g. exact Hg. }
    pose proof (NoDup_incl_length ND I) as L.
    unfold names in L. rewrite length_map, length_seq in L. lia.
  - exists n. split; [lia|]. split; assumption.
Qed.

(** X19. Quick export never picks the name of a file that is already in the
    output folder: whatever the folder holds, the search loop stops within
    [length files + 1] turns, at the first name of the sequence
    [name_nobg.ext], [name_nobg_1.ext], [name_nobg_2.ext], ... that is not
    there. *)
Theorem quick_save_name_is_free (files : list string)
        (name save_ext : string) :
  exists n, (n <= length files)%nat /\
    (forall fuel, (length files < fuel)%nat ->
       free_filename (in_folder files) name save_ext fuel 0
       = Some (nobg_filename name save_ext n)) /\
    ~ In (nobg_filename name save_ext n) files /\
    forall c, (c < n)%nat -> In (nobg_filename name save_ext c) files.
Proof.
  destruct (some_name_is_free files name save_ext) as (n & Hn & Hfree & Hbusy).
  exists n. split; [exact Hn|]. split; [|split].
  - intros fuel Hf.
    apply (@free_filename_first (in_folder files) name save_ext n fuel 0%nat).
    + intros c Hc. apply Hbusy. lia.
    + exact Hfree.
    + lia.
  - intros Hin. unfold in_folder in Hfree.
    assert (T : existsb (String.eqb (nobg_filename name save_ext n)) files
                = true).
    { apply existsb_exists. eexists. split; [exact Hin|].
      apply String.eqb_refl. }
    congruence.
  - intros c Hc. specialize (Hbusy c Hc). unfold in_folder in Hbusy.
    apply existsb_exists in Hbusy. destruct Hbusy as (g & Hg & Eg).
    apply String.eqb_eq in Eg. subst g. exact Hg.
Qed.

(** ** The size of the SAM input *)

Section PreprocessShape.
Context {F : Type} {PF : PyFloat F}.

(** [get_preprocess_shape]; [None] is the [ZeroDivisionError] of the
    division by [max(oldh, oldw)]. *)
Definition get_preprocess_shape (oldh oldw long_side_length : Z)
  : option (Z * Z) :=
  let longest := Z.max oldh oldw in
  if longest =? 0 then None
  else
    let scale := (of_int long_side_length * lit 1 1 / of_int longest)%py in
    Some (py_int (of_int oldh * scale + lit 1 2)%py,
          py_int (of_int oldw * scale + lit 1 2)%py).

End PreprocessShape.

Section ExactShape.
Local Open Scope Q_scope.

(** One side of the result: [int(old * scale + 0.5)]. *)
Lemma scaled_side (old longest long_side_length : Z) :
  (1 <= old <= longest)%Z -> (0 <= long_side_length)%Z ->
  let side :=
    Q_trunc (inject_Z old
             * (inject_Z long_side_length * (inject_Z 1 / inject_Z 1)
                / inject_Z longest)
             + inject_Z 1 / inject_Z 2) in
  (0 <= side <= long_side_length)%Z /\
  (old = longest -> side = long_side_length).
Proof.
  intros Ho HL side.
  assert (Qo : 1 <= inject_Z old)
    by (change 1 with (inject_Z 1); rewrite <- Zle_Qle; lia).
  assert (Qm : inject_Z old <= inject_Z longest)
    by (rewrite <- Zle_Qle; lia).
  assert (QL : 0 <= inject_Z long_side_length)
    by (change 0 with (inject_Z 0); rewrite <- Zle_Qle; lia).
  set (o := inject_Z old) in *. set (m := inject_Z longest) in *.
  set (l := inject_Z long_side_length) in *.
  assert (E : o * (l * (inject_Z 1 / inject_Z 1) / m) + inject_Z 1 / inject_Z 2
              == l * (o / m) + (1 # 2)).
  { change (inject_Z 1) with 1. change (inject_Z 2) with 2. field. lra. }
  assert (R : 0 <= o / m <= 1).
  { split.
    - apply Qle_shift_div_l; lra.
    - apply Qle_shift_div_r; lra. }
  assert (P : 0 <= l * (o / m) <= l) by nra.
  assert (S : side = Qfloor (l * (o / m) + (1 # 2))).
  { unfold side. rewrite Q_trunc_floor by (rewrite E; lra).
    now rewrite E. }
  assert (Up : (Qfloor (l * (o / m) + (1 # 2)) <= long_side_length)%Z).
  { assert (T : Qfloor (l + (1 # 2)) = long_side_length).
    { apply Qfloor_unique.
      - fold l. lra.
      - rewrite inject_Z_plus. fold l. change (inject_Z 1) with 1. lra. }
    rewrite <- T. apply Qfloor_resp_le. lra. }
  assert (Lo : (0 <= Qfloor (l * (o / m) + (1 # 2)))%Z).
  { change 0%Z with (Qfloor 0). apply Qfloor_resp_le. lra. }
  split; [rewrite S; lia|].
  intros Eo.
  assert (U : o / m == 1).
  { unfold o. rewrite Eo. fold m. field. lra. }
  rewrite S. apply Qfloor_unique.
  - fold l. rewrite U. lra.
  - rewrite inject_Z_plus. fold l. change (inject_Z 1) with 1.
    rewrite U. lra.
Qed.

End ExactShape.



(** ** The file gallery *)

(** An entry of [gallery_files]: the keys ['path'] and ['name'] of the
    dictionary; the Tk thumbnail under ['thumb'] is only ever handed to the
    canvas. *)
Record GalleryFile : Type := mkGalleryFile {
  file_path : string;
  file_name : string
}.

(** The tags of the thumbnail items: [item_ idx] is the string
    [f"item_{idx}"]. *)
Inductive Tag : Type :=
| item_ (idx : nat)
| thumb_frame
| thumb_img
| thumb_rect.

(** What [redraw_gallery] puts on the gallery canvas. *)
Inductive CanvasItem : Type :=
| Rectangle (x1 y1 x2 y2 : Z) (outline : string) (width : Z)
            (fill : option string) (tags : list Tag)
| CanvasImage (x y : Z) (image : GalleryFile) (tags : list Tag).

Definition gettags (item : CanvasItem) : list Tag :=
  match item with
  | Rectangle _ _ _ _ _ _ _ tags => tags
  | CanvasImage _ _ _ tags => tags
  end.

(** The editor together with the gallery: the gallery attributes of the
    application object next to the ones of [App]. *)
Record Studio (F : Type) : Type := mkStudio {
  editor : App F;
  gallery_files : list GalleryFile;
  selected_gallery_index : option nat;
  gallery_canvas : list CanvasItem;  (* the thumbnail items, lowest first;
                                        the two items of a tooltip, tagged
                                        [tooltip] only, are not tracked *)
  scrollregion : option (Z * Z * Z * Z);
  image_paths : list string;
  current_image_index : Z;
  title : string
}.

Arguments mkStudio {F} _ _ _ _ _ _ _ _.
Arguments editor {F} _.
Arguments gallery_files {F} _.
Arguments selected_gallery_index {F} _.
Arguments gallery_canvas {F} _.
Arguments scrollregion {F} _.
Arguments image_paths {F} _.
Arguments current_image_index {F} _.
Arguments title {F} _.

Definition ITEM_SIZE : Z := 70.
Definition PADDING : Z := 6.
Definition START_X : Z := 4.
Definition START_Y : Z := 4.

(** The top left corner of thumbnail [idx]: thumbnails stack in pairs. *)
Definition thumb_xy (idx : nat) : Z * Z :=
  let col := Z.of_nat idx / 2 in
  let row := Z.of_nat idx mod 2 in
  (START_X + col * (ITEM_SIZE + PADDING), START_Y + row * (ITEM_SIZE + PADDING)).

(** The three items [redraw_gallery] creates for the thumbnail [idx]. *)
Definition draw_thumb (selected : option nat) (idx : nat) (item : GalleryFile)
  : list CanvasItem :=
  let '(x, y) := thumb_xy idx in
  let is_selected :=
    match selected with Some i => (idx =? i)%nat | None => false end in
  let outline_col :=
    (if is_selected then "#007acc" else "#444444")%string in
  let width := if is_selected then 2 else 1 in
  [ Rectangle x y (x + ITEM_SIZE) (y + ITEM_SIZE) "#333333"%string 1
              (Some "#151515"%string) [item_ idx; thumb_frame];
    CanvasImage (x + ITEM_SIZE / 2) (y + ITEM_SIZE / 2) item
                [item_ idx; thumb_img];
    Rectangle (x + 1) (y + 1) (x + ITEM_SIZE - 1) (y + ITEM_SIZE - 1)
              outline_col width None [item_ idx; thumb_rect] ].

(** [for idx, item in enumerate(files)] from index [idx] on. *)
Fixpoint draw_thumbs (selected : option nat) (idx : nat)
         (files : list GalleryFile) : list CanvasItem :=
  match files with
  | [] => []
  | item :: files =>
      draw_thumb selected idx item ++ draw_thumbs selected (S idx) files
  end.

(** The first tag of the form [item_<idx>], as the inner loop of
    [on_gallery_click] finds it. *)
Fixpoint first_item_tag (tags : list Tag) : option nat :=
  match tags with
  | [] => None
  | item_ idx :: _ => Some idx
  | _ :: tags => first_item_tag tags
  end.

(** The outer loop: the first item that carries such a tag. *)
Fixpoint first_tagged (items : list CanvasItem) : option nat :=
  match items with
  | [] => None
  | item :: items =>
      match first_item_tag (gettags item) with
      | Some idx => Some idx
      | None => first_tagged items
      end
  end.

(** [del l[i]]; [None] is the [IndexError]. *)
Definition list_del {A : Type} (i : nat) (l : list A) : option (list A) :=
  if (i <? length l)%nat then Some (firstn i l ++ skipn (S i) l) else None.

(** The bounding box of an item; thumbnails are 70 by 70 pixels and are
    anchored at their centre. *)
Definition bbox (item : CanvasItem) : Z * Z * Z * Z :=
  match item with
  | Rectangle x1 y1 x2 y2 _ _ _ _ => (x1, y1, x2, y2)
  | CanvasImage x y _ _ => (x - 35, y - 35, x + 35, y + 35)
  end.

Section Gallery.
Context {F : Type} {PF : PyFloat F} {PL : Pillow F}.

(** The canvas position of a mouse event, and Tk's test whether an item
    overlaps the square [(x, y, x + 1, y + 1)] there. *)
Variable Point : Type.
Variable overlapping : CanvasItem -> Point -> bool.

(** The file system: [os.path.exists], whether Pillow opens and decodes a file
    (and the size of the photograph), and [os.path.basename]. *)
Variable path_exists : string -> bool.
Variable Image_open : string -> option (Z * Z).
Variable basename : string -> string.

Definition redraw_gallery (st : Studio F) : Studio F :=
  let items :=
    draw_thumbs (selected_gallery_index st) 0 (gallery_files st) in
  let total_cols := (Z.of_nat (length (gallery_files st)) + 1) / 2 in
  let total_width := START_X + total_cols * (ITEM_SIZE + PADDING) + START_X in
  mkStudio (editor st) (gallery_files st) (selected_gallery_index st) items
           (Some (0, 0, total_width, 160)) (image_paths st)
           (current_image_index st) (title st).

Definition find_overlapping (p : Point) (st : Studio F) : list CanvasItem :=
  filter (fun item => overlapping item p) (gallery_canvas st).

Definition on_gallery_click (p : Point) (st : Studio F) : Studio F :=
  let clicked_index := first_tagged (find_overlapping p st) in
  let selected :=
    match clicked_index with
    | Some clicked =>
        match selected_gallery_index st with
        | Some i => if (i =? clicked)%nat then None else Some clicked
        | None => Some clicked
        end
    | None => selected_gallery_index st
    end in
  redraw_gallery
    (mkStudio (editor st) (gallery_files st) selected (gallery_canvas st)
              (scrollregion st) (image_paths st) (current_image_index st)
              (title st)).

(** [use_gallery_image]; when [Image.open] raises in [load_image_path],
    nothing has been assigned yet and Tk reports the error. *)
Definition use_gallery_image (st : Studio F) : Studio F :=
  match selected_gallery_index st with
  | Some i =>
      if (i <? length (gallery_files st))%nat then
        match nth_error (gallery_files st) i with
        | Some item =>
            let path := file_path item in
            match Image_open path with
            | Some image =>
                let a := initialise_new_image image (editor st) in
                let filename := basename path in
                let a :=
                  with_status_label
                    ("Loaded from gallery: " ++ filename)%string a in
                redraw_gallery
                  (mkStudio a (gallery_files st) None (gallery_canvas st)
                            (scrollregion st) [path] 0
                            ("Background Remover - " ++ filename)%string)
            | None => st
            end
        | None => st
        end
      else st
  | None => st
  end.

(** [delete_gallery_image]; [None] is the [IndexError] of [del]. *)
Definition delete_gallery_image (st : Studio F) : option (Studio F) :=
  match selected_gallery_index st with
  | Some i =>
      match list_del i (gallery_files st) with
      | Some files =>
          Some (redraw_gallery
                  (mkStudio (editor st) files None (gallery_canvas st)
                            (scrollregion st) (image_paths st)
                            (current_image_index st) (title st)))
      | None => None
      end
  | None => Some st
  end.

Definition clean_gallery (st : Studio F) : Studio F :=
  redraw_gallery
    (mkStudio (editor st) [] None (gallery_canvas st) (scrollregion st)
              (image_paths st) (current_image_index st) (title st)).

(** [_worker_import_thumbnails]: the paths that exist, are not in the gallery
    yet and can be opened. *)
Definition _worker_import_thumbnails (path_list existing_paths : list string)
  : list GalleryFile :=
  map (fun path => mkGalleryFile path (basename path))
      (filter (fun path =>
                 negb (negb (path_exists path)
                       || existsb (String.eqb path) existing_paths)
                 && match Image_open path with Some _ => true | None => false end)
              path_list).

(** The decimal numeral of [n], as [f"{n}"] prints it. *)
Definition py_str_nat (n : nat) : string :=
  NilZero.string_of_uint (Nat.to_uint n).

Definition _finalize_import (results : list GalleryFile) (st : Studio F)
  : Studio F :=
  match results with
  | [] => st
  | _ =>
      let st :=
        mkStudio (editor st) (gallery_files st ++ results)
                 (selected_gallery_index st) (gallery_canvas st)
                 (scrollregion st) (image_paths st) (current_image_index st)
                 (title st) in
      let st := redraw_gallery st in
      mkStudio
        (with_status_label
           ("Added " ++ py_str_nat (length results)
            ++ " images to gallery.")%string
           (editor st))
        (gallery_files st) (selected_gallery_index st) (gallery_canvas st)
        (scrollregion st) (image_paths st) (current_image_index st) (title st)
  end.

(** [process_import_paths], the worker thread having finished before anything
    else happens. *)
Definition process_import_paths (path_list : list string) (st : Studio F)
  : Studio F :=
  match path_list with
  | [] => st
  | _ =>
      let existing_paths := map file_path (gallery_files st) in
      _finalize_import (_worker_import_thumbnails path_list existing_paths) st
  end.

(** The gallery at start-up. *)
Definition Studio_init (image : Z * Z) : Studio F :=
  mkStudio (BackgroundRemoverGUI image) [] None [] None [] 0
           "Background Remover Pro"%string.

(** What can happen to the gallery: a finished import delivers its results,
    a click on the strip, and the three buttons. *)
Inductive GalleryOp : Type :=
| OpImported (results : list GalleryFile)
| OpClick (p : Point)
| OpUse
| OpDelete
| OpClean.

Definition gallery_step (st : Studio F) (op : GalleryOp) : option (Studio F) :=
  match op with
  | OpImported results => Some (_finalize_import results st)
  | OpClick p => Some (on_gallery_click p st)
  | OpUse => Some (use_gallery_image st)
  | OpDelete => delete_gallery_image st
  | OpClean => Some (clean_gallery st)
  end.

(** A sequence of operations; [None] as soon as one raises. *)
Fixpoint gallery_run (ops : list GalleryOp) (st : Studio F)
  : option (Studio F) :=
  match ops with
  | [] => Some st
  | op :: ops =>
      match gallery_step st op with
      | Some st => gallery_run ops st
      | None => None
      end
  end.

(** The selection is a thumbnail of the strip, and the canvas shows the
    files of the gallery. *)
Definition gallery_ok (st : Studio F) : Prop :=
  match selected_gallery_index st with
  | Some i => (i < length (gallery_files st))%nat
  | None => True
  end /\
  gallery_canvas st
  = draw_thumbs (selected_gallery_index st) 0 (gallery_files st).

Lemma first_tagged_drawn (selected : option nat) (files : list GalleryFile)
      (keep : CanvasItem -> bool) (start idx : nat) :
  first_tagged (filter keep (draw_thumbs selected start files)) = Some idx ->
  (start <= idx < start + length files)%nat.
Proof.
  revert start. induction files as [|item files IH]; intros start.
  - cbn. discriminate.
  - cbn [draw_thumbs]. unfold draw_thumb. destruct (thumb_xy start) as [x y].
    cbn [app filter].
    repeat match goal with
           | |- context [if keep ?i then _ else _] =>
               destruct (keep i); cbn [first_tagged gettags first_item_tag]
           end;
      try (intros E; injection E as <-; cbn [length]; lia);
      intros E; apply IH in E; cbn [length]; lia.
Qed.

Lemma gallery_ok_redraw (st : Studio F) :
  match selected_gallery_index st with
  | Some i => (i < length (gallery_files st))%nat
  | None => True
  end ->
  gallery_ok (redraw_gallery st).
Proof. intros H. split; [exact H|reflexivity]. Qed.

Lemma gallery_ok_step (st : Studio F) (op : GalleryOp) :
  gallery_ok st ->
  exists st', gallery_step st op = Some st' /\ gallery_ok st'.
Proof.
  intros [Hs Hc]. destruct op as [results | p | | | ]; cbn [gallery_step].
  - eexists. split; [reflexivity|].
    unfold _finalize_import. destruct results as [|r results].
    + split; assumption.
    + split; [|reflexivity]. cbn [selected_gallery_index gallery_files
                                   redraw_gallery].
      destruct (selected_gallery_index st) as [i|]; [|exact I].
      rewrite length_app. lia.
  - eexists. split; [reflexivity|].
    unfold on_gallery_click. apply gallery_ok_redraw.
    cbn [selected_gallery_index gallery_files].
    destruct (first_tagged (find_overlapping p st)) as [clicked|] eqn:E;
      [|exact Hs].
    unfold find_overlapping in E. rewrite Hc in E.
    apply first_tagged_drawn in E.
    destruct (selected_gallery_index st) as [i|]; [|lia].
    destruct (i =? clicked)%nat; [exact I|lia].
  - eexists. split; [reflexivity|].
    assert (K : gallery_ok st) by (split; assumption).
    unfold use_gallery_image.
    destruct (selected_gallery_index st) as [i|]; [|exact K].
    destruct (i <? length (gallery_files st))%nat; [|exact K].
    destruct (nth_error (gallery_files st) i) as [item|]; [|exact K].
    destruct (Image_open (file_path item)) as [image|]; [|exact K].
    apply gallery_ok_redraw. exact I.
  - assert (K : gallery_ok st) by (split; assumption).
    unfold delete_gallery_image.
    destruct (selected_gallery_index st) as [i|].
    + unfold list_del. apply Nat.ltb_lt in Hs. rewrite Hs.
      eexists. split; [reflexivity|]. apply gallery_ok_redraw. exact I.
    + eexists. split; [reflexivity|exact K].
  - eexists. split; [reflexivity|]. apply gallery_ok_redraw. exact I.
Qed.

(** X21. The gallery never fails on its selection: from start-up and through
    any sequence of finished imports, clicks on the strip, "use", "delete"
    and "clean", no operation raises an [IndexError]; afterwards the selected
    index is still that of a file of the gallery (or there is none) and the
    canvas shows one thumbnail for each file. *)
Theorem gallery_selection_stays_valid (image : Z * Z)
        (ops : list GalleryOp) :
  exists st, gallery_run ops (Studio_init image) = Some st /\ gallery_ok st.
Proof.
  assert (I0 : gallery_ok (Studio_init image)) by (split; [exact I|reflexivity]).
  revert I0. generalize (Studio_init image).
  induction ops as [|op ops IH]; intros st Hst; cbn [gallery_run].
  - exists st. split; [reflexivity|exact Hst].
  - destruct (gallery_ok_step op Hst) as (st' & E & Hst').
    rewrite E. apply IH. exact Hst'.
Qed.

(** The layout of the strip *)

(** Two boxes at least [PADDING] pixels apart, side by side or one above the
    other. *)
Definition apart (a b : Z * Z * Z * Z) : Prop :=
  let '(ax1, ay1, ax2, ay2) := a in
  let '(bx1, by1, bx2, by2) := b in
  ax2 + PADDING <= bx1 \/ bx2 + PADDING <= ax1 \/
  ay2 + PADDING <= by1 \/ by2 + PADDING <= ay1.

Definition inside (a region : Z * Z * Z * Z) : Prop :=
  let '(ax1, ay1, ax2, ay2) := a in
  let '(rx1, ry1, rx2, ry2) := region in
  rx1 <= ax1 /\ ax2 <= rx2 /\ ry1 <= ay1 /\ ay2 <= ry2.

Lemma in_draw_thumbs (selected : option nat) (files : list GalleryFile)
      (start : nat) (item : CanvasItem) :
  In item (draw_thumbs selected start files) ->
  exists idx x1 y1 x2 y2,
    (start <= idx < start + length files)%nat /\
    first_item_tag (gettags item) = Some idx /\
    bbox item = (x1, y1, x2, y2) /\
    fst (thumb_xy idx) <= x1 /\ x2 <= fst (thumb_xy idx) + ITEM_SIZE /\
    snd (thumb_xy idx) <= y1 /\ y2 <= snd (thumb_xy idx) + ITEM_SIZE.
Proof.
  revert start. induction files as [|f files IH]; intros start; cbn [draw_thumbs].
  - intros [].
  - intros H. apply in_app_or in H. destruct H as [H | H].
    + exists start. unfold draw_thumb in H.
      destruct (thumb_xy start) as [x y] eqn:E. cbn [fst snd].
      unfold ITEM_SIZE in *.
      destruct H as [<- | [<- | [<- | []]]]; cbn [bbox gettags first_item_tag];
        do 4 eexists; (split; [cbn [length]; lia|]);
        (split; [reflexivity|]); (split; [reflexivity|]);
        change (70 / 2) with 35; lia.
    + apply IH in H. destruct H as (idx & x1 & y1 & x2 & y2 & Hi & R).
      exists idx, x1, y1, x2, y2. split; [cbn [length]; lia|exact R].
Qed.

(** X22. The thumbnails of the strip neither overlap nor leave the scroll
    region: after [redraw_gallery], every item on the canvas lies inside the
    scroll region, and two items of different thumbnails are at least 6
    pixels apart, horizontally or vertically. *)
Theorem gallery_layout (st : Studio F) (a b : CanvasItem) :
  let st' := redraw_gallery st in
  In a (gallery_canvas st') -> In b (gallery_canvas st') ->
  (exists region, scrollregion st' = Some region /\ inside (bbox a) region) /\
  (first_item_tag (gettags a) <> first_item_tag (gettags b) ->
   apart (bbox a) (bbox b)).
Proof.
  intros st' Ha Hb. cbn [st' redraw_gallery gallery_canvas scrollregion] in *.
  apply in_draw_thumbs in Ha, Hb.
  destruct Ha as (i & ax1 & ay1 & ax2 & ay2 & Hi & Ti & Bi & A1 & A2 & A3 & A4).
  destruct Hb as (j & bx1 & by1 & bx2 & by2 & Hj & Tj & Bj & B1 & B2 & B3 & B4).
  rewrite Ti, Tj, Bi, Bj.
  unfold thumb_xy, ITEM_SIZE, PADDING, START_X, START_Y in *.
  cbn [fst snd] in *.
  split.
  - eexists. split; [reflexivity|]. unfold inside.
    pose proof (Z.div_mod (Z.of_nat i) 2 ltac:(lia)).
    pose proof (Z.mod_pos_bound (Z.of_nat i) 2 ltac:(lia)).
    pose proof (Z.div_mod (Z.of_nat (length (gallery_files st)) + 1) 2
                  ltac:(lia)).
    pose proof (Z.mod_pos_bound (Z.of_nat (length (gallery_files st)) + 1) 2
                  ltac:(lia)).
    lia.
  - intros Hne. assert (i <> j) by congruence. unfold apart, PADDING.
    pose proof (Z.div_mod (Z.of_nat i) 2 ltac:(lia)).
    pose proof (Z.mod_pos_bound (Z.of_nat i) 2 ltac:(lia)).
    pose proof (Z.div_mod (Z.of_nat j) 2 ltac:(lia)).
    pose proof (Z.mod_pos_bound (Z.of_nat j) 2 ltac:(lia)).
    lia.
Qed.

(** Import *)

Lemma worker_nothing_new (path_list existing_paths : list string) :
  (forall path, In path path_list -> path_exists path = true ->
                Image_open path <> None ->
                existsb (String.eqb path) existing_paths = true) ->
  _worker_import_thumbnails path_list existing_paths = [].
Proof.
  intros H. unfold _worker_import_thumbnails.
  induction path_list as [|path path_list IH]; [reflexivity|].
  cbn [filter].
  destruct (path_exists path) eqn:E; cbn [negb orb andb].
  - destruct (Image_open path) as [image|] eqn:O.
    + rewrite (H path); [|left; reflexivity|exact E|rewrite O; discriminate].
      cbn [negb andb]. apply IH. intros p Hp. apply H. right. exact Hp.
    + rewrite andb_false_r. apply IH. intros p Hp. apply H. right. exact Hp.
  - apply IH. intros p Hp. apply H. right. exact Hp.
Qed.

Lemma existsb_eqb_In (path : string) (paths : list string) :
  existsb (String.eqb path) paths = true <-> In path paths.
Proof.
  rewrite existsb_exists. split.
  - intros (q & Hq & E). apply String.eqb_eq in E. now subst q.
  - intros H. exists path. split; [exact H|apply String.eqb_refl].
Qed.

(** X23. Importing the same files again adds nothing: a second
    [process_import_paths] with the same list (the files on disk being the
    same) leaves gallery, selection, canvas and status exactly as the first
    one left them. *)
Theorem import_twice_is_once (path_list : list string) (st : Studio F) :
  process_import_paths path_list (process_import_paths path_list st)
  = process_import_paths path_list st.
Proof.
  destruct path_list as [|p0 rest] eqn:L; [reflexivity|]. rewrite <- L.
  assert (N : forall s, process_import_paths path_list s
                        = _finalize_import
                            (_worker_import_thumbnails path_list
                               (map file_path (gallery_files s))) s).
  { intros s. rewrite L. reflexivity. }
  clear L. rewrite (N (process_import_paths path_list st)).
  set (st1 := process_import_paths path_list st).
  rewrite worker_nothing_new; [reflexivity|].
  intros path Hin He Ho. apply existsb_eqb_In.
  destruct (existsb (String.eqb path) (map file_path (gallery_files st)))
    eqn:Old.
  - apply existsb_eqb_In in Old. unfold st1. rewrite N.
    unfold _finalize_import.
    destruct (_worker_import_thumbnails path_list
                (map file_path (gallery_files st))); [exact Old|].
    cbn [gallery_files redraw_gallery]. rewrite map_app.
    apply in_or_app. left. exact Old.
  - assert (R : In (mkGalleryFile path (basename path))
                   (_worker_import_thumbnails path_list
                      (map file_path (gallery_files st)))).
    { unfold _worker_import_thumbnails.
      apply (in_map (fun q => mkGalleryFile q (basename q))).
      apply filter_In. split; [exact Hin|].
      rewrite He, Old. destruct (Image_open path); [reflexivity|].
      now contradiction Ho. }
    unfold st1. rewrite N. unfold _finalize_import.
    destruct (_worker_import_thumbnails path_list
                (map file_path (gallery_files st))) as [|r results];
      [destruct R|].
    cbn [gallery_files redraw_gallery]. rewrite map_app.
    apply in_or_app. right.
    change path with (file_path (mkGalleryFile path (basename path))).
    apply in_map. exact R.
Qed.

End Gallery.

(** A gallery of three files, the second one selected. *)
Definition three_files : Studio Q :=
  mkStudio (BackgroundRemoverGUI (4, 3))
           [mkGalleryFile "a.png" "a.png"; mkGalleryFile "b.jpg" "b.jpg";
            mkGalleryFile "c.webp" "c.webp"]
           (Some 1%nat) [] None [] 0 "Background Remover Pro".

Lemma gallery_layout_witness :
  let frame_0 :=
    Rectangle 4 4 74 74 "#333333" 1 (Some "#151515"%string)
              [item_ 0; thumb_frame] in
  let image_2 :=
    CanvasImage 115 39 (mkGalleryFile "c.webp" "c.webp")
                [item_ 2; thumb_img] in
  (exists region,
     scrollregion (redraw_gallery three_files) = Some region /\
     inside (bbox frame_0) region) /\
  (first_item_tag (gettags frame_0) <> first_item_tag (gettags image_2) ->
   apart (bbox frame_0) (bbox image_2)).
Proof.
  intros frame_0 image_2.
  apply (@gallery_layout Q three_files frame_0 image_2).
  - vm_compute. left. reflexivity.
  - vm_compute. do 7 right. left. reflexivity.
Defined.

(** ** Drag and drop *)

Section DragAndDrop.

(** The characters of a Python string, [str.isspace] (the class [\s] of the
    regular expressions), and the three characters the pattern and [strip]
    name. *)
Variable char : Type.
Variable char_eq_dec : forall a b : char, {a = b} + {a <> b}.
Variable isspace : char -> bool.
Variables lbrace rbrace newline : char.

Definition char_is (c d : char) : bool :=
  if char_eq_dec c d then true else false.

(** [.*?\}] behind an opening brace: the shortest run of characters other
    than the newline that ends with a closing brace.  The result is the match
    and the rest of the string. *)
Fixpoint lazy_to_rbrace (s : list char) : option (list char * list char) :=
  match s with
  | [] => None
  | c :: s' =>
      if char_is c rbrace then Some ([c], s')
      else if char_is c newline then None
      else match lazy_to_rbrace s' with
           | Some (m, r) => Some (c :: m, r)
           | None => None
           end
  end.

(** [\S+]: the longest run of characters that are not white space. *)
Fixpoint nonspace_run (s : list char) : list char * list char :=
  match s with
  | [] => ([], [])
  | c :: s' =>
      if isspace c then ([], s)
      else let '(m, r) := nonspace_run s' in (c :: m, r)
  end.

(** [re.compile(r'\{.*?\}|\S+').findall]: at each position the first
    alternative is tried before the second, the search goes on behind a
    match, and a position where neither matches is skipped.  Every turn
    consumes a character, so [fuel] bounds the turns. *)
Fixpoint findall_from (fuel : nat) (s : list char) : list (list char) :=
  match fuel with
  | O => []
  | S fuel =>
      match s with
      | [] => []
      | c :: s' =>
          match (if char_is c lbrace then lazy_to_rbrace s' else None) with
          | Some (m, r) => (c :: m) :: findall_from fuel r
          | None =>
              if isspace c then findall_from fuel s'
              else let '(m, r) := nonspace_run s in m :: findall_from fuel r
          end
      end
  end.

Definition findall (data : list char) : list (list char) :=
  findall_from (length data) data.

(** [str.strip('{}')] *)
Definition is_brace (c : char) : bool := char_is c lbrace || char_is c rbrace.

Fixpoint lstrip (s : list char) : list char :=
  match s with
  | [] => []
  | c :: s' => if is_brace c then lstrip s' else s
  end.

Definition strip (s : list char) : list char :=
  rev (lstrip (rev (lstrip s))).

Definition parse_tkdnd_paths (data : list char) : list (list char) :=
  filter (fun path => match path with [] => false | _ => true end)
         (map strip (findall data)).

(** The fuel of [findall] is enough. *)

Lemma lazy_to_rbrace_shorter (s m r : list char) :
  lazy_to_rbrace s = Some (m, r) -> (length r < length s)%nat.
Proof.
  revert m. induction s as [|c s IH]; intros m; cbn [lazy_to_rbrace].
  - discriminate.
  - destruct (char_is c rbrace).
    + intros E. injection E as _ <-. cbn [length]. lia.
    + destruct (char_is c newline); [discriminate|].
      destruct (lazy_to_rbrace s) as [[m' r']|]; [|discriminate].
      intros E. injection E as _ <-.
      specialize (IH m' eq_refl). cbn [length]. lia.
Qed.

Lemma nonspace_run_shorter (s : list char) :
  (length (snd (nonspace_run s)) <= length s)%nat.
Proof.
  induction s as [|c s IH]; cbn [nonspace_run]; [cbn; lia|].
  destruct (isspace c); [cbn; lia|].
  destruct (nonspace_run s) as [m r]. cbn [snd length] in *. lia.
Qed.

Lemma findall_from_enough (n k : nat) (s : list char) :
  (length s <= n)%nat -> (length s <= k)%nat ->
  findall_from n s = findall_from k s.
Proof.
  revert k s. induction n as [|n IH]; intros k s Hn Hk.
  - destruct s; [|cbn in Hn; lia]. destruct k; reflexivity.
  - destruct k as [|k]; [destruct s; [reflexivity|cbn in Hk; lia]|].
    cbn [findall_from]. destruct s as [|c s]; [reflexivity|].
    cbn [length] in Hn, Hk.
    destruct (if char_is c lbrace then lazy_to_rbrace s else None)
      as [[m r]|] eqn:E.
    + destruct (char_is c lbrace); [|discriminate].
      apply lazy_to_rbrace_shorter in E. f_equal. apply IH; lia.
    + destruct (isspace c) eqn:W.
      * apply IH; lia.
      * pose proof (nonspace_run_shorter s) as L.
        cbn [nonspace_run]. rewrite W.
        destruct (nonspace_run s) as [m r]. cbn [snd] in L.
        f_equal. apply IH; lia.
Qed.

(** What a drop delivers: the paths one after the other, [sep] between two
    of them, a path in braces where [braced] says so. *)
Definition render (item : list char * bool) : list char :=
  let '(path, braced) := item in
  if braced then lbrace :: path ++ [rbrace] else path.

Fixpoint dnd_data (sep : char) (items : list (list char * bool))
  : list char :=
  match items with
  | [] => []
  | [item] => render item
  | item :: items => render item ++ sep :: dnd_data sep items
  end.

(** A path the list format carries as it is: not empty, without braces,
    without a newline when it is in braces, without white space when it is
    not. *)
Definition plain_item (item : list char * bool) : Prop :=
  let '(path, braced) := item in
  path <> [] /\
  Forall (fun c => is_brace c = false) path /\
  if braced then Forall (fun c => c <> newline) path
  else Forall (fun c => isspace c = false) path.

Lemma char_is_true (c d : char) : char_is c d = true <-> c = d.
Proof.
  unfold char_is. destruct (char_eq_dec c d); split; congruence.
Qed.

Lemma char_is_false (c d : char) : char_is c d = false <-> c <> d.
Proof.
  unfold char_is. destruct (char_eq_dec c d); split; congruence.
Qed.

Lemma lazy_to_rbrace_path (path rest : list char) :
  Forall (fun c => is_brace c = false) path ->
  Forall (fun c => c <> newline) path ->
  lazy_to_rbrace (path ++ rbrace :: rest) = Some (path ++ [rbrace], rest).
Proof.
  intros Hb Hn. induction path as [|c path IH]; cbn [List.app lazy_to_rbrace].
  - assert (E : char_is rbrace rbrace = true) by now apply char_is_true.
    rewrite E. reflexivity.
  - inversion Hb as [|? ? Hc Hb']; subst. inversion Hn as [|? ? Nc Hn']; subst.
    unfold is_brace in Hc. apply orb_false_iff in Hc. destruct Hc as [_ Hc].
    rewrite Hc. apply char_is_false in Nc. rewrite Nc.
    rewrite (IH Hb' Hn'). reflexivity.
Qed.

Lemma nonspace_run_path (path rest : list char) :
  Forall (fun c => isspace c = false) path ->
  match rest with [] => True | c :: _ => isspace c = true end ->
  nonspace_run (path ++ rest) = (path, rest).
Proof.
  intros Hp Hr. induction path as [|c path IH]; cbn [List.app nonspace_run].
  - destruct rest as [|c rest]; [reflexivity|]. cbn [nonspace_run].
    rewrite Hr. reflexivity.
  - inversion Hp as [|? ? Hc Hp']; subst. rewrite Hc.
    rewrite (IH Hp'). reflexivity.
Qed.

Lemma lstrip_plain (path rest : list char) :
  path <> [] -> Forall (fun c => is_brace c = false) path ->
  lstrip (path ++ rest) = path ++ rest.
Proof.
  intros Hne Hb. destruct path as [|c path]; [congruence|].
  inversion Hb as [|? ? Hc _]; subst. cbn [List.app lstrip]. rewrite Hc.
  reflexivity.
Qed.

Lemma strip_plain (path : list char) :
  path <> [] -> Forall (fun c => is_brace c = false) path ->
  strip path = path.
Proof.
  intros Hne Hb. unfold strip.
  rewrite <- (List.app_nil_r path) at 1. rewrite lstrip_plain by assumption.
  rewrite List.app_nil_r.
  rewrite <- (List.app_nil_r (rev path)). rewrite lstrip_plain.
  - rewrite List.app_nil_r. apply rev_involutive.
  - intros E. apply (f_equal (@rev char)) in E. rewrite rev_involutive in E.
    exact (Hne E).
  - apply Forall_rev. exact Hb.
Qed.

Lemma strip_braced (path : list char) :
  path <> [] -> Forall (fun c => is_brace c = false) path ->
  is_brace lbrace = true -> is_brace rbrace = true ->
  strip (lbrace :: path ++ [rbrace]) = path.
Proof.
  intros Hne Hb Hl Hr. unfold strip. cbn [lstrip]. rewrite Hl.
  rewrite lstrip_plain by assumption.
  rewrite rev_app_distr. cbn [rev List.app lstrip]. rewrite Hr.
  rewrite <- (List.app_nil_r (rev path)). rewrite lstrip_plain.
  - rewrite List.app_nil_r. apply rev_involutive.
  - intros E. apply (f_equal (@rev char)) in E. rewrite rev_involutive in E.
    exact (Hne E).
  - apply Forall_rev. exact Hb.
Qed.

Lemma is_brace_braces : is_brace lbrace = true /\ is_brace rbrace = true.
Proof.
  unfold is_brace. split.
  - assert (E : char_is lbrace lbrace = true) by now apply char_is_true.
    rewrite E. reflexivity.
  - assert (E : char_is rbrace rbrace = true) by now apply char_is_true.
    rewrite E. apply orb_true_r.
Qed.

Lemma strip_render (item : list char * bool) :
  plain_item item -> strip (render item) = fst item.
Proof.
  destruct item as [path [|]]; intros (Hne & Hb & _); cbn [render fst].
  - destruct is_brace_braces. now apply strip_braced.
  - now apply strip_plain.
Qed.

Lemma render_nonempty (item : list char * bool) :
  plain_item item -> (1 <= length (render item))%nat.
Proof.
  destruct item as [path [|]]; intros (Hne & _); cbn [render length].
  - lia.
  - destruct path; [congruence|cbn; lia].
Qed.

(** One turn of the search on an item followed by [rest]. *)
Lemma findall_from_item (fuel : nat) (item : list char * bool)
      (rest : list char) :
  plain_item item ->
  match rest with [] => True | c :: _ => isspace c = true end ->
  findall_from (S fuel) (render item ++ rest)
  = render item :: findall_from fuel rest.
Proof.
  destruct item as [path [|]]; intros (Hne & Hb & Hp) Hr; cbn [render].
  - cbn [List.app findall_from].
    assert (E : char_is lbrace lbrace = true) by now apply char_is_true.
    rewrite E. rewrite <- List.app_assoc. cbn [List.app].
    rewrite lazy_to_rbrace_path by assumption. reflexivity.
  - destruct path as [|c path]; [congruence|].
    cbn [List.app findall_from].
    inversion Hb as [|? ? Hc _]; subst. inversion Hp as [|? ? Wc _]; subst.
    unfold is_brace in Hc. apply orb_false_iff in Hc. destruct Hc as [Hc _].
    rewrite Hc, Wc.
    change (c :: path ++ rest) with ((c :: path) ++ rest).
    rewrite nonspace_run_path by assumption. reflexivity.
Qed.

Lemma findall_from_dnd_data (sep : char) (items : list (list char * bool))
      (fuel : nat) :
  isspace sep = true -> char_is sep lbrace = false ->
  Forall plain_item items ->
  (length (dnd_data sep items) <= fuel)%nat ->
  findall_from fuel (dnd_data sep items) = map render items.
Proof.
  intros Hs Hl Hok. revert fuel.
  induction Hok as [|item items Hi Hok IH]; intros fuel Hf.
  - destruct fuel; reflexivity.
  - pose proof (@render_nonempty item Hi) as L1.
    destruct items as [|item' items].
    + cbn [dnd_data map] in *. destruct fuel as [|fuel]; [lia|].
      rewrite <- (List.app_nil_r (render item)) at 1.
      rewrite findall_from_item by (assumption || exact I).
      destruct fuel; reflexivity.
    + change (dnd_data sep (item :: item' :: items))
        with (render item ++ sep :: dnd_data sep (item' :: items)) in *.
      rewrite List.length_app in Hf. cbn [length] in Hf.
      destruct fuel as [|fuel]; [lia|].
      rewrite findall_from_item by assumption.
      destruct fuel as [|fuel]; [lia|].
      cbn [findall_from]. rewrite Hl, Hs.
      cbn [map]. f_equal. apply IH. lia.
Qed.

(** X24. Paths survive a drop: for a drop that delivers its paths separated
    by one white-space character, a path in braces or not, every path not
    empty and free of braces, the braced ones free of newlines and the others
    free of white space, [parse_tkdnd_paths] returns exactly the paths, in
    order; in particular a path with spaces in it comes through in one
    piece. *)
Theorem dropped_paths_recovered (sep : char)
        (items : list (list char * bool)) :
  isspace sep = true -> isspace lbrace = false ->
  Forall plain_item items ->
  parse_tkdnd_paths (dnd_data sep items) = map fst items.
Proof.
  intros Hs Hl Hok. unfold parse_tkdnd_paths, findall.
  assert (Ne : char_is sep lbrace = false).
  { apply char_is_false. intros ->. congruence. }
  rewrite findall_from_dnd_data by (assumption || lia).
  clear Hs Hl Ne. induction Hok as [|item items Hi Hok IH]; [reflexivity|].
  cbn [map filter]. rewrite (@strip_render item Hi).
  destruct item as [path b]. cbn [fst]. destruct Hi as (Hne & _).
  destruct path as [|c path]; [congruence|].
  f_equal. exact IH.
Qed.

End DragAndDrop.

(** Python's [str.isspace] on the characters below 256. *)
Definition ascii_isspace (c : ascii) : bool :=
  let n := nat_of_ascii c in
  ((9 <=? n) && (n <=? 13) || (28 <=? n) && (n <=? 32)
   || (n =? 133) || (n =? 160))%nat.

Lemma dropped_paths_recovered_witness :
  let chars := list_ascii_of_string in
  parse_tkdnd_paths ascii_dec ascii_isspace "{"%char "}"%char "010"%char
    (chars "{C:/my pics/a b.png} C:/c.jpg"%string)
  = [chars "C:/my pics/a b.png"%string; chars "C:/c.jpg"%string].
Proof.
  intros chars.
  apply (@dropped_paths_recovered ascii ascii_dec ascii_isspace
           "{"%char "}"%char "010"%char " "%char
           [(chars "C:/my pics/a b.png"%string, true);
            (chars "C:/c.jpg"%string, false)]).
  - reflexivity.
  - reflexivity.
  - repeat constructor; try discriminate.
Defined.
